(** * rdcontext: embedding normalisation, vector store and similarity search

    A shallow embedding of the embedding-storage core of rdcontext:

    - [EmbeddingNormalizer] (src/ai/embedding-utils.ts),
    - [embed] and [geminiEmbed] (src/ai/embed.ts, src/ai/gemini.ts),
    - [VectorStore] (src/db/vector-store.ts),
    - [SnippetStoreV2] (src/db/snippet-store-v2.ts),
    - [fromName] and [rm] (src/handlers/add-v2.ts, src/handlers/rm.ts).

    A JavaScript [number] is an IEEE 754 binary64 value, which is what the
    primitive type [float] is; arrays of numbers are lists of floats.
    Functions that throw return a [result]; functions that touch the
    database, the environment or the network run in the state-and-error
    monad [M] over a [World].  The database driver is not part of the
    repository: how it begins a transaction and how it words the error
    of a violated key are components of the [World]. *)

From Stdlib Require Import String.
From Stdlib Require Import List ZArith Lia Bool Floats Sorted Permutation.
Import ListNotations.

Set Implicit Arguments.

(* ================================================================= *)
(** ** JavaScript values *)

Abbreviation number := float.

(** The two embedding providers of [schema-v2.ts]. *)
Inductive EmbeddingProvider := openai | gemini.

Definition provider_eqb (p q : EmbeddingProvider) : bool :=
  match p, q with
  | openai, openai | gemini, gemini => true
  | _, _ => false
  end.

(** Thrown values.  Every [throw new Error(...)] of the modelled code has a
    constructor of its own, carrying the data its message interpolates. *)
Inductive JsError :=
| UnsupportedProvider
| InvalidGeminiDimensions (got : nat)
| UnsupportedOpenAIDimensions (got : nat)
| UnsupportedEmbedding (provider : EmbeddingProvider) (got : nat)
| DimensionMismatch (lenA lenB : nat)
| EmptyInput
| MissingGeminiApiKey
| FailedToGenerateEmbedding (cause : JsError)
| UnexpectedResponseStructure
| ExternalFailure (code : nat)
| ConstraintFailed.

Inductive result (A : Type) :=
| Ok (a : A)
| Throw (e : JsError).
Arguments Ok {A} a.
Arguments Throw {A} e.

Definition is_ok {A} (r : result A) : bool :=
  match r with Ok _ => true | Throw _ => false end.

(** [xs.map(f)] where [f] may throw: the first throw aborts the map. *)
Fixpoint map_result {A B} (f : A -> result B) (xs : list A) : result (list B) :=
  match xs with
  | [] => Ok []
  | x :: xs' =>
      match f x with
      | Throw e => Throw e
      | Ok y =>
          match map_result f xs' with
          | Throw e => Throw e
          | Ok ys => Ok (y :: ys)
          end
      end
  end.

(** [s.includes(sub)] on strings of the database driver. *)
Fixpoint includes (s sub : string) : bool :=
  String.prefix sub s
  || match s with
     | EmptyString => false
     | String _ t => includes t sub
     end.

(* ----------------------------------------------------------------- *)
(** *** Arrays *)

(** [a[i]] for a read inside the bounds; a read outside them yields
    [undefined], which as a number is [NaN]. *)
Definition array_get (a : list number) (i : nat) : number := nth i a nan.

(** [a[i] = v]: replaces inside the bounds, extends the array with holes
    otherwise. *)
Fixpoint array_set (a : list number) (i : nat) (v : number) : list number :=
  match a, i with
  | [], O => [v]
  | [], S i' => nan :: array_set [] i' v
  | _ :: t, O => v :: t
  | h :: t, S i' => h :: array_set t i' v
  end.

(** [Array.prototype.slice(start, end)] for integer arguments. *)
Definition slice {A} (a : list A) (start end_ : Z) : list A :=
  let len := Z.of_nat (length a) in
  let k := if (start <? 0)%Z then Z.max (len + start) 0 else Z.min start len in
  let final := if (end_ <? 0)%Z then Z.max (len + end_) 0 else Z.min end_ len in
  firstn (Z.to_nat (final - k)) (skipn (Z.to_nat k) a).

(** [new Array(n).fill(0)] followed by
    [for (let i = 0; i < count; i++) normalized[i] = embedding[i]]. *)
Definition zero_filled (n : nat) : list number := repeat 0%float n.

Definition copy_prefix (embedding : list number) (count : nat)
    (normalized : list number) : list number :=
  fold_left (fun acc i => array_set acc i (array_get embedding i))
            (seq 0 count) normalized.

(* ----------------------------------------------------------------- *)
(** *** Typed arrays of bytes *)

(** A [Uint8Array]; its elements are integers of [0, 255]. *)
Definition Uint8Array := list Z.

(** [new Uint8Array(n)]. *)
Definition new_Uint8Array (n : nat) : Uint8Array := repeat 0%Z n.

(** [binary[i]] as the operand of a bitwise operator: a read outside the
    bounds yields [undefined], which such an operator takes as [0]. *)
Definition uint8_get (binary : Uint8Array) (i : nat) : Z := nth i binary 0%Z.

(** [binary[i] = v]: the value is stored modulo 256, and a write outside
    the bounds is ignored. *)
Fixpoint uint8_set (binary : Uint8Array) (i : nat) (v : Z) : Uint8Array :=
  match binary, i with
  | [], _ => []
  | _ :: t, O => (v mod 256)%Z :: t
  | h :: t, S i' => h :: uint8_set t i' v
  end.

(** [new Array(n)]: [n] holes; a hole read as a number is [NaN]. *)
Definition new_Array (n : nat) : list number := repeat nan n.

(* ================================================================= *)
(** ** src/ai/embedding-utils.ts *)

Module EmbeddingNormalizer.

Definition normalizeGemini (embedding : list number) : result (list number) :=
  if length embedding =? 3072 then Ok embedding
  else if length embedding =? 768 then
    Ok (copy_prefix embedding 768 (zero_filled 3072))
  else Throw (InvalidGeminiDimensions (length embedding)).

Definition normalizeOpenAI (embedding : list number) : result (list number) :=
  if length embedding =? 3072 then Ok embedding
  else if length embedding =? 1536 then Ok (slice embedding 0 3072)
  else if length embedding =? 3072 then Ok (slice embedding 0 3072)
  else Throw (UnsupportedOpenAIDimensions (length embedding)).

(** The [default] branch of the switch is unreachable for a value of
    the closed type [EmbeddingProvider]. *)
Definition normalize (embedding : list number) (provider : EmbeddingProvider)
  : result (list number) :=
  match provider with
  | gemini => normalizeGemini embedding
  | openai => normalizeOpenAI embedding
  end.

(** The three accumulators of the loop of [cosineSimilarity]. *)
Record sums := { dotProduct : number; sumA : number; sumB : number }.

Definition cosine_step (a b : list number) (acc : sums) (i : nat) : sums :=
  {| dotProduct := (dotProduct acc + array_get a i * array_get b i)%float;
     sumA := (sumA acc + array_get a i * array_get a i)%float;
     sumB := (sumB acc + array_get b i * array_get b i)%float |}.

Definition cosine_sums (a b : list number) (n : nat) : sums :=
  fold_left (cosine_step a b) (seq 0 n)
            {| dotProduct := 0%float; sumA := 0%float; sumB := 0%float |}.

Definition magnitudeA (a b : list number) : number :=
  sqrt (sumA (cosine_sums a b (length a))).
Definition magnitudeB (a b : list number) : number :=
  sqrt (sumB (cosine_sums a b (length a))).

Definition cosineSimilarity (a b : list number) : result number :=
  if negb (length a =? length b) then
    Throw (DimensionMismatch (length a) (length b))
  else
    let s := cosine_sums a b (length a) in
    let magnitudeA := sqrt (sumA s) in
    let magnitudeB := sqrt (sumB s) in
    if (magnitudeA =? 0)%float || (magnitudeB =? 0)%float then Ok 0%float
    else Ok (dotProduct s / (magnitudeA * magnitudeB))%float.

Definition validateEmbedding (embedding : list number)
    (provider : EmbeddingProvider) : bool :=
  match provider with
  | gemini => existsb (Nat.eqb (length embedding)) [768; 3072]
  | openai => existsb (Nat.eqb (length embedding)) [3072; 1536; 3072]
  end.

(** [Math.ceil(embedding.length / 8)] bytes, all zero, then one pass over
    the entries: [binary[byteIndex] |= (1 << bitIndex)] for each entry
    that is greater than zero.  The operands of [|] and [<<] are below
    [2^8] here, so the conversion to 32-bit integers leaves them as they
    are. *)
Definition quantize_step (embedding : list number) (binary : Uint8Array)
    (i : nat) : Uint8Array :=
  let byteIndex := i / 8 in
  let bitIndex := i mod 8 in
  if (0 <? array_get embedding i)%float then
    uint8_set binary byteIndex
              (Z.lor (uint8_get binary byteIndex)
                     (Z.shiftl 1 (Z.of_nat bitIndex)))
  else binary.

Definition quantizeToBinary (embedding : list number) : Uint8Array :=
  let binaryLength := (length embedding + 7) / 8 in
  fold_left (quantize_step embedding) (seq 0 (length embedding))
            (new_Uint8Array binaryLength).

(** [originalLength] is an array length (for any other number
    [new Array(originalLength)] throws a [RangeError]). *)
Definition dequantize_step (binary : Uint8Array) (embedding : list number)
    (i : nat) : list number :=
  let byteIndex := i / 8 in
  let bitIndex := i mod 8 in
  let bit := Z.land (Z.shiftr (uint8_get binary byteIndex) (Z.of_nat bitIndex)) 1 in
  array_set embedding i (if (bit =? 1)%Z then 1%float else (-1)%float).

Definition dequantizeFromBinary (binary : Uint8Array) (originalLength : nat)
  : list number :=
  fold_left (dequantize_step binary) (seq 0 originalLength)
            (new_Array originalLength).

Definition getExpectedDimensions (provider : EmbeddingProvider) : list nat :=
  match provider with
  | gemini => [768; 3072]
  | openai => [3072; 1536; 3072]
  end.

End EmbeddingNormalizer.

(* ================================================================= *)
(** ** The world: database, environment, module state, trace *)

(** Strings handed to [embed] are sequences of UTF-16 code units. *)
Definition JsString := list N.

(** A row of [snippets_vec_fallback].  The BLOB column holds the bytes of a
    [Float32Array]; it is modelled by the sequence of values that array
    holds, each a binary32 value read back as a [number]. *)
Record VecRow := { snippet_id : Z; embedding : list number }.

(** The columns of [snippets] that the caller supplies. *)
Record SnippetMeta := {
  library : string; path : string; title : string;
  description : string; language : option string; code : string }.

(** A row of [snippets] ([created_at] is filled by the engine and is not
    modelled). *)
Record SnippetRow := {
  id : Z; meta : SnippetMeta;
  provider : EmbeddingProvider; embedding_dims : nat }.

(** [snippets_seq] is the AUTOINCREMENT counter of [snippets]; [libraries]
    holds the primary keys of the [libraries] table and [foreign_keys] says
    whether the engine enforces the reference from [snippets.library]. *)
Record Database := {
  libraries : list string;
  foreign_keys : bool;
  snippets : list SnippetRow;
  snippets_seq : Z;
  snippets_vec_fallback : list VecRow }.

Record Env := {
  AI_PROVIDER : option string;
  GEMINI_API_KEY : option string;
  OPENAI_EMBEDDING_MODEL : option string;
  GEMINI_EMBEDDING_MODEL : option string }.

(** What [client.models.embedContent] resolves to, as far as [geminiEmbed]
    inspects it: [result.embedding?.values] and
    [result.embeddings?.[0]?.values], each present or not.  (A response
    whose [embedding] is itself an array never reaches the third test of
    [geminiEmbed]: an array has a [values] property, so the first test
    already succeeds; such responses are outside the model.) *)
Record GeminiResponse := {
  embedding_values : option (list number);
  embeddings0_values : option (list number) }.

(** The two remote endpoints, as functions of the model name and the input. *)
Record Services := {
  openai_embeddings_create : string -> JsString -> result (list number);
  gemini_embedContent : string -> JsString -> result GeminiResponse }.

Inductive TxBehavior := deferred | immediate | exclusive.

(** The database driver, [drizzle-orm/libsql] over [@libsql/client], is
    not part of the repository.  The two things the code relies on are
    taken as they come: the mode in which the driver begins a transaction
    at the engine when it is asked for one with a given [behavior], and
    the [message] of the error that it throws when an INSERT violates a
    key. *)
Record Driver := {
  begin_mode : TxBehavior -> TxBehavior;
  key_violation_message : string }.

Inductive LogLine :=
| WarnSqliteVecDisabled
| WarnUsingFallbackTable
| LogBuildingIndex
| LogStored (count : nat) (p : EmbeddingProvider)
| WarnUnexpectedDimensions (got : nat) (p : EmbeddingProvider).

(** Everything observable that the code does, in order.  [TxBegin] carries
    the mode in which the transaction begins at the engine. *)
Inductive Event :=
| TxBegin (behavior : TxBehavior)
| TxCommit
| TxRollback
| InsertSnippet (row : SnippetRow)
| DeleteVectors (ids : list Z)
| InsertVectors (rows : list VecRow)
| SelectVectors (libraryFilter : option string)
| Console (line : LogLine)
| OpenAICall (model : string) (input : JsString)
| GeminiCall (model : string) (input : JsString).

Record World := {
  db : Database;
  env : Env;
  services : Services;
  driver : Driver;
  vecInitialized : bool;
  useFallback : bool;
  geminiClient : bool;
  trace : list Event }.

Definition set_db (d : Database) (w : World) : World :=
  {| db := d; env := env w; services := services w;
     driver := driver w;
     vecInitialized := vecInitialized w; useFallback := useFallback w;
     geminiClient := geminiClient w; trace := trace w |}.

Definition emit (e : Event) (w : World) : World :=
  {| db := db w; env := env w; services := services w;
     driver := driver w;
     vecInitialized := vecInitialized w; useFallback := useFallback w;
     geminiClient := geminiClient w; trace := trace w ++ [e] |}.

(* ----------------------------------------------------------------- *)
(** *** The state-and-error monad *)

Definition M (A : Type) := World -> result A * World.

Definition ret {A} (a : A) : M A := fun w => (Ok a, w).
Definition throw {A} (e : JsError) : M A := fun w => (Throw e, w).
Definition bind {A B} (m : M A) (k : A -> M B) : M B :=
  fun w => match m w with
           | (Ok a, w') => k a w'
           | (Throw e, w') => (Throw e, w')
           end.
Definition lift {A} (r : result A) : M A := fun w => (r, w).
Definition log (e : Event) : M unit := fun w => (Ok tt, emit e w).

Declare Scope js_scope.
Delimit Scope js_scope with js.
Notation "x <- m ;; k" := (bind m (fun x => k))
  (at level 61, m at next level, right associativity) : js_scope.
Notation "m ;;; k" := (bind m (fun _ => k))
  (at level 61, right associativity) : js_scope.
Local Open Scope js_scope.

(** [for (const x of xs) body(x)], collecting what each iteration
    produces. *)
Fixpoint for_each {A B} (body : A -> M B) (xs : list A) : M (list B) :=
  match xs with
  | [] => ret []
  | x :: xs' => y <- body x ;; ys <- for_each body xs' ;; ret (y :: ys)
  end.

(* ----------------------------------------------------------------- *)
(** *** Database statements *)

Definition mem_Z (x : Z) (l : list Z) : bool := existsb (Z.eqb x) l.

Fixpoint has_dup (l : list Z) : bool :=
  match l with
  | [] => false
  | x :: t => mem_Z x t || has_dup t
  end.

Definition with_vectors (rows : list VecRow) (d : Database) : Database :=
  {| libraries := libraries d; foreign_keys := foreign_keys d;
     snippets := snippets d; snippets_seq := snippets_seq d;
     snippets_vec_fallback := rows |}.

(** The rows that [DELETE ... WHERE snippet_id IN (ids)] leaves. *)
Definition kept_vectors (ids : list Z) (d : Database) : list VecRow :=
  filter (fun r => negb (mem_Z (snippet_id r) ids)) (snippets_vec_fallback d).

(** [DELETE FROM snippets_vec_fallback WHERE snippet_id IN (ids)]. *)
Definition delete_vectors (ids : list Z) : M unit :=
  fun w =>
    (Ok tt, set_db (with_vectors (kept_vectors ids (db w)) (db w))
                   (emit (DeleteVectors ids) w)).

(** [INSERT INTO snippets_vec_fallback VALUES rows], one statement: it
    fails as a whole when a primary key is already present or occurs twice
    among [rows]. *)
Definition insert_vectors (rows : list VecRow) : M unit :=
  fun w =>
    let w' := emit (InsertVectors rows) w in
    let old := snippets_vec_fallback (db w) in
    if existsb (fun r => mem_Z (snippet_id r) (map snippet_id old)) rows
       || has_dup (map snippet_id rows)
    then (Throw ConstraintFailed, w')
    else (Ok tt, set_db (with_vectors (old ++ rows) (db w)) w').

(** JavaScript truthiness of an optional string argument. *)
Definition truthy (s : option string) : bool :=
  match s with
  | Some s' => negb (String.eqb s' EmptyString)
  | None => false
  end.

(** The two SELECTs of [fallbackSimilaritySearch]: the whole table, or its
    inner join with the snippets of one library.  Rows come back in the
    order of the table of the model, which is the order of insertion; the
    engine reads the table by [snippet_id]. *)
Definition selected_rows (libraryFilter : option string) (d : Database)
  : list VecRow :=
  let all := snippets_vec_fallback d in
  match libraryFilter with
  | Some lib =>
      if truthy libraryFilter then
        filter (fun r =>
                  existsb (fun s => Z.eqb (id s) (snippet_id r)
                                    && String.eqb (library (meta s)) lib)
                          (snippets d)) all
      else all
  | None => all
  end.

Definition select_vectors (libraryFilter : option string) : M (list VecRow) :=
  fun w => (Ok (selected_rows libraryFilter (db w)),
            emit (SelectVectors libraryFilter) w).

(** The reference from [snippets.library] to [libraries.name] holds, or is
    not enforced. *)
Definition reference_ok (d : Database) (m : SnippetMeta) : bool :=
  negb (foreign_keys d) || existsb (String.eqb (library m)) (libraries d).

(** [tx.insert(snippet).values(...).returning({ id })]. *)
Definition insert_snippet (m : SnippetMeta) (p : EmbeddingProvider)
    (dims : nat) : M Z :=
  fun w =>
    let d := db w in
    if negb (reference_ok d m) then (Throw ConstraintFailed, w)
    else
      let new_id := (snippets_seq d + 1)%Z in
      let row := {| id := new_id; meta := m; provider := p;
                    embedding_dims := dims |} in
      (Ok new_id,
       set_db {| libraries := libraries d; foreign_keys := foreign_keys d;
                 snippets := snippets d ++ [row]; snippets_seq := new_id;
                 snippets_vec_fallback := snippets_vec_fallback d |}
              (emit (InsertSnippet row) w)).

(** [db.transaction(body, { behavior })]: the driver begins a transaction,
    in the mode it has for the [behavior] asked for; commit when [body]
    returns, roll the database back and rethrow when it throws. *)
Definition transaction {A} (behavior : TxBehavior) (body : M A) : M A :=
  fun w =>
    match body (emit (TxBegin (begin_mode (driver w) behavior)) w) with
    | (Ok a, w') => (Ok a, emit TxCommit w')
    | (Throw e, w') => (Throw e, emit TxRollback (set_db (db w) w'))
    end.

(* ----------------------------------------------------------------- *)
(** *** Statements on the metadata tables *)

(** The statements below read or write [snippets] and [libraries]; rows
    come back in table order.  No [Event] stands for them, and they leave
    the trace as it is. *)

Definition with_snippets (rows : list SnippetRow) (d : Database) : Database :=
  {| libraries := libraries d; foreign_keys := foreign_keys d;
     snippets := rows; snippets_seq := snippets_seq d;
     snippets_vec_fallback := snippets_vec_fallback d |}.

(** [eq(snippet.library, libraryName)]. *)
Definition in_library (libraryName : string) (s : SnippetRow) : bool :=
  String.eqb (library (meta s)) libraryName.

(** [LIMIT n] of SQLite: a negative [n] puts no bound on the rows. *)
Definition sql_limit {A} (n : Z) (rows : list A) : list A :=
  if (n <? 0)%Z then rows else firstn (Z.to_nat n) rows.

(** [db.select().from(snippet).where(eq(snippet.library, libraryName))],
    followed by [.limit(limit)] where the code has it. *)
Definition select_snippets (libraryName : string) (limit : option Z)
  : M (list SnippetRow) :=
  fun w =>
    let rows := filter (in_library libraryName) (snippets (db w)) in
    (Ok (match limit with Some n => sql_limit n rows | None => rows end), w).

(** [db.select().from(snippet).where(sql`id IN (ids)`).limit(limit)]. *)
Definition select_snippets_in (ids : list Z) (limit : Z) : M (list SnippetRow) :=
  fun w =>
    (Ok (sql_limit limit
           (filter (fun s => mem_Z (id s) ids) (snippets (db w)))), w).

(** [db.delete(snippet).where(eq(snippet.library, libraryName))]. *)
Definition delete_snippets (libraryName : string) : M unit :=
  fun w =>
    (Ok tt,
     set_db (with_snippets
               (filter (fun s => negb (in_library libraryName s))
                       (snippets (db w)))
               (db w)) w).

(** The count of all rows of [snippets_vec_fallback]. *)
Definition count_vectors : M Z :=
  fun w => (Ok (Z.of_nat (length (snippets_vec_fallback (db w)))), w).

(** [db.delete(library).where(eq(library.name, name))]: the result is
    [rowsAffected], the number of rows of [libraries] that went.  When the
    engine enforces foreign keys, [ON DELETE cascade] removes the snippets
    of a deleted library with it; nothing refers to
    [snippets_vec_fallback], which stays as it is. *)
Definition delete_library (name : string) : M Z :=
  fun w =>
    let d := db w in
    let gone := filter (fun l => String.eqb l name) (libraries d) in
    let kept := filter (fun l => negb (String.eqb l name)) (libraries d) in
    let cascade := foreign_keys d && negb (length gone =? 0) in
    (Ok (Z.of_nat (length gone)),
     set_db {| libraries := kept; foreign_keys := foreign_keys d;
               snippets := if cascade
                           then filter (fun s => negb (in_library name s))
                                       (snippets d)
                           else snippets d;
               snippets_seq := snippets_seq d;
               snippets_vec_fallback := snippets_vec_fallback d |} w).

(* ================================================================= *)
(** ** src/ai/gemini.ts and src/ai/embed.ts *)

(** The code units that [String.prototype.trim] strips: WhiteSpace and
    LineTerminator of ECMAScript. *)
Definition white_space_units : list N :=
  [0x0009; 0x000A; 0x000B; 0x000C; 0x000D; 0x0020; 0x00A0; 0x1680;
   0x2000; 0x2001; 0x2002; 0x2003; 0x2004; 0x2005; 0x2006; 0x2007;
   0x2008; 0x2009; 0x200A; 0x2028; 0x2029; 0x202F; 0x205F; 0x3000;
   0xFEFF]%N.

Definition is_white_space (c : N) : bool := existsb (N.eqb c) white_space_units.

Fixpoint trimStart (s : JsString) : JsString :=
  match s with
  | [] => []
  | c :: t => if is_white_space c then trimStart t else s
  end.

Definition trimEnd (s : JsString) : JsString := rev (trimStart (rev s)).

Definition trim (s : JsString) : JsString := trimEnd (trimStart s).

(** [!input?.trim()]: the trimmed string is the empty string. *)
Definition blank (input : JsString) : bool :=
  match trim input with [] => true | _ :: _ => false end.

(** [process.env.X || fallback]. *)
Definition env_or (v : option string) (fallback : string) : string :=
  if truthy v then match v with Some s => s | None => fallback end
  else fallback.

(** [process.env.AI_PROVIDER === 'gemini' ? 'gemini' : 'openai']. *)
Definition currentProvider (e : Env) : EmbeddingProvider :=
  match AI_PROVIDER e with
  | Some s => if String.eqb s "gemini" then gemini else openai
  | None => openai
  end.

Definition getCurrentProvider : M EmbeddingProvider :=
  fun w => (Ok (currentProvider (env w)), w).

Definition getGeminiClient : M unit :=
  fun w =>
    if geminiClient w then (Ok tt, w)
    else if truthy (GEMINI_API_KEY (env w)) then
      (Ok tt, {| db := db w; env := env w; services := services w;
                 driver := driver w;
                 vecInitialized := vecInitialized w;
                 useFallback := useFallback w;
                 geminiClient := true; trace := trace w |})
    else (Throw MissingGeminiApiKey, w).

(** The body of the [try] block of [geminiEmbed]. *)
Definition geminiEmbed_request (input : JsString) : M (list number) :=
  fun w =>
    let model := env_or (GEMINI_EMBEDDING_MODEL (env w)) "text-embedding-004" in
    let w' := emit (GeminiCall model input) w in
    match gemini_embedContent (services w) model input with
    | Throw e => (Throw e, w')
    | Ok r =>
        match embedding_values r, embeddings0_values r with
        | Some v, _ => (Ok v, w')
        | None, Some v => (Ok v, w')
        | None, None => (Throw UnexpectedResponseStructure, w')
        end
    end.

Definition geminiEmbed (input : JsString) : M (list number) :=
  if blank input then throw EmptyInput
  else
    getGeminiClient ;;;
    (fun w => match geminiEmbed_request input w with
              | (Throw e, w') => (Throw (FailedToGenerateEmbedding e), w')
              | ok => ok
              end).

Definition openaiEmbed (input : JsString) : M (list number) :=
  fun w =>
    let model :=
      env_or (OPENAI_EMBEDDING_MODEL (env w)) "text-embedding-3-small" in
    (openai_embeddings_create (services w) model input,
     emit (OpenAICall model input) w).

Definition embed (input : JsString) (normalize : bool) : M (list number) :=
  if blank input then throw EmptyInput
  else
    p <- getCurrentProvider ;;
    embedding <- (match p with
                  | gemini => geminiEmbed input
                  | openai => openaiEmbed input
                  end) ;;
    (if negb (EmbeddingNormalizer.validateEmbedding embedding p)
     then log (Console (WarnUnexpectedDimensions (length embedding) p))
     else ret tt) ;;;
    if normalize then lift (EmbeddingNormalizer.normalize embedding p)
    else ret embedding.

(** The external calls recorded in a trace. *)
Definition is_external_call (e : Event) : bool :=
  match e with
  | OpenAICall _ _ | GeminiCall _ _ => true
  | _ => false
  end.

Definition embedRaw (input : JsString) : M (list number) := embed input false.

Definition embedNormalized (input : JsString) : M (list number) :=
  embed input true.

Definition currentModel (e : Env) : string :=
  match currentProvider e with
  | gemini => env_or (GEMINI_EMBEDDING_MODEL e) "text-embedding-004"
  | openai => env_or (OPENAI_EMBEDDING_MODEL e) "text-embedding-3-small"
  end.

Definition getCurrentModel : M string := fun w => (Ok (currentModel (env w)), w).

(* ================================================================= *)
(** ** src/db/vector-store.ts *)

(** [new Float32Array(xs)]: each number is rounded to the nearest binary32
    value (ties to even), which is again a [number] when read back. *)
Definition fround (x : number) : number :=
  match Prim2SF x with
  | S754_finite s m e => SF2Prim (binary_round 24 128 s m e)
  | _ => x
  end.

(** [Array.prototype.sort(compareFn)].  The engine chooses the algorithm;
    its result is stable, and when [compareFn] orders the elements
    consistently it is the sorted arrangement that stable insertion from
    the left gives, which is the model.  Where [compareFn] returns [NaN]
    on some pair the arrangement is the engine's own, and the model gives
    one of the rearrangements. *)
Fixpoint sort_insert {A} (compareFn : A -> A -> number) (x : A)
    (sorted : list A) : list A :=
  match sorted with
  | [] => [x]
  | y :: t =>
      if (compareFn x y <? 0)%float then x :: y :: t
      else y :: sort_insert compareFn x t
  end.

Definition array_sort {A} (compareFn : A -> A -> number) (a : list A) : list A :=
  fold_left (fun sorted x => sort_insert compareFn x sorted) a [].

(** One element of the argument of [storeVectors]. *)
Record VectorInput := {
  snippetId : Z; rawEmbedding : list number; inputProvider : EmbeddingProvider }.

(** One element of the result of [similaritySearch]. *)
Record SearchHit := { hitSnippetId : Z; distance : number }.

Module VectorStore.

Definition init : M unit :=
  fun w =>
    if vecInitialized w then (Ok tt, w)
    else
      let w1 := emit (Console WarnSqliteVecDisabled) w in
      let w2 := emit (Console WarnUsingFallbackTable) w1 in
      (Ok tt, {| db := db w2; env := env w2; services := services w2;
                 driver := driver w2;
                 vecInitialized := true; useFallback := true;
                 geminiClient := geminiClient w2; trace := trace w2 |}).

Definition normalizeEmbedding (embedding : list number)
    (p : EmbeddingProvider) : result (list number) :=
  if provider_eqb p gemini && (length embedding =? 3072) then Ok embedding
  else if provider_eqb p gemini && (length embedding =? 768) then
    Ok (copy_prefix embedding 768 (zero_filled 3072))
  else if provider_eqb p openai && (length embedding =? 1536) then
    Ok (slice embedding 0 3072)
  else Throw (UnsupportedEmbedding p (length embedding)).

(** The callback of [vectors.map] in [storeVectors]. *)
Definition normalizedVector (v : VectorInput) : result VecRow :=
  match normalizeEmbedding (rawEmbedding v) (inputProvider v) with
  | Throw e => Throw e
  | Ok normalized =>
      Ok {| snippet_id := snippetId v; embedding := map fround normalized |}
  end.

Definition BATCH_SIZE : nat := 50.

(** [for (let i = 0; i < normalizedVectors.length; i += BATCH_SIZE)];
    [fuel] bounds the number of iterations. *)
Fixpoint insert_batches (fuel : nat) (normalizedVectors : list VecRow)
    (i : nat) : M unit :=
  match fuel with
  | O => ret tt
  | S fuel' =>
      if i <? length normalizedVectors then
        let batch := slice normalizedVectors (Z.of_nat i)
                           (Z.of_nat (i + BATCH_SIZE)) in
        insert_vectors batch ;;;
        insert_batches fuel' normalizedVectors (i + BATCH_SIZE)
      else ret tt
  end.

Definition storeVectors (vectors : list VectorInput) : M unit :=
  init ;;;
  if length vectors =? 0 then ret tt
  else
    let snippetIds := map snippetId vectors in
    (if 0 <? length snippetIds then delete_vectors snippetIds else ret tt) ;;;
    normalizedVectors <- lift (map_result normalizedVector vectors) ;;
    insert_batches (length normalizedVectors) normalizedVectors 0.

(** The accumulators of the loop of [fallbackSimilaritySearch]. *)
Record sums := {
  dotProduct : number; queryMagnitude : number; embeddingMagnitude : number }.

Definition similarity_step (queryVector e : list number) (acc : sums)
    (i : nat) : sums :=
  {| dotProduct :=
       (dotProduct acc + array_get queryVector i * array_get e i)%float;
     queryMagnitude :=
       (queryMagnitude acc + array_get queryVector i * array_get queryVector i)%float;
     embeddingMagnitude :=
       (embeddingMagnitude acc + array_get e i * array_get e i)%float |}.

Definition similarity_sums (queryVector e : list number) : sums :=
  fold_left (similarity_step queryVector e)
            (seq 0 (Nat.min (length queryVector) (length e)))
            {| dotProduct := 0%float; queryMagnitude := 0%float;
               embeddingMagnitude := 0%float |}.

Definition magnitude (queryVector e : list number) : number :=
  let s := similarity_sums queryVector e in
  (sqrt (queryMagnitude s) * sqrt (embeddingMagnitude s))%float.

Definition similarity (queryVector e : list number) : number :=
  let s := similarity_sums queryVector e in
  let magnitude :=
    (sqrt (queryMagnitude s) * sqrt (embeddingMagnitude s))%float in
  if (0 <? magnitude)%float then (dotProduct s / magnitude)%float
  else 0%float.

(** The callback of [results.map]. *)
Definition to_hit (queryVector : list number) (row : VecRow) : SearchHit :=
  {| hitSnippetId := snippet_id row;
     distance := (1 - similarity queryVector (embedding row))%float |}.

Definition by_distance (a b : SearchHit) : number :=
  (distance a - distance b)%float.

Definition fallbackSimilaritySearch (queryVector : list number) (limit : Z)
    (libraryFilter : option string) : M (list SearchHit) :=
  results <- select_vectors libraryFilter ;;
  let similarities := map (to_hit queryVector) results in
  ret (slice (array_sort by_distance similarities) 0 limit).

Definition similaritySearch (queryEmbedding : list number)
    (p : EmbeddingProvider) (limit : Z) (libraryFilter : option string)
  : M (list SearchHit) :=
  init ;;;
  normalized <- lift (normalizeEmbedding queryEmbedding p) ;;
  fallbackSimilaritySearch normalized limit libraryFilter.

(** [error.message.includes('UNIQUE constraint failed') ||
    error.message.includes('PRIMARY KEY constraint failed')], for an error
    thrown by the INSERT.  The message of a violated key is the driver's;
    the INSERT of the model raises nothing else. *)
Definition is_key_violation (dr : Driver) (error : JsError) : bool :=
  match error with
  | ConstraintFailed =>
      includes (key_violation_message dr) "UNIQUE constraint failed"
      || includes (key_violation_message dr) "PRIMARY KEY constraint failed"
  | _ => false
  end.

(** The parameter [options] is not used by the code.  The delete by
    [eq(snippet_id, snippetId)] is the delete of the one identifier. *)
Definition storeVector (snippetId : Z) (embedding : list number)
    (p : EmbeddingProvider) : M unit :=
  init ;;;
  normalized <- lift (normalizeEmbedding embedding p) ;;
  let row := Build_VecRow snippetId (map fround normalized) in
  fun w =>
    match insert_vectors [row] w with
    | (Throw error, w') =>
        if is_key_violation (driver w') error then
          (delete_vectors [snippetId] ;;; insert_vectors [row]) w'
        else (Throw error, w')
    | ok => ok
    end.

Definition deleteVectorsByLibrary (libraryName : string) : M unit :=
  init ;;;
  snippets <- select_snippets libraryName None ;;
  let snippetIds := map id snippets in
  if 0 <? length snippetIds then delete_vectors snippetIds else ret tt.

Definition deleteVector (snippetId : Z) : M unit :=
  init ;;; delete_vectors [snippetId].

(** [result[0]?.count || 0]: the count, which is [0] for an empty table
    either way. *)
Definition getVectorCount : M Z :=
  init ;;; count_vectors.

End VectorStore.

(* ================================================================= *)
(** ** src/db/snippet-store-v2.ts *)

(** One element of the argument of [insertSnippets]: the metadata and the
    embedding of a snippet. *)
Record SnippetInput := { inputMeta : SnippetMeta; inputEmbedding : list number }.

Module SnippetStoreV2.

Definition init : M unit := VectorStore.init.

(** The body of the transaction: one INSERT per snippet, pushing the
    identifier it returns. *)
Definition insert_all (p : EmbeddingProvider) (snippets : list SnippetInput)
  : M (list Z) :=
  for_each (fun snippetData =>
              insert_snippet (inputMeta snippetData) p
                             (length (inputEmbedding snippetData)))
           snippets.

Definition vectorOperations (p : EmbeddingProvider)
    (snippets : list SnippetInput) (insertedIds : list Z) : list VectorInput :=
  map (fun '(snippetData, index) =>
         {| snippetId := nth index insertedIds 0%Z;
            rawEmbedding := inputEmbedding snippetData;
            inputProvider := p |})
      (combine snippets (seq 0 (length snippets))).

Definition insertSnippets (snippets : list SnippetInput) : M (list Z) :=
  init ;;;
  if length snippets =? 0 then ret []
  else
    p <- getCurrentProvider ;;
    insertedIds <- transaction deferred (insert_all p snippets) ;;
    log (Console LogBuildingIndex) ;;;
    VectorStore.storeVectors (vectorOperations p snippets insertedIds) ;;;
    log (Console (LogStored (length snippets) p)) ;;;
    ret insertedIds.

(** The [try] block holds the two deletes; whatever they throw is caught
    and reported with [console.warn].  The console lines of this function
    and of the ones below are not recorded. *)
Definition deleteLibrarySnippets (libraryName : string) : M unit :=
  init ;;;
  fun w =>
    match (VectorStore.deleteVectorsByLibrary libraryName ;;;
           delete_snippets libraryName) w with
    | (Throw _, w') => (Ok tt, w')
    | ok => ok
    end.

Definition getAllSnippets (libraryName : string) (limit : Z)
  : M (list SnippetRow) :=
  init ;;; select_snippets libraryName (Some limit).

(** An element of the result of the two searches: the row of [snippets]
    with its [similarity]. *)
Record ScoredSnippet := { scored : SnippetRow; similarity : number }.

(** The callback of [snippets.map] in both searches:
    [vectorResults.find(v => v.snippetId === s.id)], and
    [1 - vectorResult.distance] when there is one. *)
Definition with_similarity (vectorResults : list SearchHit) (s : SnippetRow)
  : ScoredSnippet :=
  let vectorResult :=
    find (fun v => (hitSnippetId v =? id s)%Z) vectorResults in
  {| scored := s;
     similarity := match vectorResult with
                   | Some v => (1 - distance v)%float
                   | None => 0%float
                   end |}.

Definition by_similarity (a b : ScoredSnippet) : number :=
  (similarity b - similarity a)%float.

Definition similaritySearch (libraryName : string)
    (queryEmbedding : list number) (p : EmbeddingProvider) (limit : Z)
  : M (list ScoredSnippet) :=
  init ;;;
  vectorResults <- VectorStore.similaritySearch queryEmbedding p (limit * 2)
                     (Some libraryName) ;;
  if length vectorResults =? 0 then ret []
  else
    let snippetIds := map hitSnippetId vectorResults in
    snippets <- select_snippets_in snippetIds limit ;;
    let results := map (with_similarity vectorResults) snippets in
    ret (array_sort by_similarity results).

Definition crossProviderSearch (libraryName : string)
    (queryEmbedding : list number) (p : EmbeddingProvider) (limit : Z)
  : M (list ScoredSnippet) :=
  init ;;;
  vectorResults <- VectorStore.similaritySearch queryEmbedding p (limit * 3)
                     (Some libraryName) ;;
  if length vectorResults =? 0 then ret []
  else
    let snippetIds := map hitSnippetId vectorResults in
    snippets <- select_snippets_in snippetIds limit ;;
    let results := map (with_similarity vectorResults) snippets in
    ret (array_sort by_similarity results).

(** The object [byProvider]: its keys in the order they were first
    written, each with its count. *)
Definition ProviderCounts := list (EmbeddingProvider * nat).

Fixpoint obj_get (acc : ProviderCounts) (k : EmbeddingProvider) : option nat :=
  match acc with
  | [] => None
  | (k', n) :: t => if provider_eqb k' k then Some n else obj_get t k
  end.

Fixpoint obj_set (acc : ProviderCounts) (k : EmbeddingProvider) (n : nat)
  : ProviderCounts :=
  match acc with
  | [] => [(k, n)]
  | (k', n') :: t =>
      if provider_eqb k' k then (k, n) :: t else (k', n') :: obj_set t k n
  end.

(** [acc[s.provider] = (acc[s.provider] || 0) + 1]. *)
Definition count_provider (acc : ProviderCounts) (s : SnippetRow)
  : ProviderCounts :=
  let old := match obj_get acc (provider s) with
             | Some n => n
             | None => 0
             end in
  obj_set acc (provider s) (old + 1).

(** A count or an array length as a [number]; it is below [2^32]. *)
Definition number_of_nat (n : nat) : number :=
  of_uint63 (Uint63.of_Z (Z.of_nat n)).

Record LibraryStats := {
  totalSnippets : nat;
  byProvider : ProviderCounts;
  avgEmbeddingDims : number;
  vectorCount : Z }.

Definition getLibraryStats (libraryName : string) : M LibraryStats :=
  init ;;;
  snippets <- select_snippets libraryName None ;;
  let byProvider := fold_left count_provider snippets [] in
  let avgEmbeddingDims :=
    if 0 <? length snippets then
      (fold_left (fun sum s => sum + number_of_nat (embedding_dims s))
                 snippets 0 / number_of_nat (length snippets))%float
    else 0%float in
  vectorCount <- VectorStore.getVectorCount ;;
  ret {| totalSnippets := length snippets; byProvider := byProvider;
         avgEmbeddingDims := avgEmbeddingDims; vectorCount := vectorCount |}.

End SnippetStoreV2.

(* ================================================================= *)
(** ** src/handlers *)

(** [s.split(sep)] for a separator of one code unit. *)
Fixpoint split (sep : N) (s : JsString) : list JsString :=
  match s with
  | [] => [[]]
  | c :: t =>
      if N.eqb c sep then [] :: split sep t
      else match split sep t with
           | part :: parts => (c :: part) :: parts
           | [] => [[c]]
           end
  end.

(** The code unit of the solidus. *)
Definition solidus : N := 0x2F%N.

(** src/handlers/add-v2.ts *)
Module AddV2.

Record LibraryName := { owner : JsString; repo : JsString }.

(** [None] stands for the one error the function throws, "Library name
    must be in format owner/repo". *)
Definition fromName (lib : JsString) : option LibraryName :=
  let parts := split solidus lib in
  if negb (length parts =? 2) then None
  else Some {| owner := trim (nth 0 parts []); repo := trim (nth 1 parts []) |}.

(** [`${owner}/${repo}`]. *)
Definition libraryId (n : LibraryName) : JsString :=
  owner n ++ solidus :: repo n.

End AddV2.

(** src/handlers/rm.ts *)
Module Rm.

Definition rm (name : string) : M Z := delete_library name.

End Rm.

(* ================================================================= *)
(** ** Vocabulary of the statements *)

(** Order on search hits: [a] is not farther than [b]. *)
Definition le_distance (a b : SearchHit) : Prop :=
  (distance a <=? distance b)%float = true.

(** The sign of a finite or infinite binary float. *)
Definition same_sign (s : bool) (x : spec_float) : Prop :=
  match x with
  | S754_finite s' _ _ => s' = s
  | S754_infinity s' => s' = s
  | _ => False
  end.

(** The integer [±m·2^(e-ez)]: the value of a finite float in units of
    [2^ez]. *)
Definition scaled (s : bool) (m : positive) (e ez : Z) : Z :=
  cond_Zopp s (Zpos (fst (shl_align m e ez))).

Definition is_vector_write (e : Event) : bool :=
  match e with
  | DeleteVectors _ | InsertVectors _ => true
  | _ => false
  end.

Definition is_metadata_event (e : Event) : bool :=
  match e with
  | TxBegin _ | TxCommit | TxRollback | InsertSnippet _ => true
  | _ => false
  end.

(** The sub-batches that a trace inserted into the vector table. *)
Fixpoint inserted_batches (t : list Event) : list (list VecRow) :=
  match t with
  | [] => []
  | InsertVectors rows :: t' => rows :: inserted_batches t'
  | _ :: t' => inserted_batches t'
  end.

(** Every sub-batch but the last has exactly [size] rows. *)
Fixpoint all_but_last_full (size : nat) (batches : list (list VecRow)) : Prop :=
  match batches with
  | [] => True
  | b :: rest =>
      match rest with [] => True | _ :: _ => length b = size end /\
      all_but_last_full size rest
  end.

(** What a statement leaves untouched. *)
Definition same_outside_vectors (w w' : World) : Prop :=
  snippets (db w') = snippets (db w) /\
  snippets_seq (db w') = snippets_seq (db w) /\
  libraries (db w') = libraries (db w) /\
  foreign_keys (db w') = foreign_keys (db w) /\
  env w' = env w /\ vecInitialized w' = vecInitialized w.

(** A search hit whose distance is a number. *)
Definition not_nan (h : SearchHit) : Prop := is_nan (distance h) = false.

(** A binary float that is [NaN], or positive and, when finite, of
    magnitude at least [2^-537]: what a non-zero [Math.sqrt] returns. *)
Definition big (x : spec_float) : Prop :=
  match x with
  | S754_zero _ => False
  | S754_infinity s => s = false
  | S754_nan => True
  | S754_finite s m e =>
      s = false /\ (-1074 <= e /\ 2 ^ 537 <= Zpos m * 2 ^ (e + 1074))%Z
  end.

(** The world that [VectorStore.init] leaves behind. *)
Definition after_init (w : World) : World := snd (VectorStore.init w).

(* ================================================================= *)
(** ** Vocabulary of the further statements *)

(** What one bit keeps of a number: [1] when it is greater than zero,
    [-1] otherwise. *)
Definition sign_of (x : number) : number :=
  if (0 <? x)%float then 1%float else (-1)%float.

Definition is_byte (b : Z) : Prop := (0 <= b < 256)%Z.

(** The entry that [dequantizeFromBinary] writes at index [i]. *)
Definition unpacked (binary : Uint8Array) (i : nat) : number :=
  if Z.testbit (uint8_get binary (i / 8)) (Z.of_nat (i mod 8))
  then 1%float else (-1)%float.

(** The event of a call to the embedding endpoint of a provider. *)
Definition external_call (p : EmbeddingProvider) (model : string)
    (input : JsString) : Event :=
  match p with
  | openai => OpenAICall model input
  | gemini => GeminiCall model input
  end.

(** What [embed] has in hand once it has checked its input: the vector of
    the current provider. *)
Definition provider_embed (p : EmbeddingProvider) (input : JsString)
  : M (list number) :=
  match p with
  | gemini => geminiEmbed input
  | openai => openaiEmbed input
  end.

(** The vector table of a world. *)
Definition vector_table (w : World) : list VecRow := snippets_vec_fallback (db w).

(** Two databases with the same metadata tables. *)
Definition same_metadata (d d' : Database) : Prop :=
  snippets d' = snippets d /\ snippets_seq d' = snippets_seq d /\
  libraries d' = libraries d /\ foreign_keys d' = foreign_keys d.

(** The one-element batch that stands for the arguments of [storeVector]. *)
Definition single (snippetId : Z) (e : list number) (p : EmbeddingProvider)
  : list VectorInput :=
  [ {| snippetId := snippetId; rawEmbedding := e; inputProvider := p |} ].

(** The identifiers of the snippets of a library, in table order. *)
Definition library_ids (libraryName : string) (d : Database) : list Z :=
  map id (filter (in_library libraryName) (snippets d)).

(** The hits that [VectorStore.similaritySearch] returns for the
    candidates of a library: the candidates by distance, cut at [n]. *)
Definition nearest (normalized : list number) (libraryName : string)
    (d : Database) (n : Z) : list SearchHit :=
  slice (array_sort VectorStore.by_distance
           (map (VectorStore.to_hit normalized)
                (selected_rows (Some libraryName) d)))
        0 n.

(** The rows of [snippets] whose identifier is among the hits. *)
Definition matching_snippets (hits : list SearchHit) (d : Database)
  : list SnippetRow :=
  filter (fun s => mem_Z (id s) (map hitSnippetId hits)) (snippets d).

(** What both searches of the snippet store make of the hits. *)
Definition ranked (d : Database) (hits : list SearchHit) (limit : Z)
  : list SnippetStoreV2.ScoredSnippet :=
  if length hits =? 0 then []
  else array_sort SnippetStoreV2.by_similarity
         (map (SnippetStoreV2.with_similarity hits)
              (sql_limit limit (matching_snippets hits d))).

(** Order on scored snippets: [a] is at least as similar as [b]. *)
Definition ge_similarity (a b : SnippetStoreV2.ScoredSnippet) : Prop :=
  (SnippetStoreV2.similarity b <=? SnippetStoreV2.similarity a)%float = true.

(** A scored snippet whose similarity is a number. *)
Definition scored_number (r : SnippetStoreV2.ScoredSnippet) : Prop :=
  is_nan (SnippetStoreV2.similarity r) = false.

(** The rows of [snippets] that belong to a library. *)
Definition snippets_of (libraryName : string) (d : Database) : list SnippetRow :=
  filter (in_library libraryName) (snippets d).

(** The row of [snippets] that [insertSnippets] writes for a record. *)
Definition row_of (p : EmbeddingProvider) (s : SnippetInput) (row : SnippetRow)
  : Prop :=
  meta row = inputMeta s /\ provider row = p /\
  embedding_dims row = length (inputEmbedding s).

(** How many of the rows come from a provider. *)
Definition count_of (p : EmbeddingProvider) (rows : list SnippetRow) : nat :=
  length (filter (fun s => provider_eqb (provider s) p) rows).

(** The number of solidi in a string. *)
Definition solidi (s : JsString) : nat := count_occ N.eq_dec s solidus.

(** A string that [trim] leaves as it is. *)
Definition trimmed (s : JsString) : Prop := trim s = s.

(** The dot product of two vectors of one length, summed from the left. *)
Definition dot (a b : list number) : number :=
  fold_left (fun acc p => (acc + fst p * snd p)%float) (combine a b) 0%float.

(** The product of the magnitudes, and the cosine, of the overlapping
    prefixes of a query and a stored vector: both are cut to the shorter
    length, and the cosine is [0] unless the product of the magnitudes is
    positive. *)
Definition overlap_magnitude (queryVector e : list number) : number :=
  let n := Nat.min (length queryVector) (length e) in
  let q' := firstn n queryVector in
  let e' := firstn n e in
  (sqrt (dot q' q') * sqrt (dot e' e'))%float.

Definition overlap_similarity (queryVector e : list number) : number :=
  let n := Nat.min (length queryVector) (length e) in
  let magnitude := overlap_magnitude queryVector e in
  if (0 <? magnitude)%float then
    (dot (firstn n queryVector) (firstn n e) / magnitude)%float
  else 0%float.

(** The hit that a candidate row yields. *)
Definition overlap_hit (queryVector : list number) (row : VecRow) : SearchHit :=
  {| hitSnippetId := snippet_id row;
     distance := (1 - overlap_similarity queryVector (embedding row))%float |}.

(** The row that [storeVectors] is to persist for a record: the record's
    identifier, and its vector at the stored width (as it is, or padded
    with zeros on the right), each entry rounded to binary32. *)
Definition persisted_as (v : VectorInput) (r : VecRow) : Prop :=
  snippet_id r = snippetId v /\
  exists normalized,
    VectorStore.normalizeEmbedding (rawEmbedding v) (inputProvider v)
      = Ok normalized /\
    (normalized = rawEmbedding v \/
     normalized = rawEmbedding v ++ repeat 0%float 2304) /\
    length (embedding r) = length normalized /\
    embedding r = map fround normalized.

(* ================================================================= *)
(** ** Concrete inputs *)

Definition empty_db : Database :=
  {| libraries := []; foreign_keys := false; snippets := [];
     snippets_seq := 0; snippets_vec_fallback := [] |}.

Definition no_env : Env :=
  {| AI_PROVIDER := None; GEMINI_API_KEY := None;
     OPENAI_EMBEDDING_MODEL := None; GEMINI_EMBEDDING_MODEL := None |}.

Definition offline : Services :=
  {| openai_embeddings_create := fun _ _ => Throw (ExternalFailure 0);
     gemini_embedContent := fun _ _ => Throw (ExternalFailure 0) |}.

(** A driver that begins every transaction in immediate mode, whatever
    behaviour it is asked for, and that reports a violated key with the
    text of the engine. *)
Definition libsql_driver : Driver :=
  {| begin_mode := fun _ => immediate;
     key_violation_message :=
       "SQLITE_CONSTRAINT: SQLite error: UNIQUE constraint failed: snippets_vec_fallback.snippet_id" |}.

(** A driver that differs in wrapping the error of the engine: its message
    quotes the statement that failed, not the constraint. *)
Definition wrapping_driver : Driver :=
  {| begin_mode := begin_mode libsql_driver;
     key_violation_message :=
       "Failed query: insert into snippets_vec_fallback (snippet_id, embedding) values (?, ?)" |}.

(** A driver that begins a transaction in the mode it is asked for. *)
Definition obliging_driver : Driver :=
  {| begin_mode := fun behavior => behavior;
     key_violation_message := key_violation_message libsql_driver |}.

Definition world_on (dr : Driver) (e : Env) (d : Database) : World :=
  {| db := d; env := e; services := offline; driver := dr;
     vecInitialized := false; useFallback := false; geminiClient := false;
     trace := [] |}.

Definition world_of (e : Env) (d : Database) : World :=
  world_on libsql_driver e d.

(** A query with one huge entry, and two stored vectors. *)
Definition query_huge : list number := 0x1p1000%float :: repeat 0%float 767.
Definition db_two : Database :=
  with_vectors
    [ {| snippet_id := 1; embedding := 0x1p30%float :: repeat 0%float 3071 |};
      {| snippet_id := 2; embedding := 0x1p31%float :: repeat 0%float 3071 |} ]
    empty_db.

(** A unit query and three stored vectors. *)
Definition query_unit : list number := 1%float :: repeat 0%float 767.
Definition db_three : Database :=
  with_vectors
    [ {| snippet_id := 1; embedding := 1%float :: repeat 0%float 3071 |};
      {| snippet_id := 2; embedding := 0%float :: 1%float :: repeat 0%float 3070 |};
      {| snippet_id := 3; embedding := (-1)%float :: repeat 0%float 3071 |} ]
    empty_db.

(** 120 records with distinct identifiers. *)
Definition vectors_120 : list VectorInput :=
  map (fun k => {| snippetId := Z.of_nat k;
                   rawEmbedding := repeat 1%float 1536;
                   inputProvider := openai |})
      (seq 1 120).

(** A batch of three records whose second record has a width that no
    provider produces. *)
Definition bad_record : VectorInput :=
  {| snippetId := 2; rawEmbedding := [1%float; 2%float; 3%float];
     inputProvider := gemini |}.

Definition batch_with_bad : list VectorInput :=
  [ {| snippetId := 1; rawEmbedding := repeat 1%float 768; inputProvider := gemini |};
    bad_record;
    {| snippetId := 3; rawEmbedding := repeat 1%float 768; inputProvider := gemini |} ].

(** A table that already holds a vector for snippet 1. *)
Definition db_old_vector : Database :=
  with_vectors [ {| snippet_id := 1; embedding := repeat 0%float 3072 |} ] empty_db.

(** Two records to insert. *)
Definition example_meta (t : string) : SnippetMeta :=
  {| library := "acme/docs"; path := "README.md"; title := t;
     description := "usage"; language := Some "ts"%string; code := "run()" |}.

Definition records_two : list SnippetInput :=
  [ {| inputMeta := example_meta "first"; inputEmbedding := repeat 1%float 1536 |};
    {| inputMeta := example_meta "second"; inputEmbedding := repeat 2%float 1536 |} ].

(** Space, tab, line feed, ideographic space. *)
Definition blank_input : JsString := [0x20; 0x09; 0x0A; 0x3000]%N.

(* ----------------------------------------------------------------- *)
(** *** Further inputs *)

(** Endpoints that answer every request with the vector [v]. *)
Definition canned (v : list number) : Services :=
  {| openai_embeddings_create := fun _ _ => Ok v;
     gemini_embedContent := fun _ _ =>
       Ok {| embedding_values := Some v; embeddings0_values := None |} |}.

Definition world_with (s : Services) (e : Env) (d : Database) : World :=
  {| db := d; env := e; services := s; driver := libsql_driver;
     vecInitialized := false; useFallback := false; geminiClient := false;
     trace := [] |}.

(** The text "hi". *)
Definition hello : JsString := [0x68; 0x69]%N.

(** Two records of the OpenAI width, and a query of that width. *)
Definition vectors_two : list VectorInput :=
  [ {| snippetId := 7; rawEmbedding := repeat 1%float 1536; inputProvider := openai |};
    {| snippetId := 9; rawEmbedding := repeat 2%float 1536; inputProvider := openai |} ].

Definition query_ones : list number := repeat 1%float 1536.

(** A library with two snippets; the vector of the second one is the
    nearer to [query_unit]. *)
Definition db_near_far : Database :=
  {| libraries := ["acme/docs"%string]; foreign_keys := true;
     snippets :=
       [ {| id := 1; meta := example_meta "far"; provider := gemini;
            embedding_dims := 3072 |};
         {| id := 2; meta := example_meta "near"; provider := gemini;
            embedding_dims := 3072 |} ];
     snippets_seq := 2;
     snippets_vec_fallback :=
       [ {| snippet_id := 1; embedding := (-1)%float :: repeat 0%float 3071 |};
         {| snippet_id := 2; embedding := 1%float :: repeat 0%float 3071 |} ] |}.

(** Fifty-one records of which the last repeats the identifier of the
    first. *)
Definition vectors_repeat : list VectorInput :=
  map (fun k => {| snippetId := Z.of_nat k;
                   rawEmbedding := repeat 1%float 1536;
                   inputProvider := openai |})
      (seq 1 50 ++ [1]).

(** Two records of which the second has an embedding of a width that no
    provider produces. *)
Definition record_bad : SnippetInput :=
  {| inputMeta := example_meta "second";
     inputEmbedding := [1%float; 2%float; 3%float] |}.

Definition records_bad : list SnippetInput :=
  [ {| inputMeta := example_meta "first"; inputEmbedding := repeat 1%float 1536 |};
    record_bad ].

(** A query of width 2 over stored vectors of widths 2, 2, 3 and 1. *)
Definition db_mixed_widths : Database :=
  with_vectors
    [ {| snippet_id := 4; embedding := [(-3)%float; (-4)%float] |};
      {| snippet_id := 2; embedding := [0%float; 0%float] |};
      {| snippet_id := 1; embedding := [3%float; 4%float; 100%float] |};
      {| snippet_id := 3; embedding := [4%float] |} ]
    empty_db.

(* ================================================================= *)
(** * Properties *)

Unset Implicit Arguments.

(* ----------------------------------------------------------------- *)
(** ** Arrays *)

Lemma array_set_middle (l1 l2 : list number) (x v : number) :
  array_set (l1 ++ x :: l2) (length l1) v = l1 ++ v :: l2.
Proof.
  induction l1 as [|h t IH]; simpl.
  - reflexivity.
  - now rewrite IH.
Qed.

Lemma firstn_snoc_nth (e : list number) (k : nat) :
  k < length e -> firstn (S k) e = firstn k e ++ [array_get e k].
Proof.
  revert k; induction e as [|h t IH]; intros k Hk; simpl in Hk.
  - lia.
  - destruct k as [|k]; [reflexivity|].
    change (firstn (S (S k)) (h :: t)) with (h :: firstn (S k) t).
    rewrite IH by lia. reflexivity.
Qed.

(** The copy loop over a zero-filled array writes the first [k] entries of
    the source and leaves the other entries at zero. *)
Lemma copy_prefix_zero_filled (e : list number) (n k : nat) :
  k <= length e -> k <= n ->
  copy_prefix e k (zero_filled n) = firstn k e ++ repeat 0%float (n - k).
Proof.
  unfold copy_prefix, zero_filled.
  induction k as [|k IH]; intros He Hn.
  - simpl. now rewrite Nat.sub_0_r.
  - rewrite seq_S, fold_left_app, IH by lia.
    replace (n - k) with (S (n - S k)) by lia.
    cbn [fold_left Nat.add repeat].
    assert (Hlen : length (firstn k e) = k) by (apply firstn_length_le; lia).
    pose proof (array_set_middle (firstn k e) (repeat 0%float (n - S k))
                  0%float (array_get e k)) as Hset.
    rewrite Hlen in Hset. rewrite Hset, (firstn_snoc_nth e) by lia.
    now rewrite <- app_assoc.
Qed.

Lemma copy_prefix_all (e : list number) (n : nat) :
  length e <= n ->
  copy_prefix e (length e) (zero_filled n) = e ++ repeat 0%float (n - length e).
Proof.
  intros H. rewrite copy_prefix_zero_filled by lia. now rewrite firstn_all.
Qed.

Lemma slice_0_nonneg {A} (a : list A) (n : Z) :
  (0 <= n)%Z -> slice a 0 n = firstn (Z.to_nat n) a.
Proof.
  intros Hn. unfold slice.
  replace (0 <? 0)%Z with false by reflexivity.
  destruct (n <? 0)%Z eqn:E; [apply Z.ltb_lt in E; lia|].
  rewrite (Z.min_l 0) by lia. simpl skipn. rewrite Z.sub_0_r.
  destruct (Z.le_ge_cases n (Z.of_nat (length a))) as [Hle|Hge].
  - now rewrite Z.min_l by lia.
  - rewrite Z.min_r, Nat2Z.id by lia.
    rewrite firstn_all. symmetry. apply firstn_all2. lia.
Qed.

Lemma slice_0_whole {A} (a : list A) (n : Z) :
  (Z.of_nat (length a) <= n)%Z -> slice a 0 n = a.
Proof.
  intros H. rewrite slice_0_nonneg by lia. apply firstn_all2. lia.
Qed.

(* ----------------------------------------------------------------- *)
(** ** First-use initialisation *)

Lemma init_eq (w : World) : VectorStore.init w = (Ok tt, after_init w).
Proof. unfold after_init, VectorStore.init. now destruct (vecInitialized w). Qed.

Lemma after_init_db (w : World) : db (after_init w) = db w.
Proof. unfold after_init, VectorStore.init. now destruct (vecInitialized w). Qed.

Lemma after_init_trace (w : World) :
  exists pre, trace (after_init w) = trace w ++ pre /\
              Forall (fun e => is_vector_write e = false /\
                               is_metadata_event e = false) pre.
Proof.
  unfold after_init, VectorStore.init. destruct (vecInitialized w); simpl.
  - exists []. rewrite app_nil_r. split; [reflexivity|constructor].
  - exists [Console WarnSqliteVecDisabled; Console WarnUsingFallbackTable].
    rewrite <- app_assoc. split; [reflexivity|]. repeat constructor.
Qed.

Lemma after_init_initialized (w : World) : vecInitialized (after_init w) = true.
Proof. unfold after_init, VectorStore.init. now destruct (vecInitialized w) eqn:E. Qed.

Lemma after_init_env (w : World) : env (after_init w) = env w.
Proof. unfold after_init, VectorStore.init. now destruct (vecInitialized w). Qed.

Lemma after_init_driver (w : World) : driver (after_init w) = driver w.
Proof. unfold after_init, VectorStore.init. now destruct (vecInitialized w). Qed.

Lemma after_init_idem (w : World) : vecInitialized w = true -> after_init w = w.
Proof. intros H. unfold after_init, VectorStore.init. now rewrite H. Qed.

(* ----------------------------------------------------------------- *)
(** ** Normalisation *)

Section Normalisation.

Variable v : list number.

Lemma normalizeGemini_3072 :
  length v = 3072 -> EmbeddingNormalizer.normalizeGemini v = Ok v.
Proof.
  intros H. unfold EmbeddingNormalizer.normalizeGemini. now rewrite H.
Qed.

Lemma normalizeGemini_768 :
  length v = 768 ->
  EmbeddingNormalizer.normalizeGemini v = Ok (v ++ repeat 0%float 2304).
Proof.
  intros H. unfold EmbeddingNormalizer.normalizeGemini. rewrite H.
  change (768 =? 3072) with false. change (768 =? 768) with true.
  cbv iota. rewrite <- H at 1. rewrite copy_prefix_all by (rewrite H; lia).
  rewrite H. reflexivity.
Qed.

Lemma normalizeOpenAI_3072 :
  length v = 3072 -> EmbeddingNormalizer.normalizeOpenAI v = Ok v.
Proof.
  intros H. unfold EmbeddingNormalizer.normalizeOpenAI. now rewrite H.
Qed.

Lemma normalizeOpenAI_1536 :
  length v = 1536 -> EmbeddingNormalizer.normalizeOpenAI v = Ok v.
Proof.
  intros H. unfold EmbeddingNormalizer.normalizeOpenAI. rewrite H.
  change (1536 =? 3072) with false. change (1536 =? 1536) with true.
  cbv iota. rewrite slice_0_whole; [reflexivity|]. rewrite H. lia.
Qed.

Lemma normalizeEmbedding_gemini_3072 :
  length v = 3072 -> VectorStore.normalizeEmbedding v gemini = Ok v.
Proof.
  intros H. unfold VectorStore.normalizeEmbedding. now rewrite H.
Qed.

Lemma normalizeEmbedding_gemini_768 :
  length v = 768 ->
  VectorStore.normalizeEmbedding v gemini = Ok (v ++ repeat 0%float 2304).
Proof.
  intros H. unfold VectorStore.normalizeEmbedding. rewrite H.
  change (768 =? 3072) with false. change (768 =? 768) with true.
  cbn [provider_eqb andb]. rewrite <- H at 1.
  rewrite copy_prefix_all by (rewrite H; lia).
  rewrite H. reflexivity.
Qed.

Lemma normalizeEmbedding_openai_1536 :
  length v = 1536 -> VectorStore.normalizeEmbedding v openai = Ok v.
Proof.
  intros H. unfold VectorStore.normalizeEmbedding. rewrite H.
  change (1536 =? 1536) with true. cbn [provider_eqb andb].
  rewrite slice_0_whole; [reflexivity|]. rewrite H. lia.
Qed.

Lemma normalizeEmbedding_openai_other :
  length v <> 1536 ->
  VectorStore.normalizeEmbedding v openai =
  Throw (UnsupportedEmbedding openai (length v)).
Proof.
  intros H. unfold VectorStore.normalizeEmbedding. cbn [provider_eqb andb].
  apply Nat.eqb_neq in H. now rewrite H.
Qed.

End Normalisation.

(** Whatever [normalizeEmbedding] accepts, it returns with the width it
    came with, unless it is the 768-wide Gemini vector. *)
Lemma normalizeEmbedding_length (v out : list number) (p : EmbeddingProvider) :
  VectorStore.normalizeEmbedding v p = Ok out ->
  (p = gemini /\ length out = 3072) \/ (p = openai /\ length out = 1536).
Proof.
  intros H. destruct p.
  - destruct (Nat.eq_dec (length v) 1536) as [E|E].
    + rewrite normalizeEmbedding_openai_1536 in H by exact E.
      inversion H; subst. now right.
    + rewrite normalizeEmbedding_openai_other in H by exact E. discriminate.
  - left. split; [reflexivity|].
    destruct (Nat.eq_dec (length v) 3072) as [E1|E1].
    + rewrite normalizeEmbedding_gemini_3072 in H by exact E1.
      now injection H as <-.
    + destruct (Nat.eq_dec (length v) 768) as [E2|E2].
      * rewrite normalizeEmbedding_gemini_768 in H by exact E2.
        replace out with (v ++ repeat 0%float 2304) by congruence.
        rewrite length_app, repeat_length. lia.
      * unfold VectorStore.normalizeEmbedding in H.
        cbn [provider_eqb andb] in H.
        apply Nat.eqb_neq in E1, E2. rewrite E1, E2 in H. discriminate.
Qed.

Lemma normalize_cases (v out : list number) (p : EmbeddingProvider) :
  EmbeddingNormalizer.normalize v p = Ok out ->
  (length v = 3072 /\ out = v) \/
  (p = gemini /\ length v = 768 /\ out = v ++ repeat 0%float 2304) \/
  (p = openai /\ length v = 1536 /\ out = v).
Proof.
  intros H. destruct p; cbn [EmbeddingNormalizer.normalize] in H.
  - destruct (Nat.eq_dec (length v) 3072) as [E1|E1].
    + rewrite normalizeOpenAI_3072 in H by exact E1. left. split; congruence.
    + destruct (Nat.eq_dec (length v) 1536) as [E2|E2].
      * rewrite normalizeOpenAI_1536 in H by exact E2. right. right.
        repeat split; congruence.
      * unfold EmbeddingNormalizer.normalizeOpenAI in H.
        apply Nat.eqb_neq in E1, E2. rewrite E1, E2 in H. discriminate.
  - destruct (Nat.eq_dec (length v) 3072) as [E1|E1].
    + rewrite normalizeGemini_3072 in H by exact E1. left. split; congruence.
    + destruct (Nat.eq_dec (length v) 768) as [E2|E2].
      * rewrite normalizeGemini_768 in H by exact E2. right. left.
        repeat split; congruence.
      * unfold EmbeddingNormalizer.normalizeGemini in H.
        apply Nat.eqb_neq in E1, E2. rewrite E1, E2 in H. discriminate.
Qed.

Lemma normalizeEmbedding_cases (v out : list number) (p : EmbeddingProvider) :
  VectorStore.normalizeEmbedding v p = Ok out ->
  (p = gemini /\ length v = 3072 /\ out = v) \/
  (p = gemini /\ length v = 768 /\ out = v ++ repeat 0%float 2304) \/
  (p = openai /\ length v = 1536 /\ out = v).
Proof.
  intros H. destruct p.
  - destruct (Nat.eq_dec (length v) 1536) as [E|E].
    + rewrite normalizeEmbedding_openai_1536 in H by exact E.
      right. right. repeat split; congruence.
    + rewrite normalizeEmbedding_openai_other in H by exact E. discriminate.
  - destruct (Nat.eq_dec (length v) 3072) as [E1|E1].
    + rewrite normalizeEmbedding_gemini_3072 in H by exact E1.
      left. repeat split; congruence.
    + destruct (Nat.eq_dec (length v) 768) as [E2|E2].
      * rewrite normalizeEmbedding_gemini_768 in H by exact E2.
        right. left. repeat split; congruence.
      * unfold VectorStore.normalizeEmbedding in H.
        cbn [provider_eqb andb] in H.
        apply Nat.eqb_neq in E1, E2. rewrite E1, E2 in H. discriminate.
Qed.

Lemma padded_length (v : list number) :
  length v = 768 -> length (v ++ repeat 0%float 2304) = 3072.
Proof. intros H. now rewrite length_app, repeat_length, H. Qed.

(* ----------------------------------------------------------------- *)
(** ** Normalisation: the width of the result *)

(** C1: on the supported provider/width pairs [normalize] is meant to
    return 3072 entries.  An OpenAI vector of 1536 entries is returned as it
    is, with 1536 entries, by [EmbeddingNormalizer.normalize] and by
    [VectorStore.normalizeEmbedding]: [slice(0, 3072)] of a shorter array
    is the array itself. *)
Theorem normalize_openai_1536_keeps_width (v : list number) :
  length v = 1536 ->
  EmbeddingNormalizer.normalize v openai = Ok v /\
  VectorStore.normalizeEmbedding v openai = Ok v /\
  length v <> 3072.
Proof.
  intros H. split; [|split].
  - now apply normalizeOpenAI_1536.
  - now apply normalizeEmbedding_openai_1536.
  - rewrite H. discriminate.
Qed.

Lemma normalize_openai_1536_keeps_width_witness :
  length (repeat 1%float 1536) = 1536 /\
  EmbeddingNormalizer.normalize (repeat 1%float 1536) openai
    = Ok (repeat 1%float 1536) /\
  VectorStore.normalizeEmbedding (repeat 1%float 1536) openai
    = Ok (repeat 1%float 1536) /\
  length (repeat 1%float 1536) <> 3072.
Proof.
  split; [reflexivity|].
  apply (normalize_openai_1536_keeps_width (repeat 1%float 1536)).
  reflexivity.
Defined.

(** The other supported pairs do come out 3072 wide under
    [EmbeddingNormalizer.normalize]. *)
Lemma normalize_length_3072 (v out : list number) (p : EmbeddingProvider) :
  (p = gemini /\ (length v = 768 \/ length v = 3072)) \/
  (p = openai /\ length v = 3072) ->
  EmbeddingNormalizer.normalize v p = Ok out -> length out = 3072.
Proof.
  intros [[-> [H|H]]|[-> H]] E; cbn [EmbeddingNormalizer.normalize] in E.
  - rewrite normalizeGemini_768 in E by exact H.
    replace out with (v ++ repeat 0%float 2304) by congruence.
    rewrite length_app, repeat_length. lia.
  - rewrite normalizeGemini_3072 in E by exact H. congruence.
  - rewrite normalizeOpenAI_3072 in E by exact H. congruence.
Qed.

(** C3: a vector that already has 3072 entries is returned unchanged by
    [EmbeddingNormalizer.normalize] for both providers and by
    [VectorStore.normalizeEmbedding] for gemini; for openai,
    [VectorStore.normalizeEmbedding] has no branch for width 3072 and
    throws. *)
Theorem normalizeEmbedding_openai_3072_rejected (v : list number) :
  length v = 3072 ->
  (forall p, EmbeddingNormalizer.normalize v p = Ok v) /\
  VectorStore.normalizeEmbedding v gemini = Ok v /\
  VectorStore.normalizeEmbedding v openai =
  Throw (UnsupportedEmbedding openai 3072).
Proof.
  intros H. split; [|split].
  - intros []; cbn [EmbeddingNormalizer.normalize].
    + now apply normalizeOpenAI_3072.
    + now apply normalizeGemini_3072.
  - now apply normalizeEmbedding_gemini_3072.
  - rewrite normalizeEmbedding_openai_other by (rewrite H; discriminate).
    now rewrite H.
Qed.

Lemma normalizeEmbedding_openai_3072_rejected_witness :
  length (repeat 1%float 3072) = 3072 /\
  (forall p, EmbeddingNormalizer.normalize (repeat 1%float 3072) p
             = Ok (repeat 1%float 3072)) /\
  VectorStore.normalizeEmbedding (repeat 1%float 3072) gemini
    = Ok (repeat 1%float 3072) /\
  VectorStore.normalizeEmbedding (repeat 1%float 3072) openai =
  Throw (UnsupportedEmbedding openai 3072).
Proof.
  split; [reflexivity|].
  apply (normalizeEmbedding_openai_3072_rejected (repeat 1%float 3072)).
  reflexivity.
Defined.

(** C7: normalising a 768-entry vector with provider gemini yields 3072
    entries: the input, in order, followed by 2304 entries equal to [0.0].
    Both implementations agree. *)
Theorem gemini_768_zero_padded (v : list number) :
  length v = 768 ->
  exists out,
    EmbeddingNormalizer.normalize v gemini = Ok out /\
    VectorStore.normalizeEmbedding v gemini = Ok out /\
    length out = 3072 /\
    firstn 768 out = v /\
    skipn 768 out = repeat 0%float 2304.
Proof.
  intros H. exists (v ++ repeat 0%float 2304). split; [|split; [|split; [|split]]].
  - now apply normalizeGemini_768.
  - now apply normalizeEmbedding_gemini_768.
  - rewrite length_app, repeat_length. lia.
  - rewrite <- H. rewrite firstn_app, firstn_all, Nat.sub_diag.
    now rewrite firstn_O, app_nil_r.
  - rewrite <- H. rewrite skipn_app, skipn_all, Nat.sub_diag.
    reflexivity.
Qed.

Lemma gemini_768_zero_padded_witness :
  length (repeat 1%float 768) = 768 /\
  exists out,
    EmbeddingNormalizer.normalize (repeat 1%float 768) gemini = Ok out /\
    VectorStore.normalizeEmbedding (repeat 1%float 768) gemini = Ok out /\
    length out = 3072 /\
    firstn 768 out = repeat 1%float 768 /\
    skipn 768 out = repeat 0%float 2304.
Proof.
  split; [reflexivity|].
  apply (gemini_768_zero_padded (repeat 1%float 768)). reflexivity.
Defined.

(* ----------------------------------------------------------------- *)
(** ** Numbers: facts about binary64 arithmetic *)

Section Binary64.

Lemma Prim2SF_zero : Prim2SF 0%float = S754_zero false.
Proof. reflexivity. Qed.

Lemma Prim2SF_nan_inv (x : float) : Prim2SF x = S754_nan -> is_nan x = true.
Proof.
  unfold Prim2SF. destruct (is_nan x); [reflexivity|].
  destruct (is_zero x); [discriminate|].
  destruct (is_infinity x); [discriminate|].
  destruct (Z.frexp x) as [r ex].
  destruct (shr_fexp _ _ _ _ _) as [s e'].
  destruct (shr_m s); discriminate.
Qed.

Lemma SFcompare_antisym (x y : spec_float) :
  SFcompare y x = option_map CompOpp (SFcompare x y).
Proof.
  destruct x as [sx|sx| |sx mx ex], y as [sy|sy| |sy my ey]; simpl;
    try reflexivity;
    try (destruct sx; reflexivity); try (destruct sy; reflexivity);
    try (destruct sx, sy; reflexivity).
  f_equal. destruct sx, sy; try reflexivity;
    rewrite (Z.compare_antisym ex ey);
    destruct (ex ?= ey)%Z; simpl; try reflexivity;
    rewrite (Pos.compare_cont_antisym mx my Eq); reflexivity.
Qed.

Local Open Scope Z_scope.

Lemma fexp_eq (x : Z) : fexp prec emax x = Z.max (x - 53) (-1074).
Proof. reflexivity. Qed.

Lemma digits2_pos_size (p : positive) : digits2_pos p = Pos.size p.
Proof. induction p; simpl; congruence. Qed.

Lemma digits2_bounds (p : positive) :
  2 ^ (Zpos (digits2_pos p) - 1) <= Zpos p < 2 ^ Zpos (digits2_pos p).
Proof.
  rewrite digits2_pos_size. split.
  - pose proof (Pos.size_le p) as H.
    apply Pos2Z.pos_le_pos in H. rewrite Pos2Z.inj_pow in H.
    replace (Zpos (Pos.size p)) with (Z.succ (Zpos (Pos.size p) - 1)) in H by lia.
    rewrite Z.pow_succ_r in H by lia.
    change (Zpos p~0) with (2 * Zpos p) in H. lia.
  - pose proof (Pos.size_gt p) as H.
    apply Pos2Z.pos_lt_pos in H. now rewrite Pos2Z.inj_pow in H.
Qed.

Lemma shr_1_m (mrs : shr_record) :
  0 <= shr_m mrs -> shr_m (shr_1 mrs) = shr_m mrs / 2.
Proof.
  destruct mrs as [m r s]. simpl. intros Hm.
  rewrite <- Z.div2_div.
  destruct m as [|p|p]; [reflexivity| |lia].
  destruct p; reflexivity.
Qed.

Lemma iter_pos_shr_m (p : positive) : forall mrs,
  0 <= shr_m mrs ->
  shr_m (iter_pos shr_1 p mrs) = shr_m mrs / 2 ^ Zpos p.
Proof.
  induction p as [p IH|p IH|]; intros mrs Hm; simpl iter_pos.
  - assert (H1 : 0 <= shr_m (shr_1 mrs)).
    { rewrite shr_1_m by exact Hm. apply Z.div_pos; lia. }
    assert (H2 : 0 <= shr_m (iter_pos shr_1 p (shr_1 mrs))).
    { rewrite IH by exact H1. apply Z.div_pos; [exact H1|]. apply Z.pow_pos_nonneg; lia. }
    rewrite IH, IH, shr_1_m by assumption.
    rewrite (Pos2Z.inj_xI p).
    rewrite !Z.div_div by (try apply Z.pow_pos_nonneg; lia).
    f_equal.
    replace (2 * Zpos p + 1) with (1 + Zpos p + Zpos p) by lia.
    rewrite !Z.pow_add_r by lia. change (2 ^ 1) with 2. lia.
  - assert (H2 : 0 <= shr_m (iter_pos shr_1 p mrs)).
    { rewrite IH by exact Hm. apply Z.div_pos; [exact Hm|]. apply Z.pow_pos_nonneg; lia. }
    rewrite IH, IH by assumption.
    rewrite (Pos2Z.inj_xO p).
    rewrite !Z.div_div by (try apply Z.pow_pos_nonneg; lia).
    f_equal.
    replace (2 * Zpos p) with (Zpos p + Zpos p) by lia.
    now rewrite !Z.pow_add_r by lia.
  - rewrite shr_1_m by exact Hm. reflexivity.
Qed.

Lemma shr_record_of_loc_m (m : Z) (l : location) :
  shr_m (shr_record_of_loc m l) = m.
Proof. destruct l as [|[]]; reflexivity. Qed.

(** Rounding a positive mantissa whose exponent is not below [emin] never
    loses all of its bits. *)
Lemma shr_fexp_pos (m e : Z) (l : location) :
  0 < m -> -1074 <= e ->
  0 < shr_m (fst (shr_fexp prec emax m e l)) /\
  -1074 <= snd (shr_fexp prec emax m e l).
Proof.
  intros Hm He. unfold shr_fexp, shr. rewrite fexp_eq.
  destruct m as [|p|p]; try lia. cbn [Zdigits2].
  pose proof (digits2_bounds p) as [Hlo Hhi].
  set (d := Zpos (digits2_pos p)) in *.
  destruct (Z.max (d + e - 53) (-1074) - e) as [|n|n] eqn:En; cbn [fst snd];
    rewrite ?shr_record_of_loc_m; try (split; lia).
  rewrite iter_pos_shr_m by (rewrite shr_record_of_loc_m; lia).
  rewrite shr_record_of_loc_m. split; [|lia].
  assert (Hn : Zpos n <= d - 1) by lia.
  assert (2 ^ Zpos n <= 2 ^ (d - 1)) by (apply Z.pow_le_mono_r; lia).
  apply Z.div_str_pos. split; [apply Z.pow_pos_nonneg; lia|lia].
Qed.

Lemma round_nearest_even_ge (m : Z) (l : location) :
  m <= round_nearest_even m l.
Proof.
  destruct l as [|[]]; simpl; try lia. destruct (Z.even m); lia.
Qed.

Lemma binary_round_aux_sign (s : bool) (m e : Z) (l : location) :
  0 < m -> -1074 <= e -> same_sign s (binary_round_aux prec emax s m e l).
Proof.
  intros Hm He. unfold binary_round_aux.
  destruct (@shr_fexp_pos m e l Hm He) as [H1 H2].
  destruct (shr_fexp prec emax m e l) as [mrs' e'] eqn:E1. cbn [fst snd] in H1, H2.
  pose proof (round_nearest_even_ge (shr_m mrs') (loc_of_shr_record mrs')) as Hr.
  assert (Hm2 : 0 < round_nearest_even (shr_m mrs') (loc_of_shr_record mrs')) by lia.
  destruct (@shr_fexp_pos _ e' loc_Exact Hm2 H2) as [H3 H4].
  destruct (shr_fexp prec emax _ e' loc_Exact) as [mrs'' e''] eqn:E2.
  cbn [fst snd] in H3, H4.
  destruct (shr_m mrs'') as [|q|q]; try lia.
  destruct (e'' <=? emax - prec); reflexivity.
Qed.

Lemma iter_xO (d m : positive) : Zpos (Pos.iter xO m d) = Zpos m * 2 ^ Zpos d.
Proof.
  induction d as [|d IH] using Pos.peano_ind.
  - simpl. lia.
  - rewrite Pos.iter_succ, Pos2Z.inj_succ, Z.pow_succ_r by lia.
    change (Zpos (Pos.iter xO m d)~0) with (2 * Zpos (Pos.iter xO m d)). lia.
Qed.

Lemma shl_align_le (m : positive) (e e' : Z) :
  e' <= e ->
  Zpos (fst (shl_align m e e')) = Zpos m * 2 ^ (e - e') /\
  snd (shl_align m e e') = e'.
Proof.
  intros H. unfold shl_align.
  destruct (e' - e) as [|d|d] eqn:E; cbn [fst snd]; try lia.
  - replace (e - e') with 0 by lia. simpl. lia.
  - rewrite iter_xO. replace (e - e') with (Zpos d) by lia. lia.
Qed.

Lemma binary_round_sign (s : bool) (m : positive) (e : Z) :
  -1074 <= e -> same_sign s (binary_round prec emax s m e).
Proof.
  intros He. unfold binary_round. rewrite fexp_eq.
  destruct (shl_align m e _) as [mz ez] eqn:E.
  apply binary_round_aux_sign; [lia|].
  unfold shl_align in E.
  destruct (Z.max (Zpos (digits2_pos m) + e - 53) (-1074) - e) eqn:En;
    inversion E; subst; lia.
Qed.

Lemma bounded_inv (m : positive) (e : Z) :
  bounded prec emax m e = true ->
  Zpos (digits2_pos m) <= 53 /\ -1074 <= e <= 971 /\
  (Zpos (digits2_pos m) = 53 \/ e = -1074).
Proof.
  unfold bounded, canonical_mantissa. rewrite fexp_eq.
  intros H. apply andb_true_iff in H as [H1 H2].
  apply Z.eqb_eq in H1. apply Z.leb_le in H2.
  change (emax - prec) with 971 in H2. lia.
Qed.

Lemma scaled_eq (s : bool) (m : positive) (e ez : Z) :
  ez <= e -> scaled s m e ez = cond_Zopp s (Zpos m * 2 ^ (e - ez)).
Proof.
  intros H. unfold scaled. now destruct (@shl_align_le m e ez H) as [-> _].
Qed.

(** A canonical mantissa with the larger exponent has the larger value. *)
Lemma canonical_lt (mx my : positive) (ex ey : Z) :
  bounded prec emax mx ex = true -> bounded prec emax my ey = true ->
  ex < ey -> Zpos mx < Zpos my * 2 ^ (ey - ex).
Proof.
  intros Bx By Hlt.
  apply bounded_inv in Bx as (Hdx & Hex & _).
  apply bounded_inv in By as (_ & Hey & Hdy).
  pose proof (digits2_bounds mx) as [_ Hx].
  pose proof (digits2_bounds my) as [Hy _].
  assert (Hd : Zpos (digits2_pos my) = 53) by lia. rewrite Hd in Hy.
  assert (H1 : 2 ^ Zpos (digits2_pos mx) <= 2 ^ 53)
    by (apply Z.pow_le_mono_r; lia).
  assert (H2 : 2 ^ 1 <= 2 ^ (ey - ex)) by (apply Z.pow_le_mono_r; lia).
  change (2 ^ 1) with 2 in H2. change (53 - 1) with 52 in Hy.
  assert (H3 : 2 ^ 53 = 2 ^ 52 * 2) by reflexivity.
  nia.
Qed.

Lemma SFcompare_finite (sx sy : bool) (mx my : positive) (ex ey : Z) :
  bounded prec emax mx ex = true -> bounded prec emax my ey = true ->
  SFcompare (S754_finite sx mx ex) (S754_finite sy my ey) =
  Some (scaled sx mx ex (Z.min ex ey) ?= scaled sy my ey (Z.min ex ey)).
Proof.
  intros Bx By. rewrite !scaled_eq by lia.
  assert (Px : forall k, 0 <= k -> 0 < Zpos mx * 2 ^ k).
  { intros k Hk. apply Z.mul_pos_pos; [lia|]. apply Z.pow_pos_nonneg; lia. }
  assert (Py : forall k, 0 <= k -> 0 < Zpos my * 2 ^ k).
  { intros k Hk. apply Z.mul_pos_pos; [lia|]. apply Z.pow_pos_nonneg; lia. }
  cbn [SFcompare]. f_equal.
  destruct (Z.compare_spec ex ey) as [E|L|G].
  - subst ey. rewrite Z.min_id, Z.sub_diag, !Z.mul_1_r.
    destruct sx, sy; reflexivity.
  - pose proof (@canonical_lt mx my ex ey Bx By L) as H.
    rewrite Z.min_l by lia. rewrite Z.sub_diag, Z.mul_1_r.
    specialize (Py (ey - ex) ltac:(lia)).
    destruct sx, sy; cbn [cond_Zopp]; symmetry;
      (apply Z.compare_lt_iff; lia) || (apply Z.compare_gt_iff; lia).
  - pose proof (@canonical_lt my mx ey ex By Bx ltac:(lia)) as H.
    rewrite Z.min_r by lia. rewrite Z.sub_diag, Z.mul_1_r.
    specialize (Px (ex - ey) ltac:(lia)).
    destruct sx, sy; cbn [cond_Zopp]; symmetry;
      (apply Z.compare_lt_iff; lia) || (apply Z.compare_gt_iff; lia).
Qed.

Lemma same_sign_ltb_zero (s : bool) (x : spec_float) :
  same_sign s x -> SFltb x (S754_zero false) = s.
Proof. destruct x as [| | |s' m e]; simpl; try tauto; intros ->; now destruct s. Qed.

(** The sign of a difference decides the order of its operands. *)
Lemma SFsub_ltb_zero (x y : spec_float) :
  valid_binary x = true -> valid_binary y = true ->
  x <> S754_nan -> y <> S754_nan ->
  SFltb (SF64sub x y) (S754_zero false) = SFltb x y.
Proof.
  intros Vx Vy Nx Ny.
  destruct x as [sx|sx| |sx mx ex]; [| |congruence|];
    (destruct y as [sy|sy| |sy my ey]; [| |congruence|]);
    try (destruct sx, sy; reflexivity);
    try (destruct sx; reflexivity); try (destruct sy; reflexivity).
  cbn [valid_binary] in Vx, Vy.
  unfold SFltb at 2. rewrite (@SFcompare_finite sx sy mx my ex ey Vx Vy).
  unfold SF64sub, SFsub. fold (scaled sx mx ex (Z.min ex ey)).
  fold (scaled sy my ey (Z.min ex ey)).
  set (X := scaled sx mx ex (Z.min ex ey)).
  set (Y := scaled sy my ey (Z.min ex ey)).
  assert (He : -1074 <= Z.min ex ey).
  { apply bounded_inv in Vx. apply bounded_inv in Vy. lia. }
  destruct (X - Y) as [|p|p] eqn:D; cbn [binary_normalize].
  - replace (X ?= Y) with Eq by (symmetry; apply Z.compare_eq_iff; lia).
    reflexivity.
  - rewrite (@same_sign_ltb_zero false _ (@binary_round_sign false p _ He)).
    replace (X ?= Y) with Gt by (symmetry; apply Z.compare_gt_iff; lia).
    reflexivity.
  - rewrite (@same_sign_ltb_zero true _ (@binary_round_sign true p _ He)).
    replace (X ?= Y) with Lt by (symmetry; apply Z.compare_lt_iff; lia).
    reflexivity.
Qed.

Local Close Scope Z_scope.

(** [a - b < 0] exactly when [a < b], for numbers that are not [NaN]. *)
Lemma sub_ltb_zero (x y : float) :
  is_nan x = false -> is_nan y = false ->
  (x - y <? 0)%float = (x <? y)%float.
Proof.
  intros Nx Ny. rewrite !ltb_spec, sub_spec, Prim2SF_zero.
  apply SFsub_ltb_zero; try apply Prim2SF_valid.
  - intros H. apply Prim2SF_nan_inv in H. congruence.
  - intros H. apply Prim2SF_nan_inv in H. congruence.
Qed.

Lemma ltb_leb (x y : float) : (x <? y)%float = true -> (x <=? y)%float = true.
Proof.
  rewrite ltb_spec, leb_spec. unfold SFltb, SFleb.
  destruct (SFcompare _ _) as [[]|]; congruence.
Qed.

Lemma not_ltb_leb (x y : float) :
  is_nan x = false -> is_nan y = false ->
  (x <? y)%float = false -> (y <=? x)%float = true.
Proof.
  intros Nx Ny. rewrite ltb_spec, leb_spec. unfold SFltb, SFleb.
  rewrite (SFcompare_antisym (Prim2SF x) (Prim2SF y)).
  destruct (SFcompare (Prim2SF x) (Prim2SF y)) as [[]|] eqn:E; simpl; try congruence.
  intros _. exfalso.
  destruct (Prim2SF x) as [| | |] eqn:Ex, (Prim2SF y) as [| | |] eqn:Ey;
    simpl in E; try discriminate.
  all: try (apply Prim2SF_nan_inv in Ex; congruence).
  all: try (apply Prim2SF_nan_inv in Ey; congruence).
Qed.

End Binary64.

Lemma eqb_zero_not_pos (x : float) :
  (x =? 0)%float = true -> (0 <? x)%float = false.
Proof.
  rewrite eqb_spec, ltb_spec, Prim2SF_zero. unfold SFeqb, SFltb.
  rewrite (SFcompare_antisym (Prim2SF x) (S754_zero false)).
  destruct (SFcompare (Prim2SF x) (S754_zero false)) as [[]|]; simpl; congruence.
Qed.

Section Magnitudes.
Local Open Scope Z_scope.

Lemma shr_fexp_pos_low (m e : Z) (l : location) :
  0 < m -> 2 ^ (-1074 - e) <= m ->
  0 < shr_m (fst (shr_fexp prec emax m e l)) /\
  -1074 <= snd (shr_fexp prec emax m e l).
Proof.
  intros Hm He. unfold shr_fexp, shr. rewrite fexp_eq.
  destruct m as [|p|p]; try lia. cbn [Zdigits2].
  pose proof (digits2_bounds p) as [Hlo Hhi].
  set (d := Zpos (digits2_pos p)) in *.
  destruct (Z.max (d + e - 53) (-1074) - e) as [|n|n] eqn:En; cbn [fst snd];
    rewrite ?shr_record_of_loc_m; try (split; lia).
  rewrite iter_pos_shr_m by (rewrite shr_record_of_loc_m; lia).
  rewrite shr_record_of_loc_m. split; [|lia].
  apply Z.div_str_pos. split; [apply Z.pow_pos_nonneg; lia|].
  destruct (Z.max_spec (d + e - 53) (-1074)) as [[_ E]|[_ E]].
  - replace (Zpos n) with (-1074 - e) by lia. exact He.
  - assert (2 ^ Zpos n <= 2 ^ (d - 1)) by (apply Z.pow_le_mono_r; lia). lia.
Qed.

Lemma binary_round_aux_sign_low (s : bool) (m e : Z) (l : location) :
  0 < m -> 2 ^ (-1074 - e) <= m ->
  same_sign s (binary_round_aux prec emax s m e l).
Proof.
  intros Hm He. unfold binary_round_aux.
  destruct (shr_fexp_pos_low m e l Hm He) as [H1 H2].
  destruct (shr_fexp prec emax m e l) as [mrs' e'] eqn:E1. cbn [fst snd] in H1, H2.
  pose proof (round_nearest_even_ge (shr_m mrs') (loc_of_shr_record mrs')) as Hr.
  assert (Hm2 : 0 < round_nearest_even (shr_m mrs') (loc_of_shr_record mrs')) by lia.
  destruct (@shr_fexp_pos _ e' loc_Exact Hm2 H2) as [H3 H4].
  destruct (shr_fexp prec emax _ e' loc_Exact) as [mrs'' e''] eqn:E2.
  cbn [fst snd] in H3, H4.
  destruct (shr_m mrs'') as [|q|q]; try lia.
  destruct (e'' <=? emax - prec); reflexivity.
Qed.

(** Truncation keeps a mantissa above [2^-537] in the new unit. *)
Lemma shr_fexp_big (m e : Z) (l : location) :
  0 < m -> -1074 <= e -> 2 ^ 537 <= m * 2 ^ (e + 1074) ->
  2 ^ 537 <= shr_m (fst (shr_fexp prec emax m e l))
             * 2 ^ (snd (shr_fexp prec emax m e l) + 1074).
Proof.
  intros Hm He Hb.
  pose proof (@shr_fexp_pos m e l Hm He) as [Hpos Hexp].
  revert Hpos Hexp. unfold shr_fexp, shr. rewrite fexp_eq.
  destruct (Z.max (Zdigits2 m + e - 53) (-1074) - e) as [|n|n] eqn:En;
    cbn [fst snd]; rewrite ?shr_record_of_loc_m; try (intros; exact Hb).
  rewrite iter_pos_shr_m by (rewrite shr_record_of_loc_m; lia).
  rewrite shr_record_of_loc_m. intros Hpos Hexp.
  set (E := e + 1074) in *. replace (e + Zpos n + 1074) with (E + Zpos n) by lia.
  assert (Hn : 0 < 2 ^ Zpos n) by (apply Z.pow_pos_nonneg; lia).
  destruct (Z.le_gt_cases (E + Zpos n) 537) as [Hle|Hgt].
  - assert (HE : 0 < 2 ^ E) by (apply Z.pow_pos_nonneg; lia).
    assert (H1 : 2 ^ 537 = 2 ^ (537 - E - Zpos n) * 2 ^ Zpos n * 2 ^ E).
    { rewrite <- !Z.pow_add_r by lia. f_equal. lia. }
    assert (H2 : 2 ^ (537 - E - Zpos n) * 2 ^ Zpos n <= m).
    { apply (Z.mul_le_mono_pos_r _ _ (2 ^ E) HE). lia. }
    assert (H3 : 2 ^ (537 - E - Zpos n) <= m / 2 ^ Zpos n).
    { apply Z.div_le_lower_bound; [exact Hn|lia]. }
    assert (H4 : 2 ^ 537 = 2 ^ (537 - E - Zpos n) * 2 ^ (E + Zpos n)).
    { rewrite <- !Z.pow_add_r by lia. f_equal. lia. }
    rewrite H4. apply Z.mul_le_mono_nonneg_r; [|exact H3].
    apply Z.pow_nonneg. lia.
  - assert (H1 : 2 ^ 537 <= 2 ^ (E + Zpos n)) by (apply Z.pow_le_mono_r; lia).
    assert (H2 : 0 < 2 ^ (E + Zpos n)) by (apply Z.pow_pos_nonneg; lia).
    nia.
Qed.

Lemma binary_round_aux_big (m e : Z) (l : location) :
    0 < m -> -1074 <= e -> 2 ^ 537 <= m * 2 ^ (e + 1074) ->
    big (binary_round_aux prec emax false m e l).
Proof.
    intros Hm He Hb. unfold binary_round_aux.
    pose proof (@shr_fexp_pos m e l Hm He) as [H1 H2].
    pose proof (shr_fexp_big m e l Hm He Hb) as B1.
    destruct (shr_fexp prec emax m e l) as [mrs' e'] eqn:E1.
    cbn [fst snd] in H1, H2, B1.
    pose proof (round_nearest_even_ge (shr_m mrs') (loc_of_shr_record mrs')) as Hr.
    set (m1 := round_nearest_even (shr_m mrs') (loc_of_shr_record mrs')) in *.
    assert (Hm1 : 0 < m1) by lia.
    assert (B1' : 2 ^ 537 <= m1 * 2 ^ (e' + 1074)).
    { assert (0 < 2 ^ (e' + 1074)) by (apply Z.pow_pos_nonneg; lia). nia. }
    pose proof (@shr_fexp_pos m1 e' loc_Exact Hm1 H2) as [H3 H4].
    pose proof (shr_fexp_big m1 e' loc_Exact Hm1 H2 B1') as B2.
    destruct (shr_fexp prec emax m1 e' loc_Exact) as [mrs'' e''] eqn:E2.
    cbn [fst snd] in H3, H4, B2.
    destruct (shr_m mrs'') as [|q|q]; try lia.
    destruct (e'' <=? emax - prec); simpl; auto.
Qed.

Lemma SFsqrt_big (x : spec_float) :
  valid_binary x = true ->
  SFeqb (SF64sqrt x) (S754_zero false) = false -> big (SF64sqrt x).
Proof.
  intros V Hz. destruct x as [s|[]| |[] mx ex]; simpl in *;
    try exact I; try reflexivity.
  - discriminate.
  - apply bounded_inv in V as (_ & Hex & _).
    unfold SFsqrt_core_binary. rewrite fexp_eq. cbn [Zdigits2].
    set (d := Zpos (digits2_pos mx)).
    set (e' := Z.min (Z.max (Z.div2 (d + ex + 1) - 53) (-1074)) (Z.div2 ex)).
    pose proof (Z.div2_odd ex) as Hodd.
    assert (Hb : 0 <= Z.b2z (Z.odd ex) <= 1) by (destruct (Z.odd ex); simpl; lia).
    assert (He' : -1074 <= e') by (unfold e'; lia).
    assert (Hs : 0 <= ex - 2 * e') by (unfold e'; lia).
    set (sh := ex - 2 * e') in *.
    set (m' := match sh with Zpos _ => Z.shiftl (Zpos mx) sh | 0 => Zpos mx | Zneg _ => 0 end).
    assert (Hm' : m' = Zpos mx * 2 ^ sh).
    { unfold m'. destruct sh as [|p|p] eqn:Esh; try lia.
      now rewrite Z.shiftl_mul_pow2 by lia. }
    assert (Hshp : 0 < 2 ^ sh) by (apply Z.pow_pos_nonneg; lia).
    assert (Hm'pos : 2 ^ sh <= m') by nia.
    pose proof (Z.sqrtrem_sqrt m') as Hq.
    destruct (Z.sqrtrem m') as [q r]. cbn [fst] in Hq. subst q.
    set (t := Z.div2 sh).
    pose proof (Z.div2_odd sh) as Hodd2. fold t in Hodd2.
    assert (Hb2 : 0 <= Z.b2z (Z.odd sh) <= 1) by (destruct (Z.odd sh); simpl; lia).
    assert (Ht : 0 <= t) by lia.
    assert (Hq : 2 ^ t <= Z.sqrt m').
    { apply Z.sqrt_le_square; [lia|apply Z.pow_nonneg; lia|].
      rewrite <- Z.pow_add_r by lia.
      assert (2 ^ (t + t) <= 2 ^ sh) by (apply Z.pow_le_mono_r; lia). lia. }
    assert (Htp : 0 < 2 ^ t) by (apply Z.pow_pos_nonneg; lia).
    apply binary_round_aux_big; [lia|exact He'|].
    assert (H537 : 2 ^ 537 <= 2 ^ (t + (e' + 1074))).
    { apply Z.pow_le_mono_r; [lia|]. unfold sh in *. lia. }
    rewrite Z.pow_add_r in H537 by lia.
    assert (0 < 2 ^ (e' + 1074)) by (apply Z.pow_pos_nonneg; lia).
    nia.
Qed.

Lemma same_sign_not_zero (s : bool) (x : spec_float) :
  same_sign s x -> SFeqb x (S754_zero false) = false.
Proof. destruct x as [| | |s' m e]; simpl; try tauto; intros ->; now destruct s. Qed.

Lemma SFmul_big (x y : spec_float) :
    big x -> big y ->
    SF64mul x y = S754_nan \/ same_sign false (SF64mul x y).
Proof.
    intros Bx By.
    destruct x as [sx|sx| |sx mx ex]; try contradiction;
      destruct y as [sy|sy| |sy my ey]; try contradiction;
      try (left; reflexivity).
    - simpl in Bx, By. subst. right. reflexivity.
    - simpl in Bx. destruct By as [-> _]. subst. right. reflexivity.
    - simpl in By. destruct Bx as [-> _]. subst. right. reflexivity.
    - destruct Bx as [-> [Hex Bx]], By as [-> [Hey By]]. right.
      unfold SF64mul, SFmul. cbn [xorb].
      apply binary_round_aux_sign_low; [lia|].
      rewrite Pos2Z.inj_mul.
      destruct (Z.le_gt_cases (-1074) (ex + ey)) as [Hge|Hlt].
      + assert (2 ^ (-1074 - (ex + ey)) <= 1).
        { destruct (-1074 - (ex + ey)) eqn:E; simpl; try lia. }
        nia.
      + set (A := 2 ^ (ex + 1074)) in *. set (B := 2 ^ (ey + 1074)) in *.
        assert (HA : 0 < A) by (apply Z.pow_pos_nonneg; lia).
        assert (HB : 0 < B) by (apply Z.pow_pos_nonneg; lia).
        set (K := 2 ^ (-1074 - (ex + ey))).
        assert (HK : K * (A * B) = 2 ^ 537 * 2 ^ 537).
        { unfold K, A, B. rewrite <- !Z.pow_add_r by lia. f_equal. lia. }
        assert (H1 : 2 ^ 537 * 2 ^ 537 <= (Zpos mx * A) * (Zpos my * B)).
        { apply Z.mul_le_mono_nonneg; lia. }
        assert (H2 : K * (A * B) <= (Zpos mx * Zpos my) * (A * B)) by lia.
        apply Z.mul_le_mono_pos_r in H2; [exact H2|]. now apply Z.mul_pos_pos.
Qed.

Lemma same_sign_pos (x : spec_float) :
    same_sign false x -> SFltb (S754_zero false) x = true.
Proof. destruct x as [| | |s m e]; simpl; try tauto; now intros ->. Qed.

Lemma SFmul_zero_not_pos (x y : spec_float) :
    SFeqb x (S754_zero false) = true ->
    SFltb (S754_zero false) (SF64mul x y) = false /\
    SFltb (S754_zero false) (SF64mul y x) = false.
Proof.
    destruct x as [sx|[]| |[] mx ex]; try discriminate. intros _.
    destruct y as [sy|sy| |sy my ey]; simpl; split;
      try reflexivity; destruct (xorb _ _); reflexivity.
Qed.

End Magnitudes.

Lemma is_nan_Prim2SF (x : float) : is_nan x = false -> Prim2SF x <> S754_nan.
Proof. intros H E. apply Prim2SF_nan_inv in E. congruence. Qed.

(** The product of two non-zero square roots is not zero, so the divisor
    of [cosineSimilarity] cannot underflow; and it is positive unless it
    is [NaN]. *)
Lemma sqrt_mul_sign (x y : float) :
  (sqrt x =? 0)%float = false -> (sqrt y =? 0)%float = false ->
  (sqrt x * sqrt y =? 0)%float = false /\
  (is_nan (sqrt x * sqrt y) = false -> (0 <? sqrt x * sqrt y)%float = true).
Proof.
  rewrite !eqb_spec, ltb_spec, !sqrt_spec, Prim2SF_zero. intros Hx Hy.
  pose proof (is_nan_Prim2SF (sqrt x * sqrt y)) as Hn.
  rewrite mul_spec, !sqrt_spec in *.
  destruct (SFmul_big (SF64sqrt (Prim2SF x)) (SF64sqrt (Prim2SF y))) as [E|S].
  - apply SFsqrt_big; [apply Prim2SF_valid|exact Hx].
  - apply SFsqrt_big; [apply Prim2SF_valid|exact Hy].
  - rewrite E. split; [reflexivity|]. intros H. now apply Hn in H.
  - split; [now apply (same_sign_not_zero false)|]. intros _. now apply same_sign_pos.
Qed.

Lemma sqrt_mul_nonzero (x y : float) :
  (sqrt x =? 0)%float = false -> (sqrt y =? 0)%float = false ->
  (sqrt x * sqrt y =? 0)%float = false.
Proof. intros Hx Hy. now apply sqrt_mul_sign. Qed.

(** A product with a zero factor is not positive. *)
Lemma mul_zero_not_pos (x y : float) :
  (x =? 0)%float = true ->
  (0 <? x * y)%float = false /\ (0 <? y * x)%float = false.
Proof.
  rewrite eqb_spec, !ltb_spec, !mul_spec, Prim2SF_zero.
  apply SFmul_zero_not_pos.
Qed.

(* ----------------------------------------------------------------- *)
(** ** Cosine similarity *)

Lemma array_get_repeat_zero (n i : nat) :
  i < n -> array_get (repeat 0%float n) i = 0%float.
Proof.
  intros H. unfold array_get. apply nth_repeat_lt. exact H.
Qed.

Lemma cosine_sums_zero (n : nat) :
  EmbeddingNormalizer.cosine_sums (repeat 0%float n) (repeat 0%float n) n =
  {| EmbeddingNormalizer.dotProduct := 0%float;
     EmbeddingNormalizer.sumA := 0%float;
     EmbeddingNormalizer.sumB := 0%float |}.
Proof.
  unfold EmbeddingNormalizer.cosine_sums.
  assert (H : forall l, Forall (fun i => i < n) l ->
            fold_left (EmbeddingNormalizer.cosine_step (repeat 0%float n) (repeat 0%float n)) l
              {| EmbeddingNormalizer.dotProduct := 0%float;
                 EmbeddingNormalizer.sumA := 0%float;
                 EmbeddingNormalizer.sumB := 0%float |} =
            {| EmbeddingNormalizer.dotProduct := 0%float;
               EmbeddingNormalizer.sumA := 0%float;
               EmbeddingNormalizer.sumB := 0%float |}).
  { induction l as [|i t IH]; intros Hl; [reflexivity|].
    inversion Hl; subst. simpl fold_left.
    unfold EmbeddingNormalizer.cosine_step at 2.
    rewrite array_get_repeat_zero by assumption.
    cbn [EmbeddingNormalizer.dotProduct EmbeddingNormalizer.sumA EmbeddingNormalizer.sumB].
    change (0 + 0 * 0)%float with 0%float. now apply IH. }
  apply H. apply Forall_forall. intros i Hi. apply in_seq in Hi. lia.
Qed.

(** C8: [cosineSimilarity] throws the dimension-mismatch error exactly
    when the lengths differ.  When they agree it returns a number; if one
    of the two magnitudes is zero that number is [0] (in particular for two
    zero vectors, where the result is not [NaN]); otherwise it is the
    quotient, whose divisor is not zero. *)
Theorem cosineSimilarity_guards (a b : list number) :
  (length a <> length b <->
   EmbeddingNormalizer.cosineSimilarity a b =
   Throw (DimensionMismatch (length a) (length b))) /\
  (length a = length b <->
   exists s, EmbeddingNormalizer.cosineSimilarity a b = Ok s) /\
  (length a = length b ->
   ((EmbeddingNormalizer.magnitudeA a b =? 0)%float = true \/
    (EmbeddingNormalizer.magnitudeB a b =? 0)%float = true) ->
   EmbeddingNormalizer.cosineSimilarity a b = Ok 0%float) /\
  (length a = length b ->
   (EmbeddingNormalizer.magnitudeA a b =? 0)%float = false ->
   (EmbeddingNormalizer.magnitudeB a b =? 0)%float = false ->
   (EmbeddingNormalizer.magnitudeA a b * EmbeddingNormalizer.magnitudeB a b
    =? 0)%float = false /\
   EmbeddingNormalizer.cosineSimilarity a b =
   Ok (EmbeddingNormalizer.dotProduct
         (EmbeddingNormalizer.cosine_sums a b (length a))
       / (EmbeddingNormalizer.magnitudeA a b
          * EmbeddingNormalizer.magnitudeB a b))%float) /\
  (forall n,
     EmbeddingNormalizer.cosineSimilarity (repeat 0%float n) (repeat 0%float n)
     = Ok 0%float) /\
  is_nan 0%float = false.
Proof.
  unfold EmbeddingNormalizer.cosineSimilarity,
    EmbeddingNormalizer.magnitudeA, EmbeddingNormalizer.magnitudeB.
  split; [split|split; [split|split; [|split; [|split]]]].
  - intros H. apply Nat.eqb_neq in H. now rewrite H.
  - intros H E. apply Nat.eqb_eq in E. rewrite E in H. simpl in H.
    destruct (_ || _) in H; discriminate.
  - intros H. apply Nat.eqb_eq in H. rewrite H. simpl.
    destruct (_ || _); eauto.
  - intros [s H]. destruct (length a =? length b) eqn:E.
    + now apply Nat.eqb_eq.
    + discriminate.
  - intros H [Ha|Hb]; apply Nat.eqb_eq in H; rewrite H; simpl.
    + now rewrite Ha.
    + rewrite Hb. now rewrite orb_true_r.
  - intros H Ha Hb. split.
    + now apply sqrt_mul_nonzero.
    + apply Nat.eqb_eq in H. rewrite H. simpl. now rewrite Ha, Hb.
  - intros n. rewrite !repeat_length, Nat.eqb_refl. simpl.
    rewrite cosine_sums_zero. reflexivity.
  - reflexivity.
Qed.

(* ----------------------------------------------------------------- *)
(** ** Sorting *)

Section Sorting.

Lemma sort_insert_perm {A} (cmp : A -> A -> float) (x : A) (l : list A) :
  Permutation (sort_insert cmp x l) (x :: l).
Proof.
  induction l as [|y t IH]; simpl.
  - reflexivity.
  - destruct (cmp x y <? 0)%float; [reflexivity|].
    rewrite IH. apply perm_swap.
Qed.

Lemma array_sort_perm {A} (cmp : A -> A -> float) (l : list A) :
  Permutation (array_sort cmp l) l.
Proof.
  unfold array_sort.
  assert (H : forall acc, Permutation
                (fold_left (fun sorted x => sort_insert cmp x sorted) l acc)
                (acc ++ l)).
  { induction l as [|x t IH]; intros acc; simpl.
    - now rewrite app_nil_r.
    - rewrite IH, sort_insert_perm. apply Permutation_middle. }
  exact (H []).
Qed.

Lemma by_distance_lt (a b : SearchHit) :
  not_nan a -> not_nan b ->
  (VectorStore.by_distance a b <? 0)%float = (distance a <? distance b)%float.
Proof. intros Ha Hb. unfold VectorStore.by_distance. now apply sub_ltb_zero. Qed.

Lemma sort_insert_sorted (x : SearchHit) (l : list SearchHit) :
  not_nan x -> Forall not_nan l -> Sorted le_distance l ->
  Sorted le_distance (sort_insert VectorStore.by_distance x l).
Proof.
  intros Hx Hl Hs. induction Hs as [|y t Ht IH Hhd]; simpl.
  - repeat constructor.
  - inversion Hl as [|? ? Hy Hl']; subst.
    rewrite (by_distance_lt _ _ Hx Hy).
    destruct (distance x <? distance y)%float eqn:E.
    + constructor; [now constructor|]. constructor. now apply ltb_leb.
    + constructor; [now apply IH|].
      destruct t as [|z t']; simpl.
      * constructor. now apply not_ltb_leb.
      * inversion Hl' as [|? ? Hz _]; subst.
        rewrite (by_distance_lt _ _ Hx Hz).
        destruct (distance x <? distance z)%float.
        -- constructor. now apply not_ltb_leb.
        -- constructor. now inversion Hhd.
Qed.

Lemma array_sort_sorted (l : list SearchHit) :
  Forall not_nan l -> Sorted le_distance (array_sort VectorStore.by_distance l).
Proof.
  unfold array_sort.
  assert (H : forall acc, Forall not_nan acc -> Sorted le_distance acc ->
            Forall not_nan l ->
            Sorted le_distance
              (fold_left (fun sorted x => sort_insert VectorStore.by_distance x sorted) l acc)).
  { induction l as [|x t IH]; intros acc Ha Hs Hl; simpl.
    - exact Hs.
    - inversion Hl; subst. apply IH; [| |assumption].
      + eapply Permutation_Forall; [symmetry; apply sort_insert_perm|].
        now constructor.
      + now apply sort_insert_sorted. }
  intros Hl. apply H; [constructor|constructor|exact Hl].
Qed.

Lemma Sorted_firstn {A} (R : A -> A -> Prop) (n : nat) (l : list A) :
  Sorted R l -> Sorted R (firstn n l).
Proof.
  intros H. revert n. induction H as [|x t Ht IH Hhd]; intros n.
  - rewrite firstn_nil. constructor.
  - destruct n as [|n]; simpl; [constructor|].
    constructor; [apply IH|].
    destruct Hhd; destruct n; simpl; constructor. assumption.
Qed.

Lemma In_firstn {A} (n : nat) (l : list A) (x : A) :
  In x (firstn n l) -> In x l.
Proof.
  intros H. rewrite <- (firstn_skipn n l). apply in_or_app. now left.
Qed.

End Sorting.

(* ----------------------------------------------------------------- *)
(** ** The fallback scan *)

Lemma fold_left_ext_in {A B} (f g : A -> B -> A) (l : list B) (a : A) :
  (forall acc i, In i l -> f acc i = g acc i) ->
  fold_left f l a = fold_left g l a.
Proof.
  revert a. induction l as [|x t IH]; intros a H; simpl.
  - reflexivity.
  - rewrite (H a x) by now left. apply IH. intros acc i Hi. apply H. now right.
Qed.

Lemma array_get_firstn (l : list float) (n i : nat) :
  i < n -> array_get (firstn n l) i = array_get l i.
Proof.
  intros H. unfold array_get. rewrite nth_firstn.
  apply Nat.ltb_lt in H. now rewrite H.
Qed.

Lemma similarity_sums_prefix (q e : list float) :
  let n := Nat.min (length q) (length e) in
  VectorStore.similarity_sums q e =
  VectorStore.similarity_sums (firstn n q) (firstn n e).
Proof.
  intros n. unfold VectorStore.similarity_sums.
  rewrite !length_firstn. fold n.
  replace (Nat.min (Nat.min n (length q)) (Nat.min n (length e))) with n by lia.
  apply fold_left_ext_in. intros acc i Hi. apply in_seq in Hi.
  unfold VectorStore.similarity_step.
  now rewrite !array_get_firstn by lia.
Qed.

Lemma similarity_step_shift (x y : number) (q e : list number) (l : list nat)
    (s : VectorStore.sums) :
  fold_left (VectorStore.similarity_step (x :: q) (y :: e)) (map S l) s =
  fold_left (VectorStore.similarity_step q e) l s.
Proof.
  revert s. induction l as [|i t IH]; intros s; simpl; [reflexivity|].
  apply IH.
Qed.

Lemma similarity_sums_dot (q e : list number) (s : VectorStore.sums) :
  let s' := fold_left (VectorStore.similarity_step q e)
                      (seq 0 (Nat.min (length q) (length e))) s in
  VectorStore.dotProduct s' =
    fold_left (fun acc p => (acc + fst p * snd p)%float) (combine q e)
              (VectorStore.dotProduct s) /\
  VectorStore.queryMagnitude s' =
    fold_left (fun acc p => (acc + fst p * fst p)%float) (combine q e)
              (VectorStore.queryMagnitude s) /\
  VectorStore.embeddingMagnitude s' =
    fold_left (fun acc p => (acc + snd p * snd p)%float) (combine q e)
              (VectorStore.embeddingMagnitude s).
Proof.
  revert e s. induction q as [|x q IH]; intros e s; [simpl; auto|].
  destruct e as [|y e]; [simpl; auto|].
  cbn [length Nat.min seq combine fold_left].
  rewrite <- seq_shift, similarity_step_shift.
  apply (IH e (VectorStore.similarity_step (x :: q) (y :: e) s 0)).
Qed.

Lemma fold_fst_dot (q e : list number) (a : number) :
  fold_left (fun acc p => (acc + fst p * fst p)%float) (combine q e) a =
  fold_left (fun acc p => (acc + fst p * snd p)%float)
            (combine (firstn (Nat.min (length q) (length e)) q)
                     (firstn (Nat.min (length q) (length e)) q)) a.
Proof.
  revert e a. induction q as [|x q IH]; intros e a; [reflexivity|].
  destruct e as [|y e]; [reflexivity|]. simpl. apply IH.
Qed.

Lemma fold_snd_dot (q e : list number) (a : number) :
  fold_left (fun acc p => (acc + snd p * snd p)%float) (combine q e) a =
  fold_left (fun acc p => (acc + fst p * snd p)%float)
            (combine (firstn (Nat.min (length q) (length e)) e)
                     (firstn (Nat.min (length q) (length e)) e)) a.
Proof.
  revert e a. induction q as [|x q IH]; intros e a; [reflexivity|].
  destruct e as [|y e]; [reflexivity|]. simpl. apply IH.
Qed.

Lemma combine_overlap {A B} (q : list A) (e : list B) :
  combine (firstn (Nat.min (length q) (length e)) q)
          (firstn (Nat.min (length q) (length e)) e) = combine q e.
Proof.
  revert e. induction q as [|x q IH]; intros e; [reflexivity|].
  destruct e as [|y e]; [reflexivity|]. simpl. now rewrite IH.
Qed.

Lemma magnitude_overlap (q e : list number) :
  VectorStore.magnitude q e = overlap_magnitude q e.
Proof.
  unfold VectorStore.magnitude, overlap_magnitude, dot, VectorStore.similarity_sums.
  destruct (similarity_sums_dot q e
              {| VectorStore.dotProduct := 0; VectorStore.queryMagnitude := 0;
                 VectorStore.embeddingMagnitude := 0 |}) as (H1 & H2 & H3).
  cbv zeta in H1, H2, H3. rewrite H2, H3. cbn [VectorStore.dotProduct
    VectorStore.queryMagnitude VectorStore.embeddingMagnitude].
  now rewrite fold_fst_dot, fold_snd_dot.
Qed.

Lemma similarity_overlap (q e : list number) :
  VectorStore.similarity q e = overlap_similarity q e.
Proof.
  unfold VectorStore.similarity, overlap_similarity, overlap_magnitude, dot,
    VectorStore.similarity_sums.
  destruct (similarity_sums_dot q e
              {| VectorStore.dotProduct := 0; VectorStore.queryMagnitude := 0;
                 VectorStore.embeddingMagnitude := 0 |}) as (H1 & H2 & H3).
  cbv zeta in H1, H2, H3. rewrite H1, H2, H3. cbn [VectorStore.dotProduct
    VectorStore.queryMagnitude VectorStore.embeddingMagnitude].
  now rewrite fold_fst_dot, fold_snd_dot, combine_overlap.
Qed.

Lemma to_hit_overlap (q : list number) (row : VecRow) :
  VectorStore.to_hit q row = overlap_hit q row.
Proof. unfold VectorStore.to_hit, overlap_hit. now rewrite similarity_overlap. Qed.

Lemma fallbackSimilaritySearch_eq (q : list float) (limit : Z)
    (f : option string) (w : World) :
  VectorStore.fallbackSimilaritySearch q limit f w =
  (Ok (slice (array_sort VectorStore.by_distance
                (map (VectorStore.to_hit q) (selected_rows f (db w))))
             0 limit),
   emit (SelectVectors f) w).
Proof. reflexivity. Qed.

(** C10: the fallback scan returns for stored vectors of any width, and
    leaves the database as it was.  Its hits are the first [limit] of a
    rearrangement of one hit per candidate, whose distance is [1] minus
    the cosine of the overlapping prefixes: dot product and magnitudes are
    summed over the first [min (length query) (length stored)] entries
    only.  The rearrangement is in non-decreasing order of distance when
    no distance is [NaN].  A candidate whose product of magnitudes is zero
    has similarity [0], not [NaN], and its hit has distance [1]. *)
Theorem fallback_scan_total (queryVector : list float) :
  (forall limit libraryFilter w,
      let candidates := selected_rows libraryFilter (db w) in
      exists ranked,
        VectorStore.fallbackSimilaritySearch queryVector limit libraryFilter w
        = (Ok (slice ranked 0 limit), emit (SelectVectors libraryFilter) w) /\
        Permutation ranked (map (overlap_hit queryVector) candidates) /\
        (Forall not_nan ranked -> Sorted le_distance ranked) /\
        ((0 <= limit)%Z ->
         slice ranked 0 limit = firstn (Z.to_nat limit) ranked /\
         length (slice ranked 0 limit)
         = Nat.min (Z.to_nat limit) (length candidates)) /\
        (forall row, In row candidates ->
           (overlap_magnitude queryVector (embedding row) =? 0)%float = true ->
           In {| hitSnippetId := snippet_id row; distance := 1 |} ranked)) /\
  (forall e,
      VectorStore.similarity queryVector e = overlap_similarity queryVector e /\
      VectorStore.magnitude queryVector e = overlap_magnitude queryVector e) /\
  (forall e,
      let n := Nat.min (length queryVector) (length e) in
      VectorStore.similarity queryVector e =
      VectorStore.similarity (firstn n queryVector) (firstn n e)) /\
  (forall row,
      (VectorStore.magnitude queryVector (embedding row) =? 0)%float = true ->
      VectorStore.similarity queryVector (embedding row) = 0%float /\
      is_nan (VectorStore.similarity queryVector (embedding row)) = false /\
      distance (VectorStore.to_hit queryVector row) = 1%float).
Proof.
  assert (Hzero : forall row,
      (VectorStore.magnitude queryVector (embedding row) =? 0)%float = true ->
      VectorStore.similarity queryVector (embedding row) = 0%float).
  { intros row H. unfold VectorStore.similarity. unfold VectorStore.magnitude in H.
    now rewrite (eqb_zero_not_pos _ H). }
  split; [|split; [|split]].
  - intros limit f w candidates. rewrite fallbackSimilaritySearch_eq.
    fold candidates.
    set (ranked := array_sort VectorStore.by_distance
                     (map (VectorStore.to_hit queryVector) candidates)).
    assert (Hperm : Permutation ranked (map (overlap_hit queryVector) candidates)).
    { unfold ranked. rewrite array_sort_perm.
      erewrite map_ext; [reflexivity|]. intros row. apply to_hit_overlap. }
    exists ranked. split; [reflexivity|]. split; [exact Hperm|].
    split; [|split].
    + intros Hn. apply array_sort_sorted.
      eapply Permutation_Forall; [apply array_sort_perm|exact Hn].
    + intros Hl. rewrite slice_0_nonneg by exact Hl. split; [reflexivity|].
      rewrite length_firstn, (Permutation_length Hperm), length_map. reflexivity.
    + intros row Hrow Hm.
      apply (Permutation_in _ (Permutation_sym Hperm)).
      apply in_map_iff. exists row. split; [|exact Hrow].
      unfold overlap_hit. rewrite <- similarity_overlap, Hzero.
      * reflexivity.
      * now rewrite magnitude_overlap.
  - intros e. split; [apply similarity_overlap|apply magnitude_overlap].
  - intros e n. unfold VectorStore.similarity.
    now rewrite (similarity_sums_prefix queryVector e).
  - intros row H. pose proof (Hzero row H) as E.
    split; [exact E|]. split; [now rewrite E|].
    unfold VectorStore.to_hit. cbn [distance]. rewrite E. reflexivity.
Qed.

(** Stored vectors of widths 2, 2, 3 and 1 against a query of width 2: no
    error; the all-zero vector is at distance [1]; the vector of width 3
    is compared on its first two entries and the vector of width 1 on its
    only entry, so both are at distance [0]. *)
Example fallback_scan_mixed_widths :
  fst (VectorStore.fallbackSimilaritySearch [3%float; 4%float] 3 None
         (world_of no_env db_mixed_widths)) =
  Ok [ {| hitSnippetId := 1; distance := 0 |};
       {| hitSnippetId := 3; distance := 0 |};
       {| hitSnippetId := 2; distance := 1 |} ] /\
  EmbeddingNormalizer.cosineSimilarity [3%float; 4%float] [4%float]
  = Throw (DimensionMismatch 2 1).
Proof. split; vm_compute; reflexivity. Qed.

(** The loop of the fallback scan and the loop of [cosineSimilarity]
    compute the same three sums on vectors of equal length. *)
Lemma sums_step_agree (q e : list number) (l : list nat) :
  forall (s : VectorStore.sums) (c : EmbeddingNormalizer.sums),
    VectorStore.dotProduct s = EmbeddingNormalizer.dotProduct c ->
    VectorStore.queryMagnitude s = EmbeddingNormalizer.sumA c ->
    VectorStore.embeddingMagnitude s = EmbeddingNormalizer.sumB c ->
    let s' := fold_left (VectorStore.similarity_step q e) l s in
    let c' := fold_left (EmbeddingNormalizer.cosine_step q e) l c in
    VectorStore.dotProduct s' = EmbeddingNormalizer.dotProduct c' /\
    VectorStore.queryMagnitude s' = EmbeddingNormalizer.sumA c' /\
    VectorStore.embeddingMagnitude s' = EmbeddingNormalizer.sumB c'.
Proof.
  induction l as [|i t IH]; intros s c H1 H2 H3; simpl; [auto|].
  apply IH; unfold VectorStore.similarity_step, EmbeddingNormalizer.cosine_step;
    simpl; congruence.
Qed.

Lemma similarity_sums_cosine_sums (q e : list number) :
  length q = length e ->
  VectorStore.dotProduct (VectorStore.similarity_sums q e) =
    EmbeddingNormalizer.dotProduct (EmbeddingNormalizer.cosine_sums q e (length q)) /\
  VectorStore.queryMagnitude (VectorStore.similarity_sums q e) =
    EmbeddingNormalizer.sumA (EmbeddingNormalizer.cosine_sums q e (length q)) /\
  VectorStore.embeddingMagnitude (VectorStore.similarity_sums q e) =
    EmbeddingNormalizer.sumB (EmbeddingNormalizer.cosine_sums q e (length q)).
Proof.
  intros H. unfold VectorStore.similarity_sums, EmbeddingNormalizer.cosine_sums.
  rewrite <- H, Nat.min_id. now apply sums_step_agree.
Qed.

(** On vectors of equal length the similarity of the fallback scan is the
    result of [cosineSimilarity], unless a magnitude is [NaN]. *)
Lemma similarity_is_cosine (q e : list number) :
  length q = length e ->
  is_nan (VectorStore.magnitude q e) = false ->
  EmbeddingNormalizer.cosineSimilarity q e = Ok (VectorStore.similarity q e).
Proof.
  intros H Hn.
  destruct (similarity_sums_cosine_sums q e H) as (H1 & H2 & H3).
  unfold EmbeddingNormalizer.cosineSimilarity, VectorStore.similarity,
    VectorStore.magnitude in *.
  apply Nat.eqb_eq in H. rewrite H. cbn [negb].
  rewrite H1, H2, H3 in *.
  set (c := EmbeddingNormalizer.cosine_sums q e (length q)) in *.
  destruct (sqrt (EmbeddingNormalizer.sumA c) =? 0)%float eqn:Ea.
  - cbn [orb].
    destruct (mul_zero_not_pos _ (sqrt (EmbeddingNormalizer.sumB c)) Ea) as [-> _].
    reflexivity.
  - destruct (sqrt (EmbeddingNormalizer.sumB c) =? 0)%float eqn:Eb; cbn [orb].
    + destruct (mul_zero_not_pos _ (sqrt (EmbeddingNormalizer.sumA c)) Eb) as [_ ->].
      reflexivity.
    + destruct (sqrt_mul_sign _ _ Ea Eb) as [_ Hpos]. now rewrite (Hpos Hn).
Qed.

(* ----------------------------------------------------------------- *)
(** ** Similarity search *)

Lemma similaritySearch_eq (q normalized : list number) (p : EmbeddingProvider)
    (limit : Z) (f : option string) (w : World) :
  VectorStore.normalizeEmbedding q p = Ok normalized ->
  VectorStore.similaritySearch q p limit f w =
  (Ok (slice (array_sort VectorStore.by_distance
                (map (VectorStore.to_hit normalized) (selected_rows f (db w))))
             0 limit),
   emit (SelectVectors f) (after_init w)).
Proof.
  intros H. unfold VectorStore.similaritySearch, bind.
  rewrite init_eq. unfold lift. rewrite H.
  unfold VectorStore.fallbackSimilaritySearch, bind, select_vectors, ret.
  now rewrite after_init_db.
Qed.

Lemma similaritySearch_throws (q : list number) (p : EmbeddingProvider)
    (limit : Z) (f : option string) (w : World) (e : JsError) :
  VectorStore.normalizeEmbedding q p = Throw e ->
  VectorStore.similaritySearch q p limit f w = (Throw e, after_init w).
Proof.
  intros H. unfold VectorStore.similaritySearch, bind.
  rewrite init_eq. unfold lift. now rewrite H.
Qed.

(** C5, as the code has it: when the query normalises and the limit is not
    negative, [similaritySearch] returns at most [limit] hits; they are an
    initial segment of a rearrangement of the candidates, each with
    distance [1 - similarity], where the similarity is the result of
    [cosineSimilarity] whenever the stored vector is as long as the query
    and no magnitude is [NaN]; and the hits are in non-decreasing order of
    distance provided no candidate's distance is [NaN]. *)
Theorem similaritySearch_ranked (w : World) (queryEmbedding normalized : list number)
    (p : EmbeddingProvider) (limit : Z) (libraryFilter : option string) :
  VectorStore.normalizeEmbedding queryEmbedding p = Ok normalized ->
  (0 <= limit)%Z ->
  let candidates := selected_rows libraryFilter (db w) in
  exists hits w',
    VectorStore.similaritySearch queryEmbedding p limit libraryFilter w
      = (Ok hits, w') /\
    (exists rest,
        Permutation (hits ++ rest) (map (VectorStore.to_hit normalized) candidates)) /\
    Forall (fun h => exists row, In row candidates /\
                       hitSnippetId h = snippet_id row /\
                       distance h =
                       (1 - VectorStore.similarity normalized (embedding row))%float)
           hits /\
    (forall row, In row candidates ->
       length normalized = length (embedding row) ->
       is_nan (VectorStore.magnitude normalized (embedding row)) = false ->
       EmbeddingNormalizer.cosineSimilarity normalized (embedding row) =
       Ok (VectorStore.similarity normalized (embedding row))) /\
    (Z.of_nat (length hits) <= limit)%Z /\
    (Forall (fun row =>
               is_nan (1 - VectorStore.similarity normalized (embedding row))%float
               = false) candidates ->
     Sorted le_distance hits).
Proof.
  intros Hn Hl candidates.
  rewrite (similaritySearch_eq _ _ _ limit libraryFilter w Hn). fold candidates.
  set (all := map (VectorStore.to_hit normalized) candidates).
  set (sorted := array_sort VectorStore.by_distance all).
  assert (Hperm : Permutation sorted all) by apply array_sort_perm.
  rewrite slice_0_nonneg by exact Hl.
  exists (firstn (Z.to_nat limit) sorted), (emit (SelectVectors libraryFilter) (after_init w)).
  split; [reflexivity|]. split; [|split; [|split; [|split]]].
  - exists (skipn (Z.to_nat limit) sorted). now rewrite firstn_skipn.
  - apply Forall_forall. intros h Hh.
    apply In_firstn in Hh.
    apply (Permutation_in _ Hperm) in Hh.
    apply in_map_iff in Hh as (row & <- & Hrow).
    exists row. repeat split. exact Hrow.
  - intros row _ Hlen Hnan. now apply similarity_is_cosine.
  - rewrite length_firstn. lia.
  - intros Hnan. apply Sorted_firstn. apply array_sort_sorted.
    apply Forall_forall. intros h Hh. apply in_map_iff in Hh as (row & <- & Hrow).
    rewrite Forall_forall in Hnan. exact (Hnan row Hrow).
Qed.

Lemma similaritySearch_ranked_witness :
  VectorStore.normalizeEmbedding query_unit gemini
    = Ok (query_unit ++ repeat 0%float 2304) /\
  (0 <= 2)%Z /\
  let w := world_of no_env db_three in
  let normalized := query_unit ++ repeat 0%float 2304 in
  let candidates := selected_rows None (db w) in
  exists hits w',
    VectorStore.similaritySearch query_unit gemini 2 None w = (Ok hits, w') /\
    (exists rest,
        Permutation (hits ++ rest) (map (VectorStore.to_hit normalized) candidates)) /\
    Forall (fun h => exists row, In row candidates /\
                       hitSnippetId h = snippet_id row /\
                       distance h =
                       (1 - VectorStore.similarity normalized (embedding row))%float)
           hits /\
    (forall row, In row candidates ->
       length normalized = length (embedding row) ->
       is_nan (VectorStore.magnitude normalized (embedding row)) = false ->
       EmbeddingNormalizer.cosineSimilarity normalized (embedding row) =
       Ok (VectorStore.similarity normalized (embedding row))) /\
    (Z.of_nat (length hits) <= 2)%Z /\
    (Forall (fun row =>
               is_nan (1 - VectorStore.similarity normalized (embedding row))%float
               = false) candidates ->
     Sorted le_distance hits).
Proof.
  split; [apply normalizeEmbedding_gemini_768; reflexivity|].
  split; [lia|].
  apply (similaritySearch_ranked (world_of no_env db_three) query_unit
           (query_unit ++ repeat 0%float 2304) gemini 2 None).
  - apply normalizeEmbedding_gemini_768; reflexivity.
  - lia.
Defined.

(** C5, refuted as stated.  A query with an entry of [2^1000] makes every
    dot product and query magnitude overflow, so both hits have distance
    [NaN] and are not ordered; with limit [-1] over three candidates,
    [slice(0, -1)] returns two hits, more than the limit; and a query of a
    width that the provider does not produce returns no hits at all: the
    search throws. *)
Lemma similaritySearch_counterexample :
  (exists h1 h2,
      fst (VectorStore.similaritySearch query_huge gemini 10 None
             (world_of no_env db_two)) = Ok [h1; h2] /\
      is_nan (distance h1) = true /\ is_nan (distance h2) = true /\
      ~ Sorted le_distance [h1; h2]) /\
  (exists hits,
      fst (VectorStore.similaritySearch query_unit gemini (-1) None
             (world_of no_env db_three)) = Ok hits /\
      (-1 < Z.of_nat (length hits))%Z) /\
  fst (VectorStore.similaritySearch [1%float; 0%float; 0%float] gemini 10 None
         (world_of no_env db_three)) = Throw (UnsupportedEmbedding gemini 3).
Proof.
  split; [|split].
  - do 2 eexists. split; [vm_compute; reflexivity|].
    split; [reflexivity|]. split; [reflexivity|].
    intros HS. inversion HS as [|? ? _ Hhd]; subst.
    inversion Hhd as [|? ? Hle]; subst. vm_compute in Hle. discriminate.
  - eexists. split; [vm_compute; reflexivity|]. simpl; lia.
  - reflexivity.
Qed.

(** The scenario of three stored vectors: one equal to the query, one
    orthogonal to it, one its negation. *)
Example similaritySearch_three :
  fst (VectorStore.similaritySearch query_unit gemini 10 None
         (world_of no_env db_three)) =
  Ok [ {| hitSnippetId := 1; distance := 0 |};
       {| hitSnippetId := 2; distance := 1 |};
       {| hitSnippetId := 3; distance := 2 |} ].
Proof. vm_compute. reflexivity. Qed.

(* ----------------------------------------------------------------- *)
(** ** Storing vectors *)

Lemma mem_Z_In (x : Z) (l : list Z) : mem_Z x l = true <-> In x l.
Proof.
  unfold mem_Z. rewrite existsb_exists. split.
  - intros (y & Hy & E). apply Z.eqb_eq in E. now subst.
  - intros H. exists x. split; [exact H|apply Z.eqb_refl].
Qed.

Lemma mem_Z_not_In (x : Z) (l : list Z) : mem_Z x l = false <-> ~ In x l.
Proof.
  rewrite <- mem_Z_In. destruct (mem_Z x l); split; congruence.
Qed.

Lemma has_dup_NoDup (l : list Z) : has_dup l = false <-> NoDup l.
Proof.
  induction l as [|x t IH]; simpl.
  - split; [constructor|reflexivity].
  - rewrite orb_false_iff, IH, mem_Z_not_In. split.
    + intros [H1 H2]. now constructor.
    + intros H. inversion H. now split.
Qed.

Lemma NoDup_app_disjoint {A} (l1 l2 : list A) (a : A) :
  NoDup (l1 ++ l2) -> In a l1 -> ~ In a l2.
Proof.
  induction l1 as [|x t IH]; simpl; intros Hnd Hin; [contradiction|].
  inversion Hnd as [|? ? Hx Hnd']; subst.
  destruct Hin as [->|Hin].
  - intros H. apply Hx. apply in_or_app. now right.
  - now apply IH.
Qed.

Lemma map_result_throw {A B} (f : A -> result B) (l : list A) (x : A) (e : JsError) :
  In x l -> f x = Throw e -> exists e', map_result f l = Throw e'.
Proof.
  induction l as [|y t IH]; intros Hin Hx; [contradiction|]. simpl.
  destruct (f y) as [b|e1] eqn:Ey; [|eauto].
  destruct Hin as [->|Hin]; [congruence|].
  destruct (IH Hin Hx) as [e' ->]. eauto.
Qed.

Lemma map_result_throw_first {A B} (f : A -> result B) (l : list A) (e : JsError) :
  map_result f l = Throw e ->
  exists good first rest,
    l = good ++ first :: rest /\
    Forall (fun x => is_ok (f x) = true) good /\ f first = Throw e.
Proof.
  induction l as [|x t IH]; simpl; [discriminate|].
  destruct (f x) as [y|e1] eqn:Ex.
  - destruct (map_result f t) as [ys|e2]; [discriminate|].
    intros H. injection H as <-.
    destruct (IH eq_refl) as (good & first & rest & -> & HF & Hfirst).
    exists (x :: good), first, rest. split; [reflexivity|].
    split; [constructor; [now rewrite Ex|exact HF]|exact Hfirst].
  - intros H. injection H as <-. exists [], x, t.
    split; [reflexivity|]. split; [constructor|exact Ex].
Qed.

Lemma map_result_ok {A B} (f : A -> result B) (l : list A) :
  (forall x, In x l -> is_ok (f x) = true) ->
  exists ys, map_result f l = Ok ys /\ Forall2 (fun x y => f x = Ok y) l ys.
Proof.
  induction l as [|x t IH]; simpl; intros H.
  - exists []. split; [reflexivity|constructor].
  - destruct (f x) as [y|e] eqn:E.
    + destruct IH as (ys & -> & HF); [intros z Hz; apply H; now right|].
      exists (y :: ys). split; [reflexivity|]. now constructor.
    + specialize (H x (or_introl eq_refl)). rewrite E in H. discriminate.
Qed.

Lemma map_result_ok_inv {A B} (f : A -> result B) (l : list A) (ys : list B) :
  map_result f l = Ok ys -> Forall2 (fun x y => f x = Ok y) l ys.
Proof.
  revert ys. induction l as [|x t IH]; simpl; intros ys H.
  - injection H as <-. constructor.
  - destruct (f x) as [y|e] eqn:E; [|discriminate].
    destruct (map_result f t) as [ys'|e]; [|discriminate].
    injection H as <-. constructor; [exact E|now apply IH].
Qed.

Lemma normalizedVector_ids (vectors : list VectorInput) (rows : list VecRow) :
  Forall2 (fun v r => VectorStore.normalizedVector v = Ok r) vectors rows ->
  map snippet_id rows = map snippetId vectors /\ length rows = length vectors.
Proof.
  induction 1 as [|v r vs rs Hv _ [IH1 IH2]]; simpl; [auto|].
  unfold VectorStore.normalizedVector in Hv.
  destruct (VectorStore.normalizeEmbedding _ _); [|discriminate].
  injection Hv as <-. simpl. now rewrite IH1, IH2.
Qed.

Lemma slice_chunk {A} (l : list A) (i n : nat) :
  i <= length l ->
  slice l (Z.of_nat i) (Z.of_nat (i + n)) = firstn n (skipn i l).
Proof.
  intros Hi. unfold slice.
  destruct (Z.of_nat i <? 0)%Z eqn:E1; [apply Z.ltb_lt in E1; lia|].
  destruct (Z.of_nat (i + n) <? 0)%Z eqn:E2; [apply Z.ltb_lt in E2; lia|].
  rewrite (Z.min_l (Z.of_nat i)) by lia. rewrite Nat2Z.id.
  destruct (Nat.le_ge_cases (i + n) (length l)) as [H|H].
  - rewrite Z.min_l by lia. f_equal. lia.
  - rewrite Z.min_r by lia.
    replace (Z.to_nat (Z.of_nat (length l) - Z.of_nat i)) with (length (skipn i l))
      by (rewrite length_skipn; lia).
    rewrite firstn_all. symmetry. apply firstn_all2. rewrite length_skipn. lia.
Qed.

Lemma inserted_batches_app (t1 t2 : list Event) :
  inserted_batches (t1 ++ t2) = inserted_batches t1 ++ inserted_batches t2.
Proof.
  induction t1 as [|e t IH]; simpl; [reflexivity|].
  destruct e; simpl; now rewrite ?IH.
Qed.

Lemma inserted_batches_map (batches : list (list VecRow)) :
  inserted_batches (map InsertVectors batches) = batches.
Proof. induction batches; simpl; congruence. Qed.

Lemma insert_vectors_ok (rows : list VecRow) (w : World) :
  NoDup (map snippet_id rows) ->
  (forall r, In r rows ->
             ~ In (snippet_id r) (map snippet_id (snippets_vec_fallback (db w)))) ->
  exists w',
    insert_vectors rows w = (Ok tt, w') /\
    snippets_vec_fallback (db w') = snippets_vec_fallback (db w) ++ rows /\
    trace w' = trace w ++ [InsertVectors rows] /\
    same_outside_vectors w w'.
Proof.
  intros Hnd Hfresh. unfold insert_vectors.
  assert (E1 : existsb (fun r => mem_Z (snippet_id r)
                          (map snippet_id (snippets_vec_fallback (db w)))) rows = false).
  { apply not_true_is_false. intros H. apply existsb_exists in H as (r & Hr & Hm).
    apply mem_Z_In in Hm. exact (Hfresh r Hr Hm). }
  apply has_dup_NoDup in Hnd. rewrite E1, Hnd. simpl.
  eexists. split; [reflexivity|]. simpl. repeat split; reflexivity.
Qed.

Lemma insert_vectors_inv (rows : list VecRow) (w w' : World) :
  insert_vectors rows w = (Ok tt, w') ->
  snippets_vec_fallback (db w') = snippets_vec_fallback (db w) ++ rows /\
  trace w' = trace w ++ [InsertVectors rows] /\
  same_outside_vectors w w'.
Proof.
  unfold insert_vectors. destruct (_ || _); [discriminate|].
  intros H. injection H as <-. simpl. unfold same_outside_vectors. simpl. auto 10.
Qed.

(** What the insertion loop has done when it returns: the rows from index
    [i] on are in the table, inserted by statements of at most 50 rows
    each, all of them full but possibly the last. *)
Lemma insert_batches_inv (fuel : nat) :
  forall (rows : list VecRow) (i : nat) (w w' : World),
    length rows - i <= fuel ->
    VectorStore.insert_batches fuel rows i w = (Ok tt, w') ->
    exists batches,
      snippets_vec_fallback (db w') = snippets_vec_fallback (db w) ++ skipn i rows /\
      trace w' = trace w ++ map InsertVectors batches /\
      concat batches = skipn i rows /\
      Forall (fun b => 1 <= length b <= VectorStore.BATCH_SIZE) batches /\
      all_but_last_full VectorStore.BATCH_SIZE batches /\
      same_outside_vectors w w'.
Proof.
  induction fuel as [|fuel IH]; intros rows i w w' Hfuel E.
  - injection E as <-. exists []. simpl. rewrite skipn_all2 by lia.
    rewrite !app_nil_r. unfold same_outside_vectors. repeat split; constructor.
  - cbn [VectorStore.insert_batches] in E.
    destruct (i <? length rows) eqn:Ei.
    + apply Nat.ltb_lt in Ei. rewrite slice_chunk in E by lia.
      set (rest := skipn i rows) in *.
      set (batch := firstn VectorStore.BATCH_SIZE rest) in *.
      assert (Hrest : rest = batch ++ skipn VectorStore.BATCH_SIZE rest)
        by (symmetry; apply firstn_skipn).
      assert (Hlen : length rest = length rows - i) by apply length_skipn.
      unfold bind in E.
      destruct (insert_vectors batch w) as [[[]|e] w1] eqn:E1; [|discriminate].
      apply insert_vectors_inv in E1 as (T1 & Tr1 & S1).
      apply IH in E; [|unfold VectorStore.BATCH_SIZE; lia].
      destruct E as (bs & T2 & Tr2 & C2 & F2 & L2 & S2).
      rewrite Nat.add_comm, <- skipn_skipn in T2, C2. fold rest in T2, C2.
      exists (batch :: bs).
      split; [rewrite T2, T1, <- app_assoc; now rewrite <- Hrest|].
      split; [rewrite Tr2, Tr1, <- app_assoc; reflexivity|].
      split; [simpl; rewrite C2; now rewrite <- Hrest|].
      assert (Hb : length batch = Nat.min VectorStore.BATCH_SIZE (length rest))
        by apply length_firstn.
      split; [constructor; [unfold VectorStore.BATCH_SIZE in *; lia|exact F2]|].
      split.
      * cbn [all_but_last_full]. split; [|exact L2].
        destruct bs as [|b bs']; [exact I|].
        inversion F2 as [|? ? Hb1 _]; subst.
        assert (Hne : length (skipn VectorStore.BATCH_SIZE rest) <> 0).
        { rewrite <- C2. simpl. rewrite length_app. lia. }
        rewrite length_skipn in Hne. lia.
      * unfold same_outside_vectors in *. intuition congruence.
    + apply Nat.ltb_ge in Ei. injection E as <-. exists []. simpl.
      rewrite skipn_all2 by lia.
      rewrite !app_nil_r. unfold same_outside_vectors. repeat split; constructor.
Qed.

(** With distinct identifiers that the table does not hold, the loop
    returns. *)
Lemma insert_batches_succeeds (fuel : nat) :
  forall (rows : list VecRow) (i : nat) (w : World),
    NoDup (map snippet_id (skipn i rows)) ->
    (forall r, In r (skipn i rows) ->
               ~ In (snippet_id r) (map snippet_id (snippets_vec_fallback (db w)))) ->
    exists w', VectorStore.insert_batches fuel rows i w = (Ok tt, w').
Proof.
  induction fuel as [|fuel IH]; intros rows i w Hnd Hfresh.
  - exists w. reflexivity.
  - cbn [VectorStore.insert_batches].
    destruct (i <? length rows) eqn:Ei; [|exists w; reflexivity].
    apply Nat.ltb_lt in Ei. rewrite slice_chunk by lia.
    set (rest := skipn i rows) in *.
    set (batch := firstn VectorStore.BATCH_SIZE rest).
    assert (Hrest : rest = batch ++ skipn VectorStore.BATCH_SIZE rest)
      by (symmetry; apply firstn_skipn).
    assert (Hnd' := Hnd). rewrite Hrest, map_app in Hnd'.
    destruct (insert_vectors_ok batch w) as (w1 & E1 & T1 & _).
    { eapply NoDup_app_remove_r. exact Hnd'. }
    { intros r Hr. apply Hfresh. rewrite Hrest. apply in_or_app. now left. }
    unfold bind. rewrite E1. apply IH.
    + rewrite Nat.add_comm, <- skipn_skipn. fold rest.
      eapply NoDup_app_remove_l. exact Hnd'.
    + rewrite Nat.add_comm, <- skipn_skipn. fold rest.
      intros r Hr. rewrite T1, map_app. intros Hin.
      apply in_app_or in Hin as [Hin|Hin].
      * apply (Hfresh r); [|exact Hin]. rewrite Hrest. apply in_or_app. now right.
      * apply (NoDup_app_disjoint _ _ (snippet_id r) Hnd' Hin). now apply in_map.
Qed.


(** [storeVectors] on a non-empty batch: delete, normalise, insert. *)
Lemma storeVectors_unfold (vectors : list VectorInput) (w : World) :
  vectors <> [] ->
  VectorStore.storeVectors vectors w =
  let w1 := set_db (with_vectors (kept_vectors (map snippetId vectors) (db w))
                                 (db (after_init w)))
                   (emit (DeleteVectors (map snippetId vectors)) (after_init w)) in
  match map_result VectorStore.normalizedVector vectors with
  | Throw e => (Throw e, w1)
  | Ok rows => VectorStore.insert_batches (length rows) rows 0 w1
  end.
Proof.
  intros Hne. unfold VectorStore.storeVectors, bind. rewrite init_eq.
  destruct vectors as [|v vs]; [congruence|].
  cbn [length Nat.eqb]. rewrite length_map. cbn [length Nat.ltb Nat.leb].
  unfold delete_vectors, lift, kept_vectors. rewrite after_init_db.
  destruct (map_result VectorStore.normalizedVector (v :: vs)); reflexivity.
Qed.

Lemma kept_vectors_fresh (ids : list Z) (d : Database) (x : Z) :
  In x ids -> ~ In x (map snippet_id (kept_vectors ids d)).
Proof.
  intros Hx Hin. apply in_map_iff in Hin as (r & <- & Hr).
  unfold kept_vectors in Hr. apply filter_In in Hr as [_ Hr].
  apply negb_true_iff, mem_Z_not_In in Hr. contradiction.
Qed.

Lemma kept_vectors_nil (d : Database) :
  kept_vectors [] d = snippets_vec_fallback d.
Proof.
  unfold kept_vectors, mem_Z.
  induction (snippets_vec_fallback d) as [|r t IH]; simpl;
    [reflexivity|f_equal; exact IH].
Qed.

Lemma inserted_batches_pre (pre : list Event) :
  Forall (fun e => is_vector_write e = false /\ is_metadata_event e = false) pre ->
  inserted_batches pre = [].
Proof.
  induction 1 as [|e t [He _] _ IH]; [reflexivity|].
  destruct e; simpl in *; try discriminate; exact IH.
Qed.

(** What [storeVectors] has done when it returns. *)
Lemma storeVectors_ok_inv (vectors : list VectorInput) (w w' : World) :
  VectorStore.storeVectors vectors w = (Ok tt, w') ->
  exists rows batches,
    map_result VectorStore.normalizedVector vectors = Ok rows /\
    snippets_vec_fallback (db w') =
      kept_vectors (map snippetId vectors) (db w) ++ rows /\
    inserted_batches (trace w') = inserted_batches (trace w) ++ batches /\
    concat batches = rows /\
    Forall (fun b => 1 <= length b <= VectorStore.BATCH_SIZE) batches /\
    all_but_last_full VectorStore.BATCH_SIZE batches /\
    snippets (db w') = snippets (db w).
Proof.
  destruct (after_init_trace w) as (pre & Hpre & Fpre).
  apply inserted_batches_pre in Fpre.
  destruct vectors as [|v vs].
  - unfold VectorStore.storeVectors, bind. rewrite init_eq. simpl.
    intros H. injection H as <-. exists [], [].
    rewrite Hpre, inserted_batches_app, Fpre, after_init_db, kept_vectors_nil.
    rewrite !app_nil_r. repeat split; constructor.
  - rewrite storeVectors_unfold by discriminate. cbv zeta.
    destruct (map_result VectorStore.normalizedVector (v :: vs)) as [rows|e];
      [|discriminate].
    intros E. apply insert_batches_inv in E; [|lia].
    destruct E as (batches & T & Tr & C & F & L & S).
    rewrite skipn_O in T, C. exists rows, batches.
    split; [reflexivity|]. split; [exact T|].
    split; [|split; [exact C|split; [exact F|split; [exact L|]]]].
    + rewrite Tr. simpl. rewrite Hpre.
      rewrite !inserted_batches_app, inserted_batches_map, Fpre. simpl.
      now rewrite !app_nil_r.
    + destruct S as [S _]. rewrite S. simpl. now rewrite after_init_db.
Qed.

Lemma storeVectors_succeeds (vectors : list VectorInput) (w : World) :
  has_dup (map snippetId vectors) = false ->
  forallb (fun v => is_ok (VectorStore.normalizeEmbedding
                             (rawEmbedding v) (inputProvider v))) vectors = true ->
  exists w', VectorStore.storeVectors vectors w = (Ok tt, w').
Proof.
  intros Hnd Hok.
  destruct (map_result_ok VectorStore.normalizedVector vectors) as (rows & Hrows & HF).
  { intros v Hv. rewrite forallb_forall in Hok. specialize (Hok v Hv).
    unfold VectorStore.normalizedVector.
    now destruct (VectorStore.normalizeEmbedding _ _). }
  destruct (normalizedVector_ids vectors rows HF) as [Hids Hlen].
  destruct vectors as [|v vs].
  - exists (after_init w). unfold VectorStore.storeVectors, bind.
    now rewrite init_eq.
  - rewrite storeVectors_unfold by discriminate. rewrite Hrows. cbv zeta.
    set (ids := map snippetId (v :: vs)) in *.
    apply insert_batches_succeeds.
    + rewrite skipn_O, Hids. now apply has_dup_NoDup.
    + rewrite skipn_O. intros r Hr. simpl.
      apply kept_vectors_fresh. rewrite <- Hids. now apply in_map.
Qed.

Lemma storeVectors_throws (vectors : list VectorInput) (w : World) (e : JsError) :
  map_result VectorStore.normalizedVector vectors = Throw e ->
  VectorStore.storeVectors vectors w =
  (Throw e,
   set_db (with_vectors (kept_vectors (map snippetId vectors) (db w))
                        (db (after_init w)))
          (emit (DeleteVectors (map snippetId vectors)) (after_init w))).
Proof.
  intros H. rewrite storeVectors_unfold by (intros ->; discriminate).
  now rewrite H.
Qed.

Lemma normalizedVector_persisted (v : VectorInput) (r : VecRow) :
  VectorStore.normalizedVector v = Ok r -> persisted_as v r.
Proof.
  unfold VectorStore.normalizedVector, persisted_as.
  destruct (VectorStore.normalizeEmbedding _ _) as [normalized|e] eqn:E;
    [|discriminate].
  intros H. injection H as <-. cbn [snippet_id embedding].
  split; [reflexivity|]. exists normalized. split; [reflexivity|].
  split; [|split; [apply length_map|reflexivity]].
  apply normalizeEmbedding_cases in E.
  destruct E as [(_ & _ & ->)|[(_ & _ & ->)|(_ & _ & ->)]]; auto.
Qed.

(** C6: when the identifiers of the batch are distinct and every record
    normalises, [storeVectors] returns; and whenever it returns, it has
    persisted exactly one row per record after deleting the rows that
    carried those identifiers: [N] records give [N] rows.  The row of a
    record carries its identifier and its normalised vector, which is the
    record's vector as it is or padded with zeros, each entry rounded to
    binary32.  The rows are inserted by statements of at most 50 rows,
    none empty, and every statement but the last carries exactly 50. *)
Theorem storeVectors_persists_all (vectors : list VectorInput) (w : World) :
  (has_dup (map snippetId vectors) = false ->
   forallb (fun v => is_ok (VectorStore.normalizeEmbedding
                              (rawEmbedding v) (inputProvider v))) vectors = true ->
   exists w', VectorStore.storeVectors vectors w = (Ok tt, w')) /\
  (forall w',
     VectorStore.storeVectors vectors w = (Ok tt, w') ->
     exists rows batches,
       Forall2 persisted_as vectors rows /\
       map_result VectorStore.normalizedVector vectors = Ok rows /\
       map snippet_id rows = map snippetId vectors /\
       length rows = length vectors /\
       Permutation (snippets_vec_fallback (db w'))
                   (kept_vectors (map snippetId vectors) (db w) ++ rows) /\
       (forall r, In r rows -> In r (snippets_vec_fallback (db w'))) /\
       length (snippets_vec_fallback (db w')) =
         length (kept_vectors (map snippetId vectors) (db w)) + length vectors /\
       inserted_batches (trace w') = inserted_batches (trace w) ++ batches /\
       concat batches = rows /\
       Forall (fun b => 1 <= length b <= 50) batches /\
       all_but_last_full 50 batches).
Proof.
  split; [apply storeVectors_succeeds|].
  intros w' E.
  destruct (storeVectors_ok_inv vectors w w' E)
    as (rows & batches & Hrows & T & Tr & C & F & L & _).
  pose proof (map_result_ok_inv _ _ _ Hrows) as HF.
  destruct (normalizedVector_ids vectors rows HF) as [Hids Hlen].
  exists rows, batches.
  split; [eapply Forall2_impl; [exact normalizedVector_persisted|exact HF]|].
  split; [exact Hrows|]. split; [exact Hids|]. split; [exact Hlen|].
  split; [now rewrite T|].
  split; [intros r Hr; rewrite T; apply in_or_app; now right|].
  split; [now rewrite T, length_app, Hlen|].
  split; [exact Tr|]. split; [exact C|]. split; [exact F|exact L].
Qed.

Lemma storeVectors_persists_all_witness :
  exists w' rows batches,
    VectorStore.storeVectors vectors_120 (world_of no_env empty_db) = (Ok tt, w') /\
    Forall2 persisted_as vectors_120 rows /\
    map embedding rows = repeat (repeat 1%float 1536) 120 /\
    map snippet_id rows = map Z.of_nat (seq 1 120) /\
    length rows = 120 /\
    Permutation (snippets_vec_fallback (db w')) rows /\
    length (snippets_vec_fallback (db w')) = 120 /\
    inserted_batches (trace w') = batches /\
    concat batches = rows /\
    Forall (fun b => 1 <= length b <= 50) batches /\
    all_but_last_full 50 batches.
Proof.
  destruct (storeVectors_persists_all vectors_120 (world_of no_env empty_db))
    as [Hreturns Hrows].
  destruct Hreturns as [w' E]; [vm_compute; reflexivity|vm_compute; reflexivity|].
  destruct (Hrows w' E)
    as (rows & batches & H0 & H1 & H2 & H3 & H4 & _ & H5 & H6 & H7 & H8 & H9).
  assert (Hc : Ok rows =
               Ok (map (fun k => Build_VecRow (Z.of_nat k) (repeat 1%float 1536))
                       (seq 1 120))).
  { rewrite <- H1. vm_compute. reflexivity. }
  exists w', rows, batches.
  split; [exact E|]. split; [exact H0|].
  split; [injection Hc as ->; vm_compute; reflexivity|].
  split; [exact H2|]. split; [exact H3|]. split; [exact H4|].
  split; [exact H5|]. split; [exact H6|]. split; [exact H7|].
  split; [exact H8|exact H9].
Defined.


(** C2, as the code has it: [storeVectors] does not catch a normalisation
    error.  If any record of the batch fails to normalise, the call throws
    after the initial delete: no row of the batch is in the table
    afterwards, and the only statement issued is the delete.  The error
    thrown is the normalisation error of the first record that fails. *)
Theorem storeVectors_propagates_normalization_error
    (vectors : list VectorInput) (w : World) (bad : VectorInput) (e : JsError) :
  In bad vectors ->
  VectorStore.normalizeEmbedding (rawEmbedding bad) (inputProvider bad) = Throw e ->
  exists e' w',
    VectorStore.storeVectors vectors w = (Throw e', w') /\
    snippets_vec_fallback (db w') = kept_vectors (map snippetId vectors) (db w) /\
    (forall v, In v vectors ->
               ~ In (snippetId v) (map snippet_id (snippets_vec_fallback (db w')))) /\
    trace w' = trace (after_init w) ++ [DeleteVectors (map snippetId vectors)] /\
    (exists good first rest,
        vectors = good ++ first :: rest /\
        Forall (fun v => is_ok (VectorStore.normalizeEmbedding
                                  (rawEmbedding v) (inputProvider v)) = true) good /\
        VectorStore.normalizeEmbedding (rawEmbedding first) (inputProvider first)
        = Throw e').
Proof.
  intros Hin Hbad.
  destruct (map_result_throw VectorStore.normalizedVector vectors bad e Hin) as [e' He'].
  { unfold VectorStore.normalizedVector. now rewrite Hbad. }
  rewrite (storeVectors_throws vectors w e' He').
  eexists e', _. split; [reflexivity|]. simpl. split; [reflexivity|].
  split; [|split; [reflexivity|]].
  - intros v Hv. apply kept_vectors_fresh. now apply in_map.
  - destruct (map_result_throw_first _ _ _ He')
      as (good & first & rest & Hl & HF & Hfirst).
    exists good, first, rest. split; [exact Hl|]. split.
    + eapply Forall_impl; [|exact HF]. intros v Hv. cbv beta in Hv |- *.
      unfold VectorStore.normalizedVector in Hv.
      now destruct (VectorStore.normalizeEmbedding (rawEmbedding v)
                                                   (inputProvider v)).
    + unfold VectorStore.normalizedVector in Hfirst.
      destruct (VectorStore.normalizeEmbedding (rawEmbedding first)
                                               (inputProvider first));
        [discriminate|congruence].
Qed.

(** The scenario of 120 records: three statements, of 50, 50 and 20 rows,
    and 120 rows in the table, each with the identifier and the 1536
    entries of its record. *)
Example storeVectors_120 :
  let w' := snd (VectorStore.storeVectors vectors_120 (world_of no_env empty_db)) in
  fst (VectorStore.storeVectors vectors_120 (world_of no_env empty_db)) = Ok tt /\
  map (@length VecRow) (inserted_batches (trace w')) = [50; 50; 20] /\
  length (snippets_vec_fallback (db w')) = 120 /\
  map snippet_id (snippets_vec_fallback (db w')) = map Z.of_nat (seq 1 120) /\
  map embedding (snippets_vec_fallback (db w'))
  = repeat (repeat 1%float 1536) 120.
Proof. vm_compute. repeat split. Qed.

(** C2, refuted as stated: in a batch of three records whose second one
    cannot be normalised, the error leaves [storeVectors]; the two good
    records are not inserted, and the vector that snippet 1 had before is
    gone. *)
Lemma storeVectors_counterexample :
  let r := VectorStore.storeVectors batch_with_bad (world_of no_env db_old_vector) in
  fst r = Throw (UnsupportedEmbedding gemini 3) /\
  snippets_vec_fallback (db (snd r)) = [] /\
  inserted_batches (trace (snd r)) = [] /\
  trace (snd r) = [Console WarnSqliteVecDisabled; Console WarnUsingFallbackTable;
                   DeleteVectors [1%Z; 2%Z; 3%Z]].
Proof. vm_compute. repeat split. Qed.

Lemma storeVectors_propagates_normalization_error_witness :
  In bad_record batch_with_bad /\
  VectorStore.normalizeEmbedding (rawEmbedding bad_record)
    (inputProvider bad_record) = Throw (UnsupportedEmbedding gemini 3) /\
  exists e' w',
    VectorStore.storeVectors batch_with_bad (world_of no_env db_old_vector)
      = (Throw e', w') /\
    snippets_vec_fallback (db w') =
      kept_vectors (map snippetId batch_with_bad) db_old_vector /\
    (forall v, In v batch_with_bad ->
               ~ In (snippetId v) (map snippet_id (snippets_vec_fallback (db w')))) /\
    trace w' = trace (after_init (world_of no_env db_old_vector))
               ++ [DeleteVectors (map snippetId batch_with_bad)] /\
    (exists good first rest,
        batch_with_bad = good ++ first :: rest /\
        Forall (fun v => is_ok (VectorStore.normalizeEmbedding
                                  (rawEmbedding v) (inputProvider v)) = true) good /\
        VectorStore.normalizeEmbedding (rawEmbedding first) (inputProvider first)
        = Throw e').
Proof.
  split; [simpl; auto|]. split; [reflexivity|].
  apply (storeVectors_propagates_normalization_error batch_with_bad
           (world_of no_env db_old_vector) bad_record
           (UnsupportedEmbedding gemini 3)).
  - simpl; auto.
  - reflexivity.
Defined.

(* ----------------------------------------------------------------- *)
(** ** Inserting snippets *)

Lemma insert_batches_frame (fuel : nat) : forall (rows : list VecRow) (i : nat) (w : World),
  exists r w' post,
    VectorStore.insert_batches fuel rows i w = (r, w') /\
    trace w' = trace w ++ post /\
    Forall (fun e => is_metadata_event e = false) post /\
    snippets (db w') = snippets (db w).
Proof.
  induction fuel as [|fuel IH]; intros rows i w; cbn [VectorStore.insert_batches].
  - exists (Ok tt), w, []. rewrite app_nil_r. repeat split; constructor.
  - destruct (i <? length rows).
    + unfold bind, insert_vectors.
      set (batch := slice rows _ _).
      destruct (_ || _).
      * do 3 eexists. split; [reflexivity|]. simpl.
        split; [reflexivity|]. split; [|reflexivity]. repeat constructor.
      * match goal with
        | |- context [VectorStore.insert_batches fuel rows ?j ?w1] =>
            destruct (IH rows j w1) as (r & w' & post & E & T & F & S)
        end.
        exists r, w', (InsertVectors batch :: post).
        split; [exact E|]. rewrite T, S. simpl. rewrite <- app_assoc.
        split; [reflexivity|]. split; [|reflexivity]. now constructor.
    + exists (Ok tt), w, []. rewrite app_nil_r. repeat split; constructor.
Qed.

Lemma storeVectors_frame (vectors : list VectorInput) (w : World) :
  vecInitialized w = true -> vectors <> [] ->
  exists r w' post,
    VectorStore.storeVectors vectors w = (r, w') /\
    trace w' = trace w ++ DeleteVectors (map snippetId vectors) :: post /\
    Forall (fun e => is_metadata_event e = false) post /\
    snippets (db w') = snippets (db w).
Proof.
  intros Hi Hne. rewrite storeVectors_unfold by exact Hne. cbv zeta.
  rewrite (after_init_idem w Hi).
  destruct (map_result VectorStore.normalizedVector vectors) as [rows|e].
  - match goal with
    | |- context [VectorStore.insert_batches ?f rows 0 ?w1] =>
        destruct (insert_batches_frame f rows 0 w1) as (r & w' & post & E & T & F & S)
    end.
    exists r, w', post. split; [exact E|]. rewrite T, S. simpl.
    rewrite <- app_assoc. repeat split; assumption.
  - do 3 eexists. split; [reflexivity|]. simpl.
    split; [reflexivity|]. split; [constructor|reflexivity].
Qed.

Lemma reference_ok_ext (d d' : Database) (m : SnippetMeta) :
  libraries d' = libraries d -> foreign_keys d' = foreign_keys d ->
  reference_ok d' m = reference_ok d m.
Proof. intros H1 H2. unfold reference_ok. now rewrite H1, H2. Qed.

(** What the transaction body does: one row and one event per snippet, in
    the order of the input; it stops at the first failing INSERT, and no
    INSERT fails when every reference holds. *)
Lemma insert_all_spec (p : EmbeddingProvider) (records : list SnippetInput) :
  forall w, exists rows r w',
    SnippetStoreV2.insert_all p records w = (r, w') /\
    trace w' = trace w ++ map InsertSnippet rows /\
    snippets (db w') = snippets (db w) ++ rows /\
    snippets_vec_fallback (db w') = snippets_vec_fallback (db w) /\
    libraries (db w') = libraries (db w) /\
    foreign_keys (db w') = foreign_keys (db w) /\
    env w' = env w /\ vecInitialized w' = vecInitialized w /\
    (forall ids, r = Ok ids ->
       ids = map id rows /\
       map meta rows = map inputMeta records /\
       ids = map (fun k => (snippets_seq (db w) + 1 + Z.of_nat k)%Z)
                 (seq 0 (length records))) /\
    (forallb (fun s => reference_ok (db w) (inputMeta s)) records = true ->
     exists ids, r = Ok ids).
Proof.
  unfold SnippetStoreV2.insert_all.
  induction records as [|s t IH]; intros w; cbn [for_each].
  - exists [], (Ok []), w. unfold ret. rewrite !app_nil_r.
    do 8 (split; [reflexivity|]). split; [|eauto].
    intros ids H. injection H as <-. repeat split.
  - unfold bind at 1. unfold insert_snippet at 1.
    destruct (reference_ok (db w) (inputMeta s)) eqn:Eref; cbn [negb].
    + set (row := {| id := (snippets_seq (db w) + 1)%Z; meta := inputMeta s;
                     provider := p; embedding_dims := length (inputEmbedding s) |}).
      set (w1 := set_db _ _).
      destruct (IH w1) as (rows & r & w' & E & T & S & V & L & F & En & I & Hok & Hall).
      unfold bind at 1. rewrite E.
      assert (Hall' : forallb (fun s0 => reference_ok (db w) (inputMeta s0)) (s :: t)
                      = true -> exists ids, r = Ok ids).
      { intros H. cbn [forallb] in H. apply andb_true_iff in H as [_ H].
        apply Hall. rewrite forallb_forall in H. apply forallb_forall.
        intros s0 Hs0. rewrite <- (H s0 Hs0). now apply reference_ok_ext. }
      destruct r as [ids|e].
      * exists (row :: rows), (Ok (id row :: ids)), w'. unfold ret.
        split; [reflexivity|]. rewrite T, S, V, L, F, En, I. subst w1. simpl.
        rewrite <- !app_assoc.
        do 7 (split; [reflexivity|]). split; [|eauto].
        intros ids' H. injection H as <-.
        destruct (Hok ids eq_refl) as (H1 & H2 & H3).
        split; [now rewrite H1|]. split; [now rewrite H2|].
        rewrite H3. simpl. f_equal; [lia|].
        rewrite <- seq_shift, map_map. apply map_ext. intros k. lia.
      * exists (row :: rows), (Throw e), w'.
        split; [reflexivity|]. rewrite T, S, V, L, F, En, I. subst w1. simpl.
        rewrite <- !app_assoc. do 7 (split; [reflexivity|]).
        split; [discriminate|]. intros H. destruct (Hall' H) as [ids Hids].
        discriminate.
    + exists [], (Throw ConstraintFailed), w. rewrite !app_nil_r.
      do 8 (split; [reflexivity|]). split; [discriminate|].
      cbn [forallb]. rewrite Eref. discriminate.
Qed.

Lemma map_nth_seq {A} (l : list A) (d : A) :
  map (fun i => nth i l d) (seq 0 (length l)) = l.
Proof.
  induction l as [|x t IH]; [reflexivity|]. simpl.
  f_equal. rewrite <- seq_shift, map_map. exact IH.
Qed.

Lemma vectorOperations_ids (p : EmbeddingProvider) (records : list SnippetInput)
    (ids : list Z) :
  length ids = length records ->
  map snippetId (SnippetStoreV2.vectorOperations p records ids) = ids.
Proof.
  intros H. unfold SnippetStoreV2.vectorOperations. rewrite map_map.
  transitivity (map (fun i => nth i ids 0%Z) (seq 0 (length ids)));
    [|apply map_nth_seq].
  rewrite H. set (n := length records).
  assert (Hc : map snd (combine records (seq 0 n)) = seq 0 n).
  { clear. unfold n. generalize 0. induction records as [|s t IH]; intros k; simpl;
      [reflexivity|]. now rewrite IH. }
  rewrite <- Hc at 2. rewrite map_map. apply map_ext. now intros [s i].
Qed.

(** Brings a trace built with nested appends to right-nested form. *)
Ltac flatten_trace :=
  repeat first [rewrite <- app_assoc | progress cbn [app]].

Lemma NoDup_map_injective {A B} (f : A -> B) (l : list A) :
  (forall a b, f a = f b -> a = b) -> NoDup l -> NoDup (map f l).
Proof.
  intros Hf. induction 1 as [|x t Hx _ IH]; simpl; constructor; [|exact IH].
  intros H. apply in_map_iff in H as (y & E & Hy). apply Hf in E. now subst.
Qed.

Lemma NoDup_consecutive (base : Z) (n : nat) :
  NoDup (map (fun k => (base + Z.of_nat k)%Z) (seq 0 n)).
Proof.
  apply NoDup_map_injective; [|apply seq_NoDup]. intros a b H. lia.
Qed.

Lemma vectorOperations_In (p : EmbeddingProvider) (records : list SnippetInput)
    (ids : list Z) (v : VectorInput) :
  In v (SnippetStoreV2.vectorOperations p records ids) ->
  exists s, In s records /\ rawEmbedding v = inputEmbedding s /\ inputProvider v = p.
Proof.
  unfold SnippetStoreV2.vectorOperations. intros H.
  apply in_map_iff in H as ([s i] & <- & Hin).
  apply in_combine_l in Hin. exists s. auto.
Qed.

(** C4: for a non-empty input, [insertSnippets] asks the driver for one
    deferred transaction, which begins in the mode that the driver has for
    that request: deferred only if the driver passes the behaviour on.
    Inside the transaction the code issues one metadata INSERT per record
    and nothing else, and closes it.  Every vector-store write comes after
    the commit; after a rollback there is none and the database is as
    before.  When the call returns, it returns the generated identifiers
    in the order of the input: the [k]-th identifier belongs to the row
    that holds the metadata of the [k]-th record, and the vector table
    holds one row for each of them.  And it does return when every
    reference to a library holds and every embedding normalises. *)
Theorem insertSnippets_commits_then_stores
    (records : list SnippetInput) (w : World) :
  length records <> 0 ->
  exists pre rows closing post r w',
    SnippetStoreV2.insertSnippets records w = (r, w') /\
    trace w' = trace w ++ pre ++
               TxBegin (begin_mode (driver w) deferred)
               :: map InsertSnippet rows ++ closing :: post /\
    Forall (fun e => is_vector_write e = false /\ is_metadata_event e = false) pre /\
    Forall (fun e => is_metadata_event e = false) post /\
    (closing = TxCommit \/
     (closing = TxRollback /\ post = [] /\ db w' = db w /\
      exists e, r = Throw e)) /\
    (forall ids, r = Ok ids ->
       closing = TxCommit /\
       ids = map id rows /\
       map meta rows = map inputMeta records /\
       ids = map (fun k => (snippets_seq (db w) + 1 + Z.of_nat k)%Z)
                 (seq 0 (length records)) /\
       snippets (db w') = snippets (db w) ++ rows /\
       In (DeleteVectors ids) post /\
       exists vrows,
         Permutation (snippets_vec_fallback (db w'))
                     (kept_vectors ids (db w) ++ vrows) /\
         map snippet_id vrows = ids) /\
    (forallb (fun s => reference_ok (db w) (inputMeta s)) records = true ->
     forallb (fun s => is_ok (VectorStore.normalizeEmbedding (inputEmbedding s)
                                (currentProvider (env w)))) records = true ->
     exists ids, r = Ok ids).
Proof.
  intros Hne.
  destruct (after_init_trace w) as (pre & Hpre & Fpre).
  unfold SnippetStoreV2.insertSnippets, SnippetStoreV2.init, bind at 1.
  rewrite init_eq. apply Nat.eqb_neq in Hne. rewrite Hne.
  unfold bind at 1, getCurrentProvider. rewrite after_init_env.
  set (p := currentProvider (env w)).
  unfold bind at 1. unfold transaction.
  destruct (insert_all_spec p records (emit (TxBegin (begin_mode (driver (after_init w)) deferred))
                 (after_init w)))
    as (rows & r1 & w3 & E & T & S & V & L & F & En & I & Hok & Hall).
  rewrite E. simpl in T, S, V, L, F, En, I, Hok, Hall. rewrite after_init_db in *.
  rewrite after_init_driver in *.
  destruct r1 as [ids|e].
  - destruct (Hok ids eq_refl) as (H1 & H2 & H3).
    assert (Hlen : length ids = length records).
    { rewrite H3. now rewrite length_map, length_seq. }
    unfold bind at 1, log at 1.
    set (w4 := emit (Console LogBuildingIndex) (emit TxCommit w3)).
    set (ops := SnippetStoreV2.vectorOperations p records ids).
    assert (Hops : map snippetId ops = ids) by now apply vectorOperations_ids.
    assert (Hopsne : ops <> []).
    { intros E0. apply Nat.eqb_neq in Hne.
      assert (Hl : length ids = length ops) by (now rewrite <- Hops, length_map).
      rewrite E0 in Hl. simpl in Hl. lia. }
    assert (Hinit : vecInitialized w4 = true).
    { subst w4. simpl. rewrite I. simpl. apply after_init_initialized. }
    destruct (storeVectors_frame ops w4 Hinit Hopsne)
      as (r2 & w5 & post & E2 & T2 & F2 & S2).
    unfold bind at 1. rewrite E2. rewrite Hops in T2.
    assert (Tw5 : trace w5 = trace w ++ pre ++
                    TxBegin (begin_mode (driver w) deferred) ::
                    map InsertSnippet rows ++ TxCommit ::
                    Console LogBuildingIndex :: DeleteVectors ids :: post).
    { rewrite T2. subst w4. simpl. rewrite T, Hpre. now flatten_trace. }
    assert (Hreturns :
      forallb (fun s => is_ok (VectorStore.normalizeEmbedding (inputEmbedding s) p))
              records = true -> r2 = Ok tt).
    { intros Hnorm.
      destruct (storeVectors_succeeds ops w4) as [w5' E5].
      - rewrite Hops. apply has_dup_NoDup. rewrite H3.
        apply (NoDup_consecutive (snippets_seq (db w) + 1)).
      - apply forallb_forall. intros v Hv.
        apply vectorOperations_In in Hv as (s & Hs & -> & ->).
        rewrite forallb_forall in Hnorm. now apply Hnorm.
      - rewrite E2 in E5. congruence. }
    destruct r2 as [[]|e2].
    + exists pre, rows, TxCommit,
        (Console LogBuildingIndex :: DeleteVectors ids :: post
           ++ [Console (LogStored (length records) p)]),
        (Ok ids), (emit (Console (LogStored (length records) p)) w5).
      split; [reflexivity|]. cbn [trace emit]. rewrite Tw5.
      split; [now flatten_trace|].
      split; [exact Fpre|].
      split.
      { constructor; [reflexivity|]. constructor; [reflexivity|].
        apply Forall_app. split; [exact F2|]. now constructor. }
      split; [now left|]. split; [|eauto].
      intros ids' Hids. injection Hids as <-.
      split; [reflexivity|]. split; [exact H1|]. split; [exact H2|].
      split; [exact H3|]. cbn [db emit]. rewrite S2. unfold w4 at 1. cbn [db emit].
      split; [exact S|]. split; [right; now left|].
      destruct (storeVectors_ok_inv ops w4 w5 E2)
        as (vrows & _ & Hvrows & Htab & _).
      destruct (normalizedVector_ids ops vrows (map_result_ok_inv _ _ _ Hvrows))
        as [Hvids _].
      exists vrows. rewrite Htab, Hvids, Hops. split; [|reflexivity].
      unfold w4, kept_vectors. cbn [db emit]. now rewrite V.
    + exists pre, rows, TxCommit,
        (Console LogBuildingIndex :: DeleteVectors ids :: post),
        (Throw e2), w5.
      split; [reflexivity|]. split; [exact Tw5|]. split; [exact Fpre|].
      split; [repeat constructor; exact F2|].
      split; [now left|]. split; [discriminate|].
      intros _ Hnorm. apply Hreturns in Hnorm. discriminate.
  - exists pre, rows, TxRollback, [], (Throw e). eexists.
    split; [reflexivity|]. cbn [trace emit set_db]. rewrite T, Hpre.
    split; [now flatten_trace|].
    split; [exact Fpre|]. split; [constructor|].
    split; [right; cbn [db emit set_db]; eauto|]. split; [discriminate|].
    intros Href _. destruct (Hall Href) as [ids Hids]. discriminate.
Qed.

(** With a driver that begins every transaction in immediate mode, the
    transaction of [insertSnippets] is immediate, not deferred. *)
Lemma insertSnippets_commits_then_stores_witness :
  length records_two <> 0 /\
  begin_mode libsql_driver deferred = immediate /\
  exists pre rows closing post r w',
    SnippetStoreV2.insertSnippets records_two (world_of no_env empty_db) = (r, w') /\
    trace w' = trace (world_of no_env empty_db) ++ pre ++
               TxBegin immediate :: map InsertSnippet rows ++ closing :: post /\
    Forall (fun e => is_vector_write e = false /\ is_metadata_event e = false) pre /\
    Forall (fun e => is_metadata_event e = false) post /\
    (closing = TxCommit \/
     (closing = TxRollback /\ post = [] /\ db w' = db (world_of no_env empty_db) /\
      exists e, r = Throw e)) /\
    (forall ids, r = Ok ids ->
       closing = TxCommit /\
       ids = map id rows /\
       map meta rows = map inputMeta records_two /\
       ids = map (fun k => (snippets_seq (db (world_of no_env empty_db)) + 1
                            + Z.of_nat k)%Z)
                 (seq 0 (length records_two)) /\
       snippets (db w') = snippets (db (world_of no_env empty_db)) ++ rows /\
       In (DeleteVectors ids) post /\
       exists vrows,
         Permutation (snippets_vec_fallback (db w'))
                     (kept_vectors ids (db (world_of no_env empty_db)) ++ vrows) /\
         map snippet_id vrows = ids) /\
    (forallb (fun s => reference_ok (db (world_of no_env empty_db)) (inputMeta s))
             records_two = true ->
     forallb (fun s => is_ok (VectorStore.normalizeEmbedding (inputEmbedding s)
                                (currentProvider (env (world_of no_env empty_db)))))
             records_two = true ->
     exists ids, r = Ok ids).
Proof.
  split; [simpl; lia|]. split; [reflexivity|].
  apply (insertSnippets_commits_then_stores records_two (world_of no_env empty_db)).
  simpl; lia.
Defined.

(** Two records into an empty database: the identifiers are [1] and [2],
    and the metadata statements are the start of a transaction, the two
    INSERTs and the commit.  The code asks for a deferred transaction
    either way; the transaction is deferred with a driver that passes the
    behaviour on, and immediate with one that does not. *)
Example insertSnippets_two :
  let r := SnippetStoreV2.insertSnippets records_two (world_of no_env empty_db) in
  let r' := SnippetStoreV2.insertSnippets records_two
              (world_on obliging_driver no_env empty_db) in
  fst r = Ok [1%Z; 2%Z] /\
  map id (snippets (db (snd r))) = [1%Z; 2%Z] /\
  map snippet_id (snippets_vec_fallback (db (snd r))) = [1%Z; 2%Z] /\
  filter is_metadata_event (trace (snd r)) =
    TxBegin immediate :: map InsertSnippet (snippets (db (snd r))) ++ [TxCommit] /\
  filter is_metadata_event (trace (snd r')) =
    TxBegin deferred :: map InsertSnippet (snippets (db (snd r'))) ++ [TxCommit] /\
  fst r' = fst r /\ db (snd r') = db (snd r).
Proof. vm_compute. repeat split. Qed.

(* ----------------------------------------------------------------- *)
(** ** Embedding requests *)

Lemma trimStart_white (s : JsString) :
  forallb is_white_space s = true -> trimStart s = [].
Proof.
  induction s as [|c t IH]; simpl; [reflexivity|].
  intros H. apply andb_true_iff in H as [Hc Ht]. rewrite Hc. now apply IH.
Qed.

Lemma blank_white (s : JsString) :
  forallb is_white_space s = true -> blank s = true.
Proof.
  intros H. unfold blank, trim, trimEnd. now rewrite (trimStart_white s H).
Qed.

Lemma trimStart_nil (s : JsString) :
  trimStart s = [] -> forallb is_white_space s = true.
Proof.
  induction s as [|c t IH]; simpl; [reflexivity|].
  destruct (is_white_space c); [exact IH|discriminate].
Qed.

Lemma trimStart_head (s : JsString) (c : N) (t : JsString) :
  trimStart s = c :: t -> is_white_space c = false.
Proof.
  induction s as [|x u IH]; simpl; [discriminate|].
  destruct (is_white_space x) eqn:E; [exact IH|].
  intros H. injection H as <- <-. exact E.
Qed.

Lemma blank_iff (s : JsString) :
  blank s = true <-> forallb is_white_space s = true.
Proof.
  split; [|apply blank_white].
  unfold blank, trim, trimEnd. intros H.
  destruct (rev (trimStart (rev (trimStart s)))) as [|c t] eqn:E; [|discriminate].
  apply (f_equal (@rev N)) in E. rewrite rev_involutive in E. simpl in E.
  apply trimStart_nil in E. rewrite forallb_forall in E.
  destruct (trimStart s) as [|c t] eqn:Es; [now apply trimStart_nil|].
  apply trimStart_head in Es.
  rewrite (E c) in Es; [discriminate|]. apply in_rev. rewrite rev_involutive. now left.
Qed.

(** C9: for an input that is empty or made of white space only, [embed]
    (and [geminiEmbed]) throws the empty-input error and leaves the world
    as it was: neither the OpenAI nor the Gemini endpoint is called. *)
Theorem embed_blank_fails_fast (input : JsString) (normalize : bool) (w : World) :
  forallb is_white_space input = true ->
  embed input normalize w = (Throw EmptyInput, w) /\
  geminiEmbed input w = (Throw EmptyInput, w) /\
  filter is_external_call (trace (snd (embed input normalize w))) =
  filter is_external_call (trace w).
Proof.
  intros H. apply blank_white in H.
  assert (E : embed input normalize w = (Throw EmptyInput, w))
    by (unfold embed; now rewrite H).
  split; [exact E|]. split; [unfold geminiEmbed; now rewrite H|].
  now rewrite E.
Qed.

Lemma embed_blank_fails_fast_witness :
  forallb is_white_space blank_input = true /\
  embed blank_input true (world_of no_env empty_db)
    = (Throw EmptyInput, world_of no_env empty_db) /\
  geminiEmbed blank_input (world_of no_env empty_db)
    = (Throw EmptyInput, world_of no_env empty_db) /\
  filter is_external_call
    (trace (snd (embed blank_input true (world_of no_env empty_db)))) =
  filter is_external_call (trace (world_of no_env empty_db)).
Proof.
  split; [reflexivity|].
  apply (embed_blank_fails_fast blank_input true (world_of no_env empty_db)).
  reflexivity.
Defined.

(** An input that is not blank does reach the provider. *)
Lemma embed_nonblank_calls_openai (input : JsString) (normalize : bool) (w : World) :
  blank input = false -> AI_PROVIDER (env w) = None ->
  exists model r w',
    embed input normalize w = (r, w') /\
    filter is_external_call (trace w') =
    filter is_external_call (trace w) ++ [OpenAICall model input].
Proof.
  intros Hb Hp. unfold embed. rewrite Hb.
  unfold bind at 1, getCurrentProvider, currentProvider. rewrite Hp. unfold bind at 1, openaiEmbed.
  set (model := env_or _ _).
  destruct (openai_embeddings_create (services w) model input) as [v|e].
  - destruct (negb (EmbeddingNormalizer.validateEmbedding v openai)) eqn:Ev;
      unfold bind, log, ret, lift; destruct normalize;
      do 3 eexists; (split; [reflexivity|]); simpl;
      rewrite ?filter_app; simpl; now rewrite ?app_nil_r.
  - do 3 eexists. split; [reflexivity|]. simpl.
    rewrite filter_app. reflexivity.
Qed.

(* ================================================================= *)
(** * Further properties of the code *)

(* ----------------------------------------------------------------- *)
(** ** Binary quantisation *)

Lemma fold_left_seq_S {A} (f : A -> nat -> A) (k : nat) (a : A) :
  fold_left f (seq 0 (S k)) a = f (fold_left f (seq 0 k) a) k.
Proof. rewrite seq_S, fold_left_app. reflexivity. Qed.

Lemma uint8_set_length (b : Uint8Array) (i : nat) (v : Z) :
  length (uint8_set b i v) = length b.
Proof.
  revert i; induction b as [|h t IH]; intros [|i]; simpl; auto.
Qed.

Lemma uint8_get_set_same (b : Uint8Array) (i : nat) (v : Z) :
  i < length b -> uint8_get (uint8_set b i v) i = (v mod 256)%Z.
Proof.
  unfold uint8_get. revert i; induction b as [|h t IH]; intros [|i] H;
    simpl in *; try lia. apply IH. lia.
Qed.

Lemma uint8_get_set_other (b : Uint8Array) (i j : nat) (v : Z) :
  i <> j -> uint8_get (uint8_set b i v) j = uint8_get b j.
Proof.
  unfold uint8_get. revert i j; induction b as [|h t IH]; intros [|i] [|j] H;
    simpl; try reflexivity; try lia. apply IH. lia.
Qed.

Lemma uint8_set_bytes (b : Uint8Array) (i : nat) (v : Z) :
  Forall is_byte b -> Forall is_byte (uint8_set b i v).
Proof.
  intros H. revert i; induction H as [|h t Hh Ht IH]; intros [|i]; simpl.
  - constructor.
  - constructor.
  - constructor; [|exact Ht]. apply Z.mod_pos_bound. lia.
  - constructor; [exact Hh|apply IH].
Qed.

Lemma index_split (j t k : nat) :
  t < 8 -> (8 * j + t = k <-> j = k / 8 /\ t = k mod 8).
Proof.
  intros Ht. pose proof (Nat.div_mod_eq k 8) as E.
  pose proof (Nat.mod_upper_bound k 8 ltac:(lia)) as B. lia.
Qed.

Lemma testbit_set_bit (old : Z) (t0 t : nat) :
  t < 8 ->
  Z.testbit (Z.lor old (Z.shiftl 1 (Z.of_nat t0)) mod 256) (Z.of_nat t) =
  Z.testbit old (Z.of_nat t) || (t =? t0).
Proof.
  intros Ht. change 256%Z with (2 ^ 8)%Z.
  rewrite Z.mod_pow2_bits_low by lia.
  rewrite Z.lor_spec, Z.shiftl_1_l, Z.pow2_bits_eqb by lia.
  f_equal. destruct (Nat.eqb_spec t t0) as [->|N].
  - apply Z.eqb_refl.
  - apply Z.eqb_neq. lia.
Qed.

(** The bytes after the first [k] steps of the loop of [quantizeToBinary]. *)
Lemma quantize_invariant (e : list number) (L k : nat) :
  k <= 8 * L ->
  let b := fold_left (EmbeddingNormalizer.quantize_step e) (seq 0 k)
                     (new_Uint8Array L) in
  length b = L /\ Forall is_byte b /\
  forall j t, t < 8 ->
    Z.testbit (uint8_get b j) (Z.of_nat t) =
    (8 * j + t <? k) && (0 <? array_get e (8 * j + t))%float.
Proof.
  induction k as [|k IH]; intros Hk.
  - simpl. unfold new_Uint8Array. rewrite repeat_length.
    split; [reflexivity|]. split.
    + apply Forall_forall. intros x Hx. apply repeat_spec in Hx. subst. red. lia.
    + intros j t _. unfold uint8_get.
      replace (nth j (repeat 0%Z L) 0%Z) with 0%Z.
      * now rewrite Z.bits_0.
      * destruct (Nat.lt_ge_cases j L).
        -- now rewrite nth_repeat_lt.
        -- rewrite nth_overflow; [reflexivity|]. now rewrite repeat_length.
  - specialize (IH ltac:(lia)). cbv zeta in IH. destruct IH as (Hlen & Hby & Hbit).
    cbv zeta. rewrite fold_left_seq_S.
    set (b := fold_left _ (seq 0 k) _) in *.
    unfold EmbeddingNormalizer.quantize_step.
    pose proof (Nat.div_mod_eq k 8) as E.
    pose proof (Nat.mod_upper_bound k 8 ltac:(lia)) as B.
    destruct (0 <? array_get e k)%float eqn:P.
    + split; [now rewrite uint8_set_length|].
      split; [now apply uint8_set_bytes|].
      intros j t Ht.
      destruct (Nat.eq_dec j (k / 8)) as [->|Nj].
      * rewrite uint8_get_set_same by lia.
        rewrite testbit_set_bit by exact Ht. rewrite Hbit by exact Ht.
        destruct (Nat.eqb_spec t (k mod 8)) as [->|Nt].
        -- rewrite <- E, P.
           replace (k <? S k) with true by (symmetry; apply Nat.ltb_lt; lia).
           now rewrite orb_true_r.
        -- rewrite orb_false_r. f_equal.
           destruct (Nat.ltb_spec (8 * (k / 8) + t) k),
                    (Nat.ltb_spec (8 * (k / 8) + t) (S k)); try reflexivity; lia.
      * rewrite uint8_get_set_other by congruence.
        rewrite Hbit by exact Ht. f_equal.
        destruct (Nat.ltb_spec (8 * j + t) k),
                 (Nat.ltb_spec (8 * j + t) (S k)); try reflexivity; lia.
    + split; [exact Hlen|]. split; [exact Hby|].
      intros j t Ht. rewrite Hbit by exact Ht.
      destruct (Nat.eq_dec (8 * j + t) k) as [Ek|Nk].
      * rewrite Ek, P. now rewrite !andb_false_r.
      * f_equal.
        destruct (Nat.ltb_spec (8 * j + t) k),
                 (Nat.ltb_spec (8 * j + t) (S k)); try reflexivity; lia.
Qed.

Lemma ceil_div8 (n : nat) : n <= 8 * ((n + 7) / 8) < n + 8.
Proof.
  pose proof (Nat.div_mod_eq (n + 7) 8).
  pose proof (Nat.mod_upper_bound (n + 7) 8 ltac:(lia)). lia.
Qed.

Lemma quantizeToBinary_bits (e : list number) :
  let q := EmbeddingNormalizer.quantizeToBinary e in
  length q = (length e + 7) / 8 /\ Forall is_byte q /\
  forall i, Z.testbit (uint8_get q (i / 8)) (Z.of_nat (i mod 8)) =
            (i <? length e) && (0 <? array_get e i)%float.
Proof.
  pose proof (ceil_div8 (length e)) as C.
  destruct (quantize_invariant e ((length e + 7) / 8) (length e) ltac:(lia))
    as (Hlen & Hby & Hbit).
  cbv zeta. unfold EmbeddingNormalizer.quantizeToBinary.
  split; [exact Hlen|]. split; [exact Hby|].
  intros i. pose proof (Nat.div_mod_eq i 8) as E.
  pose proof (Nat.mod_upper_bound i 8 ltac:(lia)) as B.
  rewrite Hbit by exact B. now rewrite <- E.
Qed.

Lemma bit_b2z (x : Z) (t : nat) :
  Z.land (Z.shiftr x (Z.of_nat t)) 1 = Z.b2z (Z.testbit x (Z.of_nat t)).
Proof.
  change 1%Z with (Z.ones 1) at 1. rewrite Z.land_ones by lia.
  rewrite Z.shiftr_div_pow2 by lia. rewrite Z.testbit_spec' by lia.
  reflexivity.
Qed.

Lemma dequantize_invariant (binary : Uint8Array) (n k : nat) :
  k <= n ->
  fold_left (EmbeddingNormalizer.dequantize_step binary) (seq 0 k) (new_Array n)
  = map (unpacked binary) (seq 0 k) ++ repeat nan (n - k).
Proof.
  unfold new_Array. induction k as [|k IH]; intros Hk.
  - simpl. now rewrite Nat.sub_0_r.
  - rewrite fold_left_seq_S, IH by lia.
    unfold EmbeddingNormalizer.dequantize_step.
    replace (n - k) with (S (n - S k)) by lia. cbn [repeat].
    pose proof (array_set_middle (map (unpacked binary) (seq 0 k))
                  (repeat nan (n - S k)) nan) as Hset.
    rewrite length_map, length_seq in Hset. rewrite Hset.
    rewrite seq_S, map_app, <- app_assoc. cbn [map app plus].
    f_equal. f_equal. unfold unpacked. rewrite bit_b2z.
    now destruct (Z.testbit _ _).
Qed.

Lemma dequantizeFromBinary_eq (binary : Uint8Array) (n : nat) :
  EmbeddingNormalizer.dequantizeFromBinary binary n
  = map (unpacked binary) (seq 0 n).
Proof.
  unfold EmbeddingNormalizer.dequantizeFromBinary.
  rewrite dequantize_invariant by lia.
  rewrite Nat.sub_diag. simpl. apply app_nil_r.
Qed.

Lemma map_constant {A B} (f : A -> B) (c : B) (l : list A) :
  (forall x, In x l -> f x = c) -> map f l = repeat c (length l).
Proof.
  induction l as [|x t IH]; intros H; simpl; [reflexivity|].
  rewrite H by now left. f_equal. apply IH. intros y Hy. apply H. now right.
Qed.

(** X1: [quantizeToBinary] packs one bit per entry into
    [ceil(length / 8)] bytes, and [dequantizeFromBinary] reads them back:
    unpacking the packed bytes at the original length gives [1] where the
    entry was greater than zero and [-1] everywhere else (zero, negative
    and [NaN] entries alike); unpacking at a greater length appends [-1]s,
    also past the last byte. *)
Theorem quantize_round_trip (embedding : list number) :
  let binary := EmbeddingNormalizer.quantizeToBinary embedding in
  (length embedding <= 8 * length binary < length embedding + 8) /\
  Forall is_byte binary /\
  EmbeddingNormalizer.dequantizeFromBinary binary (length embedding)
  = map sign_of embedding /\
  forall n, length embedding <= n ->
    EmbeddingNormalizer.dequantizeFromBinary binary n
    = map sign_of embedding ++ repeat (-1)%float (n - length embedding).
Proof.
  destruct (quantizeToBinary_bits embedding) as (Hlen & Hby & Hbit).
  cbv zeta in *.
  assert (G : forall n, length embedding <= n ->
    EmbeddingNormalizer.dequantizeFromBinary
      (EmbeddingNormalizer.quantizeToBinary embedding) n
    = map sign_of embedding ++ repeat (-1)%float (n - length embedding)).
  { intros n Hn. rewrite dequantizeFromBinary_eq.
    replace n with (length embedding + (n - length embedding)) at 1 by lia.
    rewrite seq_app, map_app. f_equal.
    - rewrite <- (map_nth_seq embedding nan) at 3. rewrite map_map.
      apply map_ext_in. intros i Hi. apply in_seq in Hi.
      unfold unpacked, sign_of. rewrite Hbit.
      replace (i <? length embedding) with true
        by (symmetry; apply Nat.ltb_lt; lia).
      reflexivity.
    - cbn [plus].
      rewrite (map_constant _ (-1)%float).
      + now rewrite length_seq.
      + intros i Hi. apply in_seq in Hi. unfold unpacked. rewrite Hbit.
        replace (i <? length embedding) with false
          by (symmetry; apply Nat.ltb_ge; lia).
        reflexivity. }
  split; [rewrite Hlen; apply ceil_div8|]. split; [exact Hby|]. split.
  - rewrite (G (length embedding)) by lia. rewrite Nat.sub_diag. apply app_nil_r.
  - exact G.
Qed.

Lemma byte_ext (a b : Z) :
  is_byte a -> is_byte b ->
  (forall t, t < 8 -> Z.testbit a (Z.of_nat t) = Z.testbit b (Z.of_nat t)) ->
  a = b.
Proof.
  intros Ha Hb H. red in Ha, Hb.
  rewrite <- (Z.mod_small a (2 ^ 8)), <- (Z.mod_small b (2 ^ 8))
    by (change (2 ^ 8)%Z with 256%Z; lia).
  apply Z.bits_inj'. intros n Hn.
  destruct (Z.lt_ge_cases n 8) as [L|G].
  - rewrite !Z.mod_pow2_bits_low by lia.
    specialize (H (Z.to_nat n) ltac:(lia)). now rewrite Z2Nat.id in H by lia.
  - now rewrite !Z.mod_pow2_bits_high by lia.
Qed.

(** X2: packing is a left inverse of unpacking on whole bytes: unpacking
    all [8 * length] bits of a byte array and packing the signs again
    gives the byte array back. *)
Theorem dequantize_round_trip (binary : Uint8Array) :
  Forall is_byte binary ->
  EmbeddingNormalizer.quantizeToBinary
    (EmbeddingNormalizer.dequantizeFromBinary binary (8 * length binary))
  = binary.
Proof.
  intros Hb.
  set (d := EmbeddingNormalizer.dequantizeFromBinary binary (8 * length binary)).
  assert (Hd : length d = 8 * length binary).
  { unfold d. now rewrite dequantizeFromBinary_eq, length_map, length_seq. }
  destruct (quantizeToBinary_bits d) as (Hlen & Hby & Hbit). cbv zeta in *.
  set (q := EmbeddingNormalizer.quantizeToBinary d) in *.
  assert (Hlen' : length q = length binary).
  { rewrite Hlen, Hd. pose proof (ceil_div8 (8 * length binary)).
    rewrite Hd in Hlen. lia. }
  apply (nth_ext q binary 0%Z 0%Z Hlen').
  intros j Hj. apply byte_ext.
  - eapply Forall_forall; [exact Hby|]. now apply nth_In.
  - eapply Forall_forall; [exact Hb|]. apply nth_In. lia.
  - intros t Ht.
    pose proof (proj1 (index_split j t (8 * j + t) Ht) eq_refl) as [Ej Et].
    specialize (Hbit (8 * j + t)). rewrite <- Ej, <- Et in Hbit.
    unfold uint8_get in Hbit. rewrite Hbit, Hd.
    replace (8 * j + t <? 8 * length binary) with true
      by (symmetry; apply Nat.ltb_lt; lia).
    unfold d, array_get. rewrite dequantizeFromBinary_eq.
    rewrite (nth_indep _ nan (unpacked binary 0))
      by (rewrite length_map, length_seq; lia).
    rewrite map_nth, seq_nth by lia. cbn [plus andb].
    unfold unpacked. rewrite <- Ej, <- Et. unfold uint8_get.
    now destruct (Z.testbit (nth j binary 0%Z) (Z.of_nat t)).
Qed.

Lemma dequantize_round_trip_witness :
  Forall is_byte [5; 255; 0]%Z /\
  EmbeddingNormalizer.quantizeToBinary
    (EmbeddingNormalizer.dequantizeFromBinary [5; 255; 0]%Z
       (8 * length [5; 255; 0]%Z))
  = [5; 255; 0]%Z.
Proof.
  assert (H : Forall is_byte [5; 255; 0]%Z) 
    by (repeat (apply Forall_cons; [red; lia|]); apply Forall_nil).
  split; [exact H|]. apply (dequantize_round_trip [5; 255; 0]%Z). exact H.
Defined.

(* ----------------------------------------------------------------- *)
(** ** Validation and normalisation *)

Lemma validateEmbedding_is_ok (e : list number) (p : EmbeddingProvider) :
  EmbeddingNormalizer.validateEmbedding e p
  = is_ok (EmbeddingNormalizer.normalize e p).
Proof.
  destruct p; unfold EmbeddingNormalizer.validateEmbedding,
    EmbeddingNormalizer.normalize, EmbeddingNormalizer.normalizeOpenAI,
    EmbeddingNormalizer.normalizeGemini; cbn [existsb];
    destruct (length e =? 3072); destruct (length e =? 1536);
    destruct (length e =? 768); reflexivity.
Qed.

(** X3: [validateEmbedding] accepts exactly the widths that
    [getExpectedDimensions] lists, and these are exactly the vectors that
    [EmbeddingNormalizer.normalize] does not throw on.  Every vector that
    [VectorStore.normalizeEmbedding] takes is valid, and the one valid
    shape it throws on is an OpenAI vector of 3072 entries. *)
Theorem validateEmbedding_agrees (e : list number) (p : EmbeddingProvider) :
  EmbeddingNormalizer.validateEmbedding e p
    = existsb (Nat.eqb (length e)) (EmbeddingNormalizer.getExpectedDimensions p) /\
  EmbeddingNormalizer.validateEmbedding e p
    = is_ok (EmbeddingNormalizer.normalize e p) /\
  (EmbeddingNormalizer.validateEmbedding e p = true <->
   In (length e) (EmbeddingNormalizer.getExpectedDimensions p)) /\
  (is_ok (VectorStore.normalizeEmbedding e p) = true ->
   EmbeddingNormalizer.validateEmbedding e p = true) /\
  (EmbeddingNormalizer.validateEmbedding e p = true ->
   is_ok (VectorStore.normalizeEmbedding e p) = false ->
   p = openai /\ length e = 3072).
Proof.
  split; [now destruct p|]. split; [apply validateEmbedding_is_ok|].
  split.
  { destruct p; unfold EmbeddingNormalizer.validateEmbedding,
      EmbeddingNormalizer.getExpectedDimensions; rewrite existsb_exists; split.
    - intros (x & Hx & E). apply Nat.eqb_eq in E. now rewrite E.
    - intros H. exists (length e). split; [exact H|apply Nat.eqb_refl].
    - intros (x & Hx & E). apply Nat.eqb_eq in E. now rewrite E.
    - intros H. exists (length e). split; [exact H|apply Nat.eqb_refl]. }
  unfold EmbeddingNormalizer.validateEmbedding, VectorStore.normalizeEmbedding.
  destruct p; cbn [existsb provider_eqb andb orb];
    destruct (length e =? 3072) eqn:E1; destruct (length e =? 1536) eqn:E2;
    destruct (length e =? 768) eqn:E3; cbn [is_ok orb];
    (split; [try reflexivity; try discriminate|]); try discriminate;
    intros; try discriminate.
  all: split; [reflexivity|now apply Nat.eqb_eq].
Qed.

(* ----------------------------------------------------------------- *)
(** ** Embedding a text *)

Lemma embed_unfold (input : JsString) (normalize : bool) (w : World) :
  blank input = false ->
  let p := currentProvider (env w) in
  embed input normalize w =
  match provider_embed p input w with
  | (Throw e, w1) => (Throw e, w1)
  | (Ok v, w1) =>
      let w2 := if EmbeddingNormalizer.validateEmbedding v p then w1
                else emit (Console (WarnUnexpectedDimensions (length v) p)) w1 in
      if normalize then (EmbeddingNormalizer.normalize v p, w2) else (Ok v, w2)
  end.
Proof.
  intros Hb. cbv zeta. unfold embed. rewrite Hb.
  unfold bind at 1, getCurrentProvider.
  unfold bind at 1. unfold provider_embed.
  destruct (match currentProvider (env w) with
            | openai => openaiEmbed input
            | gemini => geminiEmbed input
            end w) as [[v|e] w1]; [|reflexivity].
  unfold bind, log, ret, lift.
  destruct (EmbeddingNormalizer.validateEmbedding v (currentProvider (env w)));
    destruct normalize; reflexivity.
Qed.

(** X4: [embedRaw] hands back whatever the provider returned, of any
    width.  [embedNormalized] on the same input returns the normalised
    vector when the width is an expected one; otherwise it throws, after
    the same provider call and the warning about the width that
    [embedRaw] only logs. *)
Theorem embedRaw_embedNormalized (input : JsString) (w w' : World)
    (v : list number) :
  embedRaw input w = (Ok v, w') ->
  let p := currentProvider (env w) in
  (exists w1, provider_embed p input w = (Ok v, w1)) /\
  (EmbeddingNormalizer.validateEmbedding v p = true ->
   exists out,
     embedNormalized input w = (Ok out, w') /\
     EmbeddingNormalizer.normalize v p = Ok out /\
     provider_embed p input w = (Ok v, w')) /\
  (EmbeddingNormalizer.validateEmbedding v p = false ->
   exists e w1,
     embedNormalized input w = (Throw e, w') /\
     provider_embed p input w = (Ok v, w1) /\
     w' = emit (Console (WarnUnexpectedDimensions (length v) p)) w1).
Proof.
  intros H. cbv zeta. unfold embedRaw in H. unfold embedNormalized.
  destruct (blank input) eqn:Hb.
  { unfold embed in H. rewrite Hb in H. discriminate. }
  rewrite (embed_unfold input false w Hb) in H.
  rewrite (embed_unfold input true w Hb). cbv zeta in *.
  destruct (provider_embed (currentProvider (env w)) input w) as [[v1|e1] w1];
    [|discriminate].
  injection H as -> <-.
  split; [now exists w1|].
  rewrite validateEmbedding_is_ok.
  destruct (EmbeddingNormalizer.normalize v (currentProvider (env w)))
    as [out|e] eqn:En; cbn [is_ok]; split; intros Hv; try discriminate.
  - exists out. repeat split; reflexivity.
  - exists e, w1. repeat split; reflexivity.
Qed.

Lemma embedRaw_embedNormalized_witness :
  let w := world_with (canned [1; 2; 3]%float) no_env empty_db in
  let w1 := emit (OpenAICall "text-embedding-3-small" hello) w in
  let w' := emit (Console (WarnUnexpectedDimensions 3 openai)) w1 in
  embedRaw hello w = (Ok [1; 2; 3]%float, w') /\
  EmbeddingNormalizer.validateEmbedding [1; 2; 3]%float openai = false /\
  exists e w1,
    embedNormalized hello w = (Throw e, w') /\
    provider_embed openai hello w = (Ok [1; 2; 3]%float, w1) /\
    w' = emit (Console (WarnUnexpectedDimensions 3 openai)) w1.
Proof.
  cbv zeta. split; [reflexivity|]. split; [reflexivity|].
  apply (embedRaw_embedNormalized hello
           (world_with (canned [1; 2; 3]%float) no_env empty_db)
           (emit (Console (WarnUnexpectedDimensions 3 openai))
              (emit (OpenAICall "text-embedding-3-small" hello)
                 (world_with (canned [1; 2; 3]%float) no_env empty_db)))
           [1; 2; 3]%float); reflexivity.
Defined.

Lemma geminiEmbed_calls (input : JsString) (w : World) :
  exists r w' calls,
    geminiEmbed input w = (r, w') /\ env w' = env w /\
    trace w' = trace w ++ calls /\
    (calls = [] \/
     calls = [GeminiCall (env_or (GEMINI_EMBEDDING_MODEL (env w))
                                 "text-embedding-004") input]).
Proof.
  unfold geminiEmbed. destruct (blank input).
  { exists (Throw EmptyInput), w, []. rewrite app_nil_r. now repeat split; try left. }
  unfold bind, getGeminiClient.
  destruct (geminiClient w).
  - unfold geminiEmbed_request.
    destruct (gemini_embedContent _ _ _) as [r|e].
    + destruct (embedding_values r), (embeddings0_values r);
        do 3 eexists; (split; [reflexivity|]); (split; [reflexivity|]);
        (split; [reflexivity|]); now right.
    + do 3 eexists; (split; [reflexivity|]); (split; [reflexivity|]);
        (split; [reflexivity|]); now right.
  - destruct (truthy (GEMINI_API_KEY (env w))).
    + unfold geminiEmbed_request. cbn [env services db trace emit].
      destruct (gemini_embedContent _ _ _) as [r|e].
      * destruct (embedding_values r), (embeddings0_values r);
          do 3 eexists; (split; [reflexivity|]); (split; [reflexivity|]);
          (split; [reflexivity|]); now right.
      * do 3 eexists; (split; [reflexivity|]); (split; [reflexivity|]);
          (split; [reflexivity|]); now right.
    + exists (Throw MissingGeminiApiKey), w, []. rewrite app_nil_r.
      now repeat split; try left.
Qed.

(** X5: [embed] calls a provider at most once, and the call goes to the
    provider that [getCurrentProvider] names with the model that
    [getCurrentModel] reports; a blank input makes no call, and with the
    OpenAI provider every other input makes one. *)
Theorem embed_calls_current_model (input : JsString) (normalize : bool)
    (w : World) :
  exists p model r w' calls,
    getCurrentProvider w = (Ok p, w) /\ getCurrentModel w = (Ok model, w) /\
    embed input normalize w = (r, w') /\
    filter is_external_call (trace w') =
      filter is_external_call (trace w) ++ calls /\
    (calls = [] \/ calls = [external_call p model input]) /\
    (blank input = true -> calls = []) /\
    (blank input = false -> p = openai -> calls = [external_call p model input]).
Proof.
  exists (currentProvider (env w)), (currentModel (env w)).
  enough (H : exists r w' calls,
    embed input normalize w = (r, w') /\
    filter is_external_call (trace w') =
      filter is_external_call (trace w) ++ calls /\
    (calls = [] \/ calls = [external_call (currentProvider (env w))
                                          (currentModel (env w)) input]) /\
    (blank input = true -> calls = []) /\
    (blank input = false -> currentProvider (env w) = openai ->
     calls = [external_call (currentProvider (env w))
                            (currentModel (env w)) input])).
  { destruct H as (r & w' & calls & H). exists r, w', calls.
    split; [reflexivity|]. split; [reflexivity|exact H]. }
  destruct (blank input) eqn:Hb.
  { exists (Throw EmptyInput), w, []. unfold embed. rewrite Hb, app_nil_r.
    repeat split; try reflexivity; [now left|discriminate]. }
  rewrite (embed_unfold input normalize w Hb). cbv zeta.
  unfold currentModel, provider_embed.
  destruct (currentProvider (env w)) eqn:Ep.
  - unfold openaiEmbed.
    set (model := env_or (OPENAI_EMBEDDING_MODEL (env w)) "text-embedding-3-small").
    destruct (openai_embeddings_create _ _ _) as [v|e].
    + destruct (EmbeddingNormalizer.validateEmbedding v openai);
        destruct normalize; do 2 eexists; exists [OpenAICall model input];
        (split; [reflexivity|]);
        (split; [cbn [trace emit]; rewrite ?filter_app; cbn [filter is_external_call];
                 rewrite ?app_nil_r; reflexivity|]);
        (split; [now right|]); (split; [discriminate|reflexivity]).
    + do 2 eexists. exists [OpenAICall model input]. split; [reflexivity|].
      split; [cbn [trace emit]; rewrite ?filter_app; reflexivity|].
      split; [now right|]. split; [discriminate|reflexivity].
  - destruct (geminiEmbed_calls input w) as (r & w1 & calls & E & Henv & Ht & Hc).
    rewrite E.
    assert (Hf : filter is_external_call calls = calls).
    { destruct Hc as [->| ->]; reflexivity. }
    destruct r as [v|e].
    + destruct (EmbeddingNormalizer.validateEmbedding v gemini);
        destruct normalize; do 2 eexists; exists calls;
        (split; [reflexivity|]);
        (split; [cbn [trace emit]; rewrite Ht, ?filter_app, Hf;
                 cbn [filter is_external_call]; rewrite ?app_nil_r; reflexivity|]);
        (split; [exact Hc|]); split; discriminate.
    + do 2 eexists. exists calls. split; [reflexivity|].
      split; [rewrite Ht, filter_app, Hf; reflexivity|].
      split; [exact Hc|]. split; discriminate.
Qed.

(** X6: [geminiEmbed] throws one of three errors.  [EmptyInput] and
    [MissingGeminiApiKey] come before any call and leave the world as it
    is; every failure after that, the unexpected response structure
    included, is wrapped in [FailedToGenerateEmbedding].  The key is only
    looked at while no client exists: with a client in place the call goes
    out whatever [GEMINI_API_KEY] holds. *)
Theorem geminiEmbed_errors (input : JsString) (w : World) :
  exists r w',
    geminiEmbed input w = (r, w') /\
    match r with
    | Ok v =>
        blank input = false /\ geminiClient w' = true /\
        exists response,
          gemini_embedContent (services w)
            (env_or (GEMINI_EMBEDDING_MODEL (env w)) "text-embedding-004") input
            = Ok response /\
          (embedding_values response = Some v \/
           embedding_values response = None /\
           embeddings0_values response = Some v)
    | Throw EmptyInput => blank input = true /\ w' = w
    | Throw MissingGeminiApiKey =>
        blank input = false /\ geminiClient w = false /\
        truthy (GEMINI_API_KEY (env w)) = false /\ w' = w
    | Throw (FailedToGenerateEmbedding cause) =>
        blank input = false /\ geminiClient w' = true /\
        (gemini_embedContent (services w)
           (env_or (GEMINI_EMBEDDING_MODEL (env w)) "text-embedding-004") input
           = Throw cause \/
         cause = UnexpectedResponseStructure /\
         exists response,
           gemini_embedContent (services w)
             (env_or (GEMINI_EMBEDDING_MODEL (env w)) "text-embedding-004") input
             = Ok response /\
           embedding_values response = None /\
           embeddings0_values response = None)
    | Throw _ => False
    end /\
    (geminiClient w = true -> r <> Throw MissingGeminiApiKey).
Proof.
  unfold geminiEmbed. destruct (blank input) eqn:Hb.
  { exists (Throw EmptyInput), w. repeat split; try reflexivity. discriminate. }
  unfold bind, getGeminiClient.
  destruct (geminiClient w) eqn:Hc.
  - unfold geminiEmbed_request.
    destruct (gemini_embedContent _ _ _) as [r|e] eqn:Es.
    + destruct (embedding_values r) eqn:E1; [|destruct (embeddings0_values r) eqn:E2];
        do 2 eexists; (split; [reflexivity|]); (split; [|discriminate]).
      * repeat split; [exact Hc|]. exists r. split; [reflexivity|]. now left.
      * repeat split; [exact Hc|]. exists r. split; [reflexivity|]. now right.
      * repeat split; [exact Hc|]. right. split; [reflexivity|]. now exists r.
    + do 2 eexists. split; [reflexivity|]. split; [|discriminate].
      repeat split; [exact Hc|]. now left.
  - destruct (truthy (GEMINI_API_KEY (env w))) eqn:Hk.
    + unfold geminiEmbed_request. cbn [env services db trace emit].
      destruct (gemini_embedContent _ _ _) as [r|e] eqn:Es.
      * destruct (embedding_values r) eqn:E1; [|destruct (embeddings0_values r) eqn:E2];
          do 2 eexists; (split; [reflexivity|]); (split; [|discriminate]).
        -- repeat split. exists r. split; [reflexivity|]. now left.
        -- repeat split. exists r. split; [reflexivity|]. now right.
        -- repeat split. right. split; [reflexivity|]. now exists r.
      * do 2 eexists. split; [reflexivity|]. split; [|discriminate].
        repeat split. now left.
    + exists (Throw MissingGeminiApiKey), w. repeat split; try reflexivity.
      discriminate.
Qed.

(* ----------------------------------------------------------------- *)
(** ** Single vectors *)

Lemma same_metadata_refl (d : Database) : same_metadata d d.
Proof. repeat split. Qed.

Lemma kept_vectors_absent (ids : list Z) (d : Database) :
  (forall r, In r (snippets_vec_fallback d) -> ~ In (snippet_id r) ids) ->
  kept_vectors ids d = snippets_vec_fallback d.
Proof.
  unfold kept_vectors. intros H.
  induction (snippets_vec_fallback d) as [|r t IH]; simpl; [reflexivity|].
  replace (mem_Z (snippet_id r) ids) with false.
  - simpl. f_equal. apply IH. intros r' Hr'. apply H. now right.
  - symmetry. apply mem_Z_not_In. apply H. now left.
Qed.

Lemma kept_vectors_In (ids : list Z) (d : Database) (r : VecRow) :
  In r (kept_vectors ids d) <->
  In r (snippets_vec_fallback d) /\ ~ In (snippet_id r) ids.
Proof.
  unfold kept_vectors. rewrite filter_In, negb_true_iff, mem_Z_not_In.
  reflexivity.
Qed.

(** The three ways through [storeVector] when the embedding normalises:
    the INSERT goes through; or it fails on the key, the test of the
    message holds, and the row is deleted and inserted again; or the test
    fails and the error is thrown again. *)
Lemma storeVector_cases (snippetId : Z) (e normalized : list number)
    (p : EmbeddingProvider) (w : World) :
  VectorStore.normalizeEmbedding e p = Ok normalized ->
  let row := Build_VecRow snippetId (map fround normalized) in
  let present := mem_Z snippetId (map snippet_id (vector_table w)) in
  let named := VectorStore.is_key_violation (driver w) ConstraintFailed in
  exists w',
    VectorStore.storeVector snippetId e p w =
      (if negb present || named then Ok tt else Throw ConstraintFailed, w') /\
    vector_table w' =
      (if negb present || named then kept_vectors [snippetId] (db w) ++ [row]
       else vector_table w) /\
    same_metadata (db w) (db w') /\ env w' = env w /\
    vecInitialized w' = true.
Proof.
  intros Hn row present named. unfold VectorStore.storeVector, bind.
  rewrite init_eq. unfold lift. rewrite Hn. fold row.
  unfold insert_vectors at 1. rewrite after_init_db.
  cbn [existsb map has_dup mem_Z snippet_id row]. rewrite !orb_false_r.
  fold (mem_Z snippetId (map snippet_id (snippets_vec_fallback (db w)))).
  fold (vector_table w). fold present.
  destruct present eqn:Em; cbn [negb orb].
  - cbn [driver emit]. rewrite after_init_driver. fold named.
    destruct named.
    + unfold bind, delete_vectors, insert_vectors.
      cbn [db set_db emit with_vectors snippets_vec_fallback trace].
      rewrite after_init_db.
      cbn [existsb map has_dup mem_Z snippet_id row]. rewrite !orb_false_r.
      fold (mem_Z snippetId (map snippet_id (kept_vectors [snippetId] (db w)))).
      replace (mem_Z snippetId (map snippet_id (kept_vectors [snippetId] (db w))))
        with false.
      * eexists. split; [reflexivity|]. unfold vector_table.
        cbn [db set_db emit with_vectors snippets_vec_fallback env vecInitialized
             snippets snippets_seq libraries foreign_keys].
        rewrite ?after_init_db, after_init_env, after_init_initialized.
        repeat split.
      * symmetry. apply mem_Z_not_In. apply kept_vectors_fresh. now left.
    + eexists. split; [reflexivity|]. unfold vector_table.
      cbn [db emit env vecInitialized].
      rewrite ?after_init_db, after_init_env, after_init_initialized.
      repeat split.
  - eexists. split; [reflexivity|]. unfold vector_table.
    cbn [db set_db emit with_vectors snippets_vec_fallback env vecInitialized
         snippets snippets_seq libraries foreign_keys].
    rewrite ?after_init_db, after_init_env, after_init_initialized.
    rewrite kept_vectors_absent.
    + repeat split.
    + intros r Hr [E|[]]. unfold present, vector_table in Em.
      apply mem_Z_not_In in Em. apply Em.
      rewrite E. now apply in_map.
Qed.

Lemma storeVector_throws (snippetId : Z) (e : list number)
    (p : EmbeddingProvider) (w : World) (err : JsError) :
  VectorStore.normalizeEmbedding e p = Throw err ->
  VectorStore.storeVector snippetId e p w = (Throw err, after_init w).
Proof.
  intros Hn. unfold VectorStore.storeVector, bind. rewrite init_eq.
  unfold lift. now rewrite Hn.
Qed.

(** What [storeVector] has done when it returns. *)
Lemma storeVector_ok_inv (snippetId : Z) (e : list number)
    (p : EmbeddingProvider) (w w' : World) :
  VectorStore.storeVector snippetId e p w = (Ok tt, w') ->
  exists normalized,
    VectorStore.normalizeEmbedding e p = Ok normalized /\
    vector_table w' =
      kept_vectors [snippetId] (db w)
      ++ [Build_VecRow snippetId (map fround normalized)].
Proof.
  intros E.
  destruct (VectorStore.normalizeEmbedding e p) as [normalized|err] eqn:Hn.
  2:{ rewrite (storeVector_throws _ _ _ _ _ Hn) in E. discriminate. }
  exists normalized. split; [reflexivity|].
  destruct (storeVector_cases snippetId e normalized p w Hn) as (w1 & E1 & T & _).
  rewrite E in E1. destruct (negb _ || _); [|discriminate].
  now injection E1 as <-.
Qed.

Lemma single_table (snippetId : Z) (e normalized : list number)
    (p : EmbeddingProvider) (w : World) :
  VectorStore.normalizeEmbedding e p = Ok normalized ->
  exists w'',
    VectorStore.storeVectors (single snippetId e p) w = (Ok tt, w'') /\
    vector_table w'' =
      kept_vectors [snippetId] (db w)
      ++ [Build_VecRow snippetId (map fround normalized)].
Proof.
  intros Hn.
  destruct (storeVectors_succeeds (single snippetId e p) w) as (w'' & E2).
  { reflexivity. }
  { unfold single. cbn [forallb rawEmbedding inputProvider]. now rewrite Hn. }
  exists w''. split; [exact E2|].
  destruct (storeVectors_ok_inv _ _ _ E2) as (rows & batches & Hr & Ht & _).
  unfold single in Hr. cbn [map_result] in Hr.
  unfold VectorStore.normalizedVector in Hr.
  cbn [rawEmbedding inputProvider] in Hr.
  rewrite Hn in Hr. injection Hr as <-.
  unfold vector_table. rewrite Ht. reflexivity.
Qed.

(** X7: [storeVector] replaces when the driver lets it.  When the
    embedding normalises, the call returns if the table has no row for
    the snippet, or if the message of the driver names the violated key;
    the table then holds the new row of binary32 values and the old rows
    of the other snippets, as it does after [storeVectors] on the
    one-element batch.  If a row exists and the message does not name the
    key, the call throws the error of the INSERT and the table is as it
    was, whereas [storeVectors] returns and replaces.  The metadata tables
    are as before.  When the embedding does not normalise the call throws
    and the table is untouched, whereas [storeVectors] has by then deleted
    the old row of the snippet. *)
Theorem storeVector_replaces (snippetId : Z) (e : list number)
    (p : EmbeddingProvider) (w : World) :
  (forall normalized,
      VectorStore.normalizeEmbedding e p = Ok normalized ->
      let row := Build_VecRow snippetId (map fround normalized) in
      exists r w' w'',
        VectorStore.storeVector snippetId e p w = (r, w') /\
        VectorStore.storeVectors (single snippetId e p) w = (Ok tt, w'') /\
        (forall x, In x (vector_table w'') <->
                   x = row \/ In x (vector_table w) /\ snippet_id x <> snippetId) /\
        same_metadata (db w) (db w') /\
        (r = Ok tt <->
         ~ In snippetId (map snippet_id (vector_table w)) \/
         VectorStore.is_key_violation (driver w) ConstraintFailed = true) /\
        (r = Ok tt -> Permutation (vector_table w') (vector_table w'')) /\
        (r <> Ok tt ->
         r = Throw ConstraintFailed /\ vector_table w' = vector_table w)) /\
  (forall err,
      VectorStore.normalizeEmbedding e p = Throw err ->
      exists w' w'',
        VectorStore.storeVector snippetId e p w = (Throw err, w') /\
        db w' = db w /\
        VectorStore.storeVectors (single snippetId e p) w = (Throw err, w'') /\
        vector_table w'' = kept_vectors [snippetId] (db w)).
Proof.
  split.
  - intros normalized Hn row.
    destruct (storeVector_cases snippetId e normalized p w Hn)
      as (w' & E & T & M & _).
    destruct (single_table snippetId e normalized p w Hn) as (w'' & E2 & T2).
    fold row in T, T2.
    eexists _, w', w''. split; [exact E|]. split; [exact E2|].
    split; [|split; [exact M|]].
    { intros x. rewrite T2, in_app_iff. fold (vector_table w).
      unfold vector_table at 1. rewrite kept_vectors_In. cbn [In].
      fold (vector_table w). split.
      - intros [[H1 H2]|[H|[]]]; [right|left; now symmetry].
        split; [exact H1|]. intros Ex. apply H2. left. now symmetry.
      - intros [H|[H1 H2]]; [right; left; now symmetry|left].
        split; [exact H1|]. intros [Ex|[]]. apply H2. now symmetry. }
    destruct (mem_Z snippetId (map snippet_id (vector_table w))) eqn:Em;
      cbn [negb orb] in *.
    + apply mem_Z_In in Em.
      destruct (VectorStore.is_key_violation (driver w) ConstraintFailed).
      * split; [split; auto|]. split; [intros _; now rewrite T, T2|].
        intros H. now contradiction H.
      * split; [split; [discriminate|intros [H|H]; [contradiction|discriminate]]|].
        split; [discriminate|]. intros _. split; [reflexivity|exact T].
    + apply mem_Z_not_In in Em.
      split; [split; auto|]. split; [intros _; now rewrite T, T2|].
      intros H. now contradiction H.
  - intros err Hn. do 2 eexists.
    split; [apply storeVector_throws; exact Hn|]. split; [apply after_init_db|].
    split.
    + apply storeVectors_throws. unfold single. cbn [map_result].
      unfold VectorStore.normalizedVector. cbn [rawEmbedding inputProvider].
      now rewrite Hn.
    + reflexivity.
Qed.

(** A table that holds a vector for snippet 1, and a new vector for it.
    With a driver whose message names the constraint the row is replaced;
    with one whose message does not, the call throws and the old row
    stays. *)
Example storeVector_on_existing_row :
  let e := repeat 1%float 1536 in
  let r := VectorStore.storeVector 1 e openai (world_of no_env db_old_vector) in
  let r' := VectorStore.storeVector 1 e openai
              (world_on wrapping_driver no_env db_old_vector) in
  fst r = Ok tt /\
  vector_table (snd r) = [Build_VecRow 1 e] /\
  fst r' = Throw ConstraintFailed /\
  vector_table (snd r') = snippets_vec_fallback db_old_vector.
Proof. vm_compute. repeat split. Qed.

Lemma deleteVector_eq (snippetId : Z) (w : World) :
  VectorStore.deleteVector snippetId w =
  (Ok tt, set_db (with_vectors (kept_vectors [snippetId] (db w)) (db (after_init w)))
                 (emit (DeleteVectors [snippetId]) (after_init w))).
Proof.
  unfold VectorStore.deleteVector, bind. rewrite init_eq.
  unfold delete_vectors. now rewrite after_init_db.
Qed.

Lemma kept_vectors_app (ids : list Z) (d : Database) (rows more : list VecRow) :
  snippets_vec_fallback d = rows ++ more ->
  kept_vectors ids d =
  filter (fun r => negb (mem_Z (snippet_id r) ids)) rows ++
  filter (fun r => negb (mem_Z (snippet_id r) ids)) more.
Proof. intros H. unfold kept_vectors. now rewrite H, filter_app. Qed.

Lemma filter_kept_idem (ids : list Z) (d : Database) :
  filter (fun r => negb (mem_Z (snippet_id r) ids)) (kept_vectors ids d)
  = kept_vectors ids d.
Proof.
  unfold kept_vectors.
  induction (snippets_vec_fallback d) as [|r t IH]; simpl; [reflexivity|].
  destruct (mem_Z (snippet_id r) ids) eqn:E; simpl; [exact IH|].
  rewrite E. simpl. now f_equal.
Qed.

(** X8: [deleteVector] removes every row of the snippet and nothing else,
    and it undoes [storeVector]: storing a vector and deleting it again
    leaves the table without any row for the snippet, which is the table
    from before the store when the snippet had no row. *)
Theorem deleteVector_undoes_storeVector (snippetId : Z) (w : World) :
  (exists w',
      VectorStore.deleteVector snippetId w = (Ok tt, w') /\
      (forall r, In r (vector_table w') <->
                 In r (vector_table w) /\ snippet_id r <> snippetId) /\
      same_metadata (db w) (db w')) /\
  (forall e p w1,
      VectorStore.storeVector snippetId e p w = (Ok tt, w1) ->
      exists w2,
        VectorStore.deleteVector snippetId w1 = (Ok tt, w2) /\
        vector_table w2 = kept_vectors [snippetId] (db w) /\
        (~ In snippetId (map snippet_id (vector_table w)) ->
         vector_table w2 = vector_table w)).
Proof.
  split.
  - eexists. split; [apply deleteVector_eq|]. split.
    + intros r. unfold vector_table.
      cbn [db set_db emit with_vectors snippets_vec_fallback].
      rewrite kept_vectors_In. cbn [In].
      split; intros [H1 H2]; (split; [exact H1|]).
      * intros E. apply H2. left. now symmetry.
      * intros [E|[]]. apply H2. now symmetry.
    + cbn [db set_db emit with_vectors]. rewrite after_init_db. repeat split.
  - intros e p w1 E.
    destruct (storeVector_ok_inv snippetId e p w w1 E) as (normalized & _ & T).
    eexists. split; [apply deleteVector_eq|].
    assert (K : kept_vectors [snippetId] (db w1) = kept_vectors [snippetId] (db w)).
    { rewrite (kept_vectors_app _ _ _ _ T), filter_kept_idem.
      cbn [filter snippet_id mem_Z existsb]. rewrite Z.eqb_refl. cbn.
      apply app_nil_r. }
    unfold vector_table. cbn [db set_db emit with_vectors snippets_vec_fallback].
    split; [exact K|]. intros Hfresh. rewrite K.
    apply kept_vectors_absent. intros r Hr [Ei|[]]. apply Hfresh.
    rewrite Ei. now apply in_map.
Qed.

(* ----------------------------------------------------------------- *)
(** ** Vectors of a library *)

Lemma filter_none {A} (f : A -> bool) (l : list A) :
  (forall x, In x l -> f x = false) -> filter f l = [].
Proof.
  induction l as [|x t IH]; intros H; simpl; [reflexivity|].
  rewrite H by now left. apply IH. intros y Hy. apply H. now right.
Qed.

Lemma filter_filter_implies {A} (f g : A -> bool) (l : list A) :
  (forall x, In x l -> f x = true -> g x = true) ->
  filter f (filter g l) = filter f l.
Proof.
  induction l as [|x t IH]; intros H; simpl; [reflexivity|].
  assert (IH' : filter f (filter g t) = filter f t).
  { apply IH. intros y Hy. apply H. now right. }
  destruct (g x) eqn:G; simpl.
  - now rewrite IH'.
  - destruct (f x) eqn:F; [|exact IH'].
    rewrite (H x (or_introl eq_refl) F) in G. discriminate.
Qed.

Lemma NoDup_map_eq {A B} (f : A -> B) (l : list A) (x y : A) :
  NoDup (map f l) -> In x l -> In y l -> f x = f y -> x = y.
Proof.
  induction l as [|a t IH]; simpl; intros Hnd Hx Hy E; [contradiction|].
  inversion Hnd as [|? ? Ha Hnd']; subst.
  destruct Hx as [->|Hx], Hy as [->|Hy]; [reflexivity| | |now apply IH].
  - exfalso. apply Ha. rewrite E. now apply in_map.
  - exfalso. apply Ha. rewrite <- E. now apply in_map.
Qed.

Lemma library_ids_In (libraryName : string) (d : Database) (x : Z) :
  In x (library_ids libraryName d) <->
  exists s, In s (snippets d) /\ library (meta s) = libraryName /\ id s = x.
Proof.
  unfold library_ids. rewrite in_map_iff. split.
  - intros (s & E & Hs). apply filter_In in Hs. destruct Hs as [Hs Hl].
    exists s. split; [exact Hs|]. split; [|exact E].
    now apply String.eqb_eq in Hl.
  - intros (s & Hs & Hl & E). exists s. split; [exact E|].
    apply filter_In. split; [exact Hs|]. unfold in_library.
    now apply String.eqb_eq.
Qed.

Lemma deleteVectorsByLibrary_eq (libraryName : string) (w : World) :
  exists w',
    VectorStore.deleteVectorsByLibrary libraryName w = (Ok tt, w') /\
    vector_table w' = kept_vectors (library_ids libraryName (db w)) (db w) /\
    same_metadata (db w) (db w') /\ env w' = env w /\
    vecInitialized w' = true.
Proof.
  unfold VectorStore.deleteVectorsByLibrary, bind. rewrite init_eq.
  unfold select_snippets. rewrite after_init_db.
  fold (library_ids libraryName (db w)).
  destruct (0 <? length (library_ids libraryName (db w))) eqn:E.
  - unfold delete_vectors. rewrite after_init_db.
    eexists. split; [reflexivity|]. unfold vector_table.
    cbn [db set_db emit with_vectors snippets_vec_fallback env vecInitialized].
    rewrite ?after_init_db, after_init_env, after_init_initialized.
    repeat split.
  - apply Nat.ltb_ge in E.
    destruct (library_ids libraryName (db w)) as [|x t] eqn:El; [|simpl in E; lia].
    eexists. split; [reflexivity|]. unfold vector_table.
    rewrite kept_vectors_nil, after_init_db, after_init_env,
      after_init_initialized.
    repeat split.
Qed.

(** X9: [deleteVectorsByLibrary] deletes exactly the vectors whose
    identifier is that of a snippet of the library and leaves the metadata
    alone.  Afterwards a search filtered by that library has no
    candidates, and, snippet identifiers being unique, the candidates of
    every other library are what they were. *)
Theorem deleteVectorsByLibrary_clears (libraryName : string) (w : World) :
  exists w',
    VectorStore.deleteVectorsByLibrary libraryName w = (Ok tt, w') /\
    same_metadata (db w) (db w') /\
    (forall r, In r (vector_table w') <->
               In r (vector_table w) /\
               ~ exists s, In s (snippets (db w)) /\
                           library (meta s) = libraryName /\
                           id s = snippet_id r) /\
    (libraryName <> EmptyString ->
     selected_rows (Some libraryName) (db w') = []) /\
    (NoDup (map id (snippets (db w))) ->
     forall other, other <> EmptyString -> other <> libraryName ->
       selected_rows (Some other) (db w') = selected_rows (Some other) (db w)).
Proof.
  destruct (deleteVectorsByLibrary_eq libraryName w)
    as (w' & E & T & M & _).
  exists w'. split; [exact E|]. split; [exact M|].
  destruct M as (Ms & _). unfold vector_table in *.
  split; [|split].
  - intros r. rewrite T, kept_vectors_In, library_ids_In. reflexivity.
  - intros Hne. unfold selected_rows.
    replace (truthy (Some libraryName)) with true.
    2:{ simpl. destruct (String.eqb_spec libraryName EmptyString); [contradiction|reflexivity]. }
    apply filter_none. intros r Hr. rewrite T in Hr.
    apply kept_vectors_In in Hr. destruct Hr as [_ Hr].
    destruct (existsb _ _) eqn:Ex; [|reflexivity].
    exfalso. apply Hr. apply existsb_exists in Ex.
    destruct Ex as (s & Hs & Hb). apply andb_true_iff in Hb.
    destruct Hb as [Hi Hl]. apply library_ids_In. exists s.
    rewrite Ms in Hs. split; [exact Hs|].
    split; [now apply String.eqb_eq|now apply Z.eqb_eq].
  - intros Hnd other Hne Hol. unfold selected_rows.
    replace (truthy (Some other)) with true.
    2:{ simpl. destruct (String.eqb_spec other EmptyString); [contradiction|reflexivity]. }
    rewrite T, Ms. unfold kept_vectors. apply filter_filter_implies.
    intros r Hr Ex. apply negb_true_iff, mem_Z_not_In. intros Hin.
    apply library_ids_In in Hin. destruct Hin as (s' & Hs' & Hl' & Hi').
    apply existsb_exists in Ex. destruct Ex as (s & Hs & Hb).
    apply andb_true_iff in Hb. destruct Hb as [Hi Hl].
    apply Z.eqb_eq in Hi. apply String.eqb_eq in Hl.
    assert (s = s') by (apply (NoDup_map_eq id (snippets (db w))); congruence).
    subst s'. congruence.
Qed.

(* ----------------------------------------------------------------- *)
(** ** Storing twice, counting, finding *)

Lemma filter_stored_none (ids : list Z) (rows : list VecRow) :
  map snippet_id rows = ids ->
  filter (fun r => negb (mem_Z (snippet_id r) ids)) rows = [].
Proof.
  intros H. apply filter_none. intros r Hr. apply negb_false_iff, mem_Z_In.
  rewrite <- H. now apply in_map.
Qed.

Lemma getVectorCount_eq (w : World) :
  VectorStore.getVectorCount w
  = (Ok (Z.of_nat (length (vector_table w))), after_init w).
Proof.
  unfold VectorStore.getVectorCount, bind, count_vectors, vector_table.
  rewrite init_eq. now rewrite after_init_db.
Qed.

Lemma forallb_normalises (vectors : list VectorInput) (rows : list VecRow) :
  map_result VectorStore.normalizedVector vectors = Ok rows ->
  forallb (fun v => is_ok (VectorStore.normalizeEmbedding
                             (rawEmbedding v) (inputProvider v))) vectors = true.
Proof.
  intros H. apply map_result_ok_inv in H. apply forallb_forall.
  induction H as [|v r vs rs Hv _ IH]; intros x Hx; [contradiction|].
  destruct Hx as [<-|Hx]; [|now apply IH].
  unfold VectorStore.normalizedVector in Hv.
  now destruct (VectorStore.normalizeEmbedding _ _).
Qed.

(** X10: storing a batch replaces, it does not add.  For a batch with
    distinct identifiers whose embeddings normalise, a second
    [storeVectors] of the same batch returns as the first did and leaves
    the table exactly as the first left it; [getVectorCount] then reports
    the rows of other snippets plus one row per record, after one store
    and after two. *)
Theorem storeVectors_idempotent (vectors : list VectorInput) (w : World) :
  has_dup (map snippetId vectors) = false ->
  forallb (fun v => is_ok (VectorStore.normalizeEmbedding
                             (rawEmbedding v) (inputProvider v))) vectors = true ->
  exists w1 w2,
    VectorStore.storeVectors vectors w = (Ok tt, w1) /\
    VectorStore.storeVectors vectors w1 = (Ok tt, w2) /\
    vector_table w2 = vector_table w1 /\
    let count := Z.of_nat (length (kept_vectors (map snippetId vectors) (db w))
                           + length vectors) in
    fst (VectorStore.getVectorCount w1) = Ok count /\
    fst (VectorStore.getVectorCount w2) = Ok count.
Proof.
  intros Hd Hn.
  destruct (storeVectors_succeeds vectors w Hd Hn) as (w1 & E1).
  destruct (storeVectors_succeeds vectors w1 Hd Hn) as (w2 & E2).
  exists w1, w2. split; [exact E1|]. split; [exact E2|].
  destruct (storeVectors_ok_inv _ _ _ E1) as (rows & b1 & Hr & T1 & _).
  destruct (storeVectors_ok_inv _ _ _ E2) as (rows' & b2 & Hr' & T2 & _).
  rewrite Hr in Hr'. injection Hr' as <-.
  destruct (normalizedVector_ids vectors rows (map_result_ok_inv _ _ _ Hr))
    as [Hids Hlen].
  assert (T : vector_table w2 = vector_table w1).
  { unfold vector_table. rewrite T2, T1.
    rewrite (kept_vectors_app _ _ _ _ T1), filter_kept_idem,
      (filter_stored_none _ _ Hids).
    now rewrite app_nil_r. }
  split; [exact T|]. cbv zeta. rewrite !getVectorCount_eq. cbn [fst].
  rewrite T. unfold vector_table. rewrite T1, length_app, Hlen. split; reflexivity.
Qed.

Lemma storeVectors_idempotent_witness :
  has_dup (map snippetId vectors_two) = false /\
  forallb (fun v => is_ok (VectorStore.normalizeEmbedding
                             (rawEmbedding v) (inputProvider v))) vectors_two = true /\
  exists w1 w2,
    VectorStore.storeVectors vectors_two (world_of no_env db_old_vector) = (Ok tt, w1) /\
    VectorStore.storeVectors vectors_two w1 = (Ok tt, w2) /\
    vector_table w2 = vector_table w1 /\
    fst (VectorStore.getVectorCount w1) = Ok 3%Z /\
    fst (VectorStore.getVectorCount w2) = Ok 3%Z.
Proof.
  split; [reflexivity|]. split; [vm_compute; reflexivity|].
  apply (storeVectors_idempotent vectors_two (world_of no_env db_old_vector));
    vm_compute; reflexivity.
Defined.

Lemma Forall2_In_l {A B} (R : A -> B -> Prop) (l : list A) (l' : list B) (x : A) :
  Forall2 R l l' -> In x l -> exists y, In y l' /\ R x y.
Proof.
  induction 1 as [|a b t t' Hab _ IH]; intros Hx; [contradiction|].
  destruct Hx as [<-|Hx].
  - exists b. split; [now left|exact Hab].
  - destruct (IH Hx) as (y & Hy & Hr). exists y. split; [now right|exact Hr].
Qed.

(** X11: what is stored is found.  After a [storeVectors] that returned,
    an unfiltered [similaritySearch] with a query that normalises and a
    limit of at least the row count returns one hit per row of the table;
    among them, for every record of the batch, a hit with the record's
    identifier whose distance is [1 - similarity] of the query and the
    record's normalised embedding rounded to binary32. *)
Theorem stored_vectors_are_found (vectors : list VectorInput) (w w1 : World)
    (queryEmbedding normalized : list number) (p : EmbeddingProvider)
    (limit : Z) :
  VectorStore.storeVectors vectors w = (Ok tt, w1) ->
  VectorStore.normalizeEmbedding queryEmbedding p = Ok normalized ->
  (Z.of_nat (length (vector_table w1)) <= limit)%Z ->
  exists hits w2,
    VectorStore.similaritySearch queryEmbedding p limit None w1 = (Ok hits, w2) /\
    Permutation (map hitSnippetId hits) (map snippet_id (vector_table w1)) /\
    (forall v, In v vectors ->
       exists stored h,
         VectorStore.normalizeEmbedding (rawEmbedding v) (inputProvider v)
           = Ok stored /\
         In h hits /\ hitSnippetId h = snippetId v /\
         distance h =
           (1 - VectorStore.similarity normalized (map fround stored))%float).
Proof.
  intros E Hq Hl.
  rewrite (similaritySearch_eq _ _ _ _ _ _ Hq). cbn [selected_rows].
  set (hits := array_sort VectorStore.by_distance
                 (map (VectorStore.to_hit normalized) (snippets_vec_fallback (db w1)))).
  assert (P : Permutation hits
                (map (VectorStore.to_hit normalized) (snippets_vec_fallback (db w1))))
    by apply array_sort_perm.
  assert (L : length hits = length (vector_table w1)).
  { rewrite (Permutation_length P). apply length_map. }
  rewrite slice_0_whole by lia.
  do 2 eexists. split; [reflexivity|]. split.
  - rewrite (Permutation_map hitSnippetId P), map_map. reflexivity.
  - intros v Hv.
    destruct (storeVectors_ok_inv _ _ _ E) as (rows & b & Hr & T & _).
    apply map_result_ok_inv in Hr.
    destruct (Forall2_In_l _ _ _ v Hr Hv) as (r & Hrin & Hvr).
    unfold VectorStore.normalizedVector in Hvr.
    destruct (VectorStore.normalizeEmbedding (rawEmbedding v) (inputProvider v))
      as [stored|] eqn:Es; [|discriminate].
    injection Hvr as <-.
    exists stored, (VectorStore.to_hit normalized
                      (Build_VecRow (snippetId v) (map fround stored))).
    split; [reflexivity|]. split; [|split; reflexivity].
    apply (Permutation_in _ (Permutation_sym P)). apply in_map.
    rewrite T. apply in_or_app. now right.
Qed.

Lemma stored_vectors_are_found_witness :
  let w := world_of no_env db_old_vector in
  let w1 := snd (VectorStore.storeVectors vectors_two w) in
  VectorStore.storeVectors vectors_two w = (Ok tt, w1) /\
  VectorStore.normalizeEmbedding query_ones openai = Ok query_ones /\
  (Z.of_nat (length (vector_table w1)) <= 10)%Z /\
  exists hits w2,
    VectorStore.similaritySearch query_ones openai 10 None w1 = (Ok hits, w2) /\
    Permutation (map hitSnippetId hits) (map snippet_id (vector_table w1)) /\
    (forall v, In v vectors_two ->
       exists stored h,
         VectorStore.normalizeEmbedding (rawEmbedding v) (inputProvider v)
           = Ok stored /\
         In h hits /\ hitSnippetId h = snippetId v /\
         distance h =
           (1 - VectorStore.similarity query_ones (map fround stored))%float).
Proof.
  cbv zeta.
  assert (H1 : VectorStore.storeVectors vectors_two (world_of no_env db_old_vector)
               = (Ok tt, snd (VectorStore.storeVectors vectors_two
                                (world_of no_env db_old_vector))))
    by (vm_compute; reflexivity).
  assert (H2 : VectorStore.normalizeEmbedding query_ones openai = Ok query_ones)
    by (vm_compute; reflexivity).
  assert (H3 : (Z.of_nat (length (vector_table
                  (snd (VectorStore.storeVectors vectors_two
                          (world_of no_env db_old_vector))))) <= 10)%Z)
    by (vm_compute; discriminate).
  split; [exact H1|]. split; [exact H2|]. split; [exact H3|].
  exact (stored_vectors_are_found vectors_two (world_of no_env db_old_vector)
           _ query_ones query_ones openai 10%Z H1 H2 H3).
Defined.

(* ----------------------------------------------------------------- *)
(** ** Searching the snippet store *)

Lemma after_init_twice (w : World) : after_init (after_init w) = after_init w.
Proof. apply after_init_idem, after_init_initialized. Qed.

Lemma snippet_similaritySearch_eq (libraryName : string)
    (q normalized : list number) (p : EmbeddingProvider) (limit : Z) (w : World) :
  VectorStore.normalizeEmbedding q p = Ok normalized ->
  SnippetStoreV2.similaritySearch libraryName q p limit w =
  (Ok (ranked (db w) (nearest normalized libraryName (db w) (limit * 2)) limit),
   emit (SelectVectors (Some libraryName)) (after_init w)).
Proof.
  intros Hq. unfold SnippetStoreV2.similaritySearch, SnippetStoreV2.init, bind.
  rewrite init_eq, (similaritySearch_eq _ _ _ _ _ _ Hq), after_init_twice,
    after_init_db.
  fold (nearest normalized libraryName (db w) (limit * 2)).
  unfold ranked.
  destruct (length (nearest normalized libraryName (db w) (limit * 2)) =? 0);
    [reflexivity|].
  unfold select_snippets_in, ret. cbn [db emit]. rewrite after_init_db.
  reflexivity.
Qed.

Lemma crossProviderSearch_eq (libraryName : string)
    (q normalized : list number) (p : EmbeddingProvider) (limit : Z) (w : World) :
  VectorStore.normalizeEmbedding q p = Ok normalized ->
  SnippetStoreV2.crossProviderSearch libraryName q p limit w =
  (Ok (ranked (db w) (nearest normalized libraryName (db w) (limit * 3)) limit),
   emit (SelectVectors (Some libraryName)) (after_init w)).
Proof.
  intros Hq. unfold SnippetStoreV2.crossProviderSearch, SnippetStoreV2.init, bind.
  rewrite init_eq, (similaritySearch_eq _ _ _ _ _ _ Hq), after_init_twice,
    after_init_db.
  fold (nearest normalized libraryName (db w) (limit * 3)).
  unfold ranked.
  destruct (length (nearest normalized libraryName (db w) (limit * 3)) =? 0);
    [reflexivity|].
  unfold select_snippets_in, ret. cbn [db emit]. rewrite after_init_db.
  reflexivity.
Qed.

Lemma snippet_search_throws (libraryName : string) (q : list number)
    (p : EmbeddingProvider) (limit : Z) (w : World) (e : JsError) :
  VectorStore.normalizeEmbedding q p = Throw e ->
  SnippetStoreV2.similaritySearch libraryName q p limit w = (Throw e, after_init w) /\
  SnippetStoreV2.crossProviderSearch libraryName q p limit w = (Throw e, after_init w).
Proof.
  intros Hq.
  unfold SnippetStoreV2.similaritySearch, SnippetStoreV2.crossProviderSearch,
    SnippetStoreV2.init, bind.
  now rewrite init_eq, !(similaritySearch_throws _ _ _ _ _ _ Hq), after_init_twice.
Qed.

Lemma sql_limit_length {A} (n : Z) (l : list A) :
  (0 <= n)%Z -> length (sql_limit n l) <= Z.to_nat n.
Proof.
  intros Hn. unfold sql_limit. destruct (n <? 0)%Z eqn:E.
  - apply Z.ltb_lt in E. lia.
  - rewrite length_firstn. lia.
Qed.

Lemma sql_limit_In {A} (n : Z) (l : list A) (x : A) :
  In x (sql_limit n l) -> In x l.
Proof.
  unfold sql_limit. destruct (n <? 0)%Z; [trivial|apply In_firstn].
Qed.

Lemma sql_limit_all {A} (n : Z) (l : list A) :
  (Z.of_nat (length l) <= n)%Z -> sql_limit n l = l.
Proof.
  intros H. unfold sql_limit. destruct (n <? 0)%Z; [reflexivity|].
  apply firstn_all2. lia.
Qed.

Lemma ranked_length (d : Database) (hits : list SearchHit) (limit : Z) :
  (0 <= limit)%Z -> length (ranked d hits limit) <= Z.to_nat limit.
Proof.
  intros Hl. unfold ranked. destruct (length hits =? 0); [simpl; lia|].
  rewrite (Permutation_length (array_sort_perm _ _)), length_map.
  now apply sql_limit_length.
Qed.

Lemma find_hit (hits : list SearchHit) (x : Z) :
  In x (map hitSnippetId hits) ->
  exists h, find (fun v => (hitSnippetId v =? x)%Z) hits = Some h /\
            In h hits /\ hitSnippetId h = x.
Proof.
  induction hits as [|h t IH]; simpl; [contradiction|].
  intros [E|H].
  - exists h. rewrite E, Z.eqb_refl. auto.
  - destruct (hitSnippetId h =? x)%Z eqn:Eh.
    + exists h. apply Z.eqb_eq in Eh. auto.
    + destruct (IH H) as (h' & F & I & E). exists h'. auto.
Qed.

Lemma ranked_In (d : Database) (hits : list SearchHit) (limit : Z)
    (r : SnippetStoreV2.ScoredSnippet) :
  In r (ranked d hits limit) ->
  In (SnippetStoreV2.scored r) (matching_snippets hits d) /\
  exists h, In h hits /\ hitSnippetId h = id (SnippetStoreV2.scored r) /\
            SnippetStoreV2.similarity r = (1 - distance h)%float.
Proof.
  unfold ranked. destruct (length hits =? 0); [contradiction|].
  intros H. apply (Permutation_in _ (array_sort_perm _ _)) in H.
  apply in_map_iff in H. destruct H as (s & <- & Hs).
  apply sql_limit_In in Hs. split; [exact Hs|].
  unfold matching_snippets in Hs. apply filter_In in Hs.
  destruct Hs as [_ Hm]. apply mem_Z_In in Hm.
  destruct (find_hit hits (id s) Hm) as (h & F & I & E).
  exists h. split; [exact I|]. split; [exact E|].
  unfold SnippetStoreV2.with_similarity. cbn [SnippetStoreV2.similarity].
  now rewrite F.
Qed.

Lemma nearest_In (normalized : list number) (libraryName : string)
    (d : Database) (n : Z) (h : SearchHit) :
  (0 <= n)%Z -> In h (nearest normalized libraryName d n) ->
  exists row, In row (selected_rows (Some libraryName) d) /\
              h = VectorStore.to_hit normalized row.
Proof.
  intros Hn H. unfold nearest in H. rewrite slice_0_nonneg in H by exact Hn.
  apply In_firstn in H. apply (Permutation_in _ (array_sort_perm _ _)) in H.
  apply in_map_iff in H. destruct H as (row & <- & Hr). now exists row.
Qed.

Lemma selected_rows_In (libraryName : string) (d : Database) (row : VecRow) :
  In row (selected_rows (Some libraryName) d) ->
  In row (snippets_vec_fallback d) /\
  (libraryName <> EmptyString ->
   exists s, In s (snippets d) /\ id s = snippet_id row /\
             library (meta s) = libraryName).
Proof.
  unfold selected_rows. cbn [truthy].
  destruct (String.eqb_spec libraryName EmptyString) as [->|Hne]; cbn [negb].
  - intros H. split; [exact H|]. intros N. now contradiction N.
  - intros H. apply filter_In in H. destruct H as [Hr Hx].
    split; [exact Hr|]. intros _. apply existsb_exists in Hx.
    destruct Hx as (s & Hs & Hb). apply andb_true_iff in Hb.
    destruct Hb as [Hi Hl]. exists s. split; [exact Hs|].
    split; [now apply Z.eqb_eq|now apply String.eqb_eq].
Qed.

(** Sorting by [b.similarity - a.similarity]. *)
Lemma by_similarity_lt (a b : SnippetStoreV2.ScoredSnippet) :
  scored_number a -> scored_number b ->
  (SnippetStoreV2.by_similarity a b <? 0)%float
  = (SnippetStoreV2.similarity b <? SnippetStoreV2.similarity a)%float.
Proof. intros Ha Hb. unfold SnippetStoreV2.by_similarity. now apply sub_ltb_zero. Qed.

Lemma sort_insert_ranked (x : SnippetStoreV2.ScoredSnippet)
    (l : list SnippetStoreV2.ScoredSnippet) :
  scored_number x -> Forall scored_number l -> Sorted ge_similarity l ->
  Sorted ge_similarity (sort_insert SnippetStoreV2.by_similarity x l).
Proof.
  intros Hx Hl Hs. induction Hs as [|y t Ht IH Hhd]; simpl.
  - repeat constructor.
  - inversion Hl as [|? ? Hy Hl']; subst.
    rewrite (by_similarity_lt _ _ Hx Hy).
    destruct (SnippetStoreV2.similarity y <? SnippetStoreV2.similarity x)%float eqn:E.
    + constructor; [now constructor|]. constructor. now apply ltb_leb.
    + constructor; [now apply IH|].
      assert (Hyx : ge_similarity y x) by (now apply not_ltb_leb).
      destruct t as [|z t']; simpl.
      * now constructor.
      * inversion Hl' as [|? ? Hz _]; subst.
        rewrite (by_similarity_lt _ _ Hx Hz).
        destruct (SnippetStoreV2.similarity z <? SnippetStoreV2.similarity x)%float.
        -- now constructor.
        -- constructor. now inversion Hhd.
Qed.

Lemma array_sort_ranked (l : list SnippetStoreV2.ScoredSnippet) :
  Forall scored_number l ->
  Sorted ge_similarity (array_sort SnippetStoreV2.by_similarity l).
Proof.
  unfold array_sort.
  assert (H : forall acc, Forall scored_number acc -> Sorted ge_similarity acc ->
            Forall scored_number l ->
            Sorted ge_similarity
              (fold_left (fun sorted x =>
                            sort_insert SnippetStoreV2.by_similarity x sorted) l acc)).
  { induction l as [|x t IH]; intros acc Ha Hs Hl; simpl.
    - exact Hs.
    - inversion Hl; subst. apply IH; [| |assumption].
      + eapply Permutation_Forall; [symmetry; apply sort_insert_perm|].
        now constructor.
      + now apply sort_insert_ranked. }
  intros Hl. apply H; [constructor|constructor|exact Hl].
Qed.

Lemma ranked_sorted (d : Database) (hits : list SearchHit) (limit : Z) :
  Forall scored_number (ranked d hits limit) ->
  Sorted ge_similarity (ranked d hits limit).
Proof.
  unfold ranked. destruct (length hits =? 0); [constructor|].
  intros H. apply array_sort_ranked.
  eapply Permutation_Forall; [apply array_sort_perm|exact H].
Qed.

(** X12: for a query that normalises and a limit that is not negative,
    [SnippetStoreV2.similaritySearch] returns at most [limit] snippets.
    Each is a row of [snippets] whose identifier is that of a stored
    vector, of the library searched when snippet identifiers are unique
    and the library name is not empty, and its [similarity] is
    [1 - (1 - s)] for the similarity [s] of that vector and the
    normalised query.  The result is in non-increasing order of
    similarity whenever no similarity is [NaN]. *)
Theorem snippet_similaritySearch_ranked (libraryName : string)
    (queryEmbedding normalized : list number) (p : EmbeddingProvider)
    (limit : Z) (w : World) :
  VectorStore.normalizeEmbedding queryEmbedding p = Ok normalized ->
  (0 <= limit)%Z ->
  exists results w',
    SnippetStoreV2.similaritySearch libraryName queryEmbedding p limit w
      = (Ok results, w') /\
    db w' = db w /\
    (Z.of_nat (length results) <= limit)%Z /\
    (forall r, In r results ->
       In (SnippetStoreV2.scored r) (snippets (db w)) /\
       (exists row,
           In row (vector_table w) /\
           snippet_id row = id (SnippetStoreV2.scored r) /\
           SnippetStoreV2.similarity r =
             (1 - (1 - VectorStore.similarity normalized (embedding row)))%float) /\
       (NoDup (map id (snippets (db w))) -> libraryName <> EmptyString ->
        library (meta (SnippetStoreV2.scored r)) = libraryName)) /\
    (Forall scored_number results -> Sorted ge_similarity results).
Proof.
  intros Hq Hl. rewrite (snippet_similaritySearch_eq _ _ _ _ _ _ Hq).
  do 2 eexists. split; [reflexivity|].
  split; [cbn [db emit]; apply after_init_db|].
  split; [pose proof (ranked_length (db w)
            (nearest normalized libraryName (db w) (limit * 2)) limit Hl); lia|].
  split; [|apply ranked_sorted].
  intros r Hr. apply ranked_In in Hr. destruct Hr as (Hm & h & Hh & Hid & Hs).
  unfold matching_snippets in Hm. apply filter_In in Hm. destruct Hm as [Hin _].
  apply nearest_In in Hh; [|lia]. destruct Hh as (row & Hrow & ->).
  apply selected_rows_In in Hrow. destruct Hrow as [Hrow Hlib].
  split; [exact Hin|]. split.
  - exists row. split; [exact Hrow|]. split; [exact Hid|]. exact Hs.
  - intros Hnd Hne. destruct (Hlib Hne) as (s & Hs' & Hi & Hlb).
    cbn [hitSnippetId VectorStore.to_hit] in Hid.
    assert (s = SnippetStoreV2.scored r)
      by (apply (NoDup_map_eq id (snippets (db w))); congruence).
    now subst s.
Qed.

Lemma snippet_similaritySearch_ranked_witness :
  VectorStore.normalizeEmbedding query_unit gemini
    = Ok (query_unit ++ repeat 0%float 2304) /\
  (0 <= 1)%Z /\
  let w := world_of no_env db_near_far in
  let normalized := query_unit ++ repeat 0%float 2304 in
  exists results w',
    SnippetStoreV2.similaritySearch "acme/docs" query_unit gemini 1 w
      = (Ok results, w') /\
    db w' = db w /\
    (Z.of_nat (length results) <= 1)%Z /\
    (forall r, In r results ->
       In (SnippetStoreV2.scored r) (snippets (db w)) /\
       (exists row,
           In row (vector_table w) /\
           snippet_id row = id (SnippetStoreV2.scored r) /\
           SnippetStoreV2.similarity r =
             (1 - (1 - VectorStore.similarity normalized (embedding row)))%float) /\
       (NoDup (map id (snippets (db w))) -> "acme/docs"%string <> EmptyString ->
        library (meta (SnippetStoreV2.scored r)) = "acme/docs"%string)) /\
    (Forall scored_number results -> Sorted ge_similarity results).
Proof.
  assert (H : VectorStore.normalizeEmbedding query_unit gemini
              = Ok (query_unit ++ repeat 0%float 2304))
    by (apply normalizeEmbedding_gemini_768; reflexivity).
  split; [exact H|]. split; [lia|].
  apply (snippet_similaritySearch_ranked "acme/docs" query_unit
           (query_unit ++ repeat 0%float 2304) gemini 1
           (world_of no_env db_near_far) H).
  lia.
Defined.

Lemma NoDup_map_filter {A B} (f : A -> B) (g : A -> bool) (l : list A) :
  NoDup (map f l) -> NoDup (map f (filter g l)).
Proof.
  induction l as [|x t IH]; simpl; intros H; [constructor|].
  inversion H as [|? ? Hx Ht]; subst.
  destruct (g x); simpl; [|now apply IH].
  constructor; [|now apply IH].
  intros Hin. apply Hx. apply in_map_iff in Hin.
  destruct Hin as (y & E & Hy). apply filter_In in Hy.
  rewrite <- E. apply in_map. tauto.
Qed.

Lemma matching_snippets_length (hits : list SearchHit) (d : Database) :
  NoDup (map id (snippets d)) ->
  length (matching_snippets hits d) <= length hits.
Proof.
  intros Hnd. unfold matching_snippets.
  rewrite <- (length_map id), <- (length_map hitSnippetId hits).
  apply NoDup_incl_length; [now apply NoDup_map_filter|].
  intros x Hx. apply in_map_iff in Hx. destruct Hx as (s & <- & Hs).
  apply filter_In in Hs. now apply mem_Z_In.
Qed.

Lemma nearest_all (normalized : list number) (libraryName : string)
    (d : Database) (n : Z) :
  (Z.of_nat (length (selected_rows (Some libraryName) d)) <= n)%Z ->
  nearest normalized libraryName d n =
  array_sort VectorStore.by_distance
    (map (VectorStore.to_hit normalized) (selected_rows (Some libraryName) d)).
Proof.
  intros H. unfold nearest. apply slice_0_whole.
  now rewrite (Permutation_length (array_sort_perm _ _)), length_map.
Qed.

(** X13: when the library has no more than [limit] candidate vectors and
    snippet identifiers are unique, [SnippetStoreV2.similaritySearch]
    leaves nothing out: every snippet that has a candidate vector is in
    the result. *)
Theorem snippet_similaritySearch_complete (libraryName : string)
    (queryEmbedding normalized : list number) (p : EmbeddingProvider)
    (limit : Z) (w : World) :
  VectorStore.normalizeEmbedding queryEmbedding p = Ok normalized ->
  NoDup (map id (snippets (db w))) ->
  (Z.of_nat (length (selected_rows (Some libraryName) (db w))) <= limit)%Z ->
  exists results w',
    SnippetStoreV2.similaritySearch libraryName queryEmbedding p limit w
      = (Ok results, w') /\
    forall s, In s (snippets (db w)) ->
      (exists row, In row (selected_rows (Some libraryName) (db w)) /\
                   snippet_id row = id s) ->
      exists r, In r results /\ SnippetStoreV2.scored r = s.
Proof.
  intros Hq Hnd Hl. rewrite (snippet_similaritySearch_eq _ _ _ _ _ _ Hq).
  do 2 eexists. split; [reflexivity|].
  intros s Hs (row & Hrow & Hid).
  rewrite nearest_all by lia.
  set (cands := selected_rows (Some libraryName) (db w)) in *.
  set (hits := array_sort VectorStore.by_distance
                 (map (VectorStore.to_hit normalized) cands)).
  assert (P : Permutation hits (map (VectorStore.to_hit normalized) cands))
    by apply array_sort_perm.
  assert (Lh : length hits = length cands).
  { rewrite (Permutation_length P). apply length_map. }
  assert (Hm : In s (matching_snippets hits (db w))).
  { unfold matching_snippets. apply filter_In. split; [exact Hs|].
    apply mem_Z_In. rewrite (Permutation_map hitSnippetId P), map_map.
    cbn [hitSnippetId VectorStore.to_hit]. rewrite <- Hid. now apply in_map. }
  unfold ranked.
  destruct (length hits =? 0) eqn:E0.
  { apply Nat.eqb_eq in E0. rewrite Lh in E0.
    destruct cands; [contradiction|discriminate]. }
  exists (SnippetStoreV2.with_similarity hits s). split; [|reflexivity].
  apply (Permutation_in _ (Permutation_sym (array_sort_perm _ _))).
  apply in_map. rewrite sql_limit_all; [exact Hm|].
  pose proof (matching_snippets_length hits (db w) Hnd). lia.
Qed.

Lemma snippet_similaritySearch_complete_witness :
  VectorStore.normalizeEmbedding query_unit gemini
    = Ok (query_unit ++ repeat 0%float 2304) /\
  NoDup (map id (snippets (db (world_of no_env db_near_far)))) /\
  (Z.of_nat (length (selected_rows (Some "acme/docs"%string)
                       (db (world_of no_env db_near_far)))) <= 2)%Z /\
  exists results w',
    SnippetStoreV2.similaritySearch "acme/docs" query_unit gemini 2
      (world_of no_env db_near_far) = (Ok results, w') /\
    forall s, In s (snippets (db (world_of no_env db_near_far))) ->
      (exists row, In row (selected_rows (Some "acme/docs"%string)
                             (db (world_of no_env db_near_far))) /\
                   snippet_id row = id s) ->
      exists r, In r results /\ SnippetStoreV2.scored r = s.
Proof.
  assert (H1 : VectorStore.normalizeEmbedding query_unit gemini
               = Ok (query_unit ++ repeat 0%float 2304))
    by (apply normalizeEmbedding_gemini_768; reflexivity).
  assert (H2 : NoDup (map id (snippets (db (world_of no_env db_near_far))))).
  { apply has_dup_NoDup. reflexivity. }
  assert (H3 : (Z.of_nat (length (selected_rows (Some "acme/docs"%string)
                          (db (world_of no_env db_near_far)))) <= 2)%Z)
    by (vm_compute; discriminate).
  split; [exact H1|]. split; [exact H2|]. split; [exact H3|].
  exact (snippet_similaritySearch_complete "acme/docs" query_unit _ gemini 2
           (world_of no_env db_near_far) H1 H2 H3).
Defined.

(** With more candidates than [limit] the rows are cut in table order
    before they are ranked: with a limit of one the nearer snippet, which
    [VectorStore.similaritySearch] puts first, is the one left out. *)
Example snippet_similaritySearch_cuts_in_table_order :
  let w := world_of no_env db_near_far in
  map hitSnippetId
      match fst (VectorStore.similaritySearch query_unit gemini 1
                   (Some "acme/docs"%string) w) with
      | Ok hits => hits
      | Throw _ => []
      end = [2%Z] /\
  map (fun r => (id (SnippetStoreV2.scored r), SnippetStoreV2.similarity r))
      match fst (SnippetStoreV2.similaritySearch "acme/docs" query_unit gemini 1 w) with
      | Ok results => results
      | Throw _ => []
      end = [(1%Z, (-1)%float)].
Proof. vm_compute. split; reflexivity. Qed.

(** X14: the two searches differ only in how many vector hits they ask
    for, [3 * limit] against [2 * limit].  When the library has no more
    than [2 * limit] candidate vectors, [crossProviderSearch] returns
    what [similaritySearch] returns and leaves the same world; in every
    case it returns at most [limit] snippets. *)
Theorem crossProviderSearch_agrees (libraryName : string)
    (queryEmbedding normalized : list number) (p : EmbeddingProvider)
    (limit : Z) (w : World) :
  VectorStore.normalizeEmbedding queryEmbedding p = Ok normalized ->
  (0 <= limit)%Z ->
  (exists results w',
      SnippetStoreV2.crossProviderSearch libraryName queryEmbedding p limit w
        = (Ok results, w') /\
      (Z.of_nat (length results) <= limit)%Z) /\
  ((Z.of_nat (length (selected_rows (Some libraryName) (db w))) <= limit * 2)%Z ->
   SnippetStoreV2.crossProviderSearch libraryName queryEmbedding p limit w
   = SnippetStoreV2.similaritySearch libraryName queryEmbedding p limit w).
Proof.
  intros Hq Hl.
  rewrite (crossProviderSearch_eq _ _ _ _ _ _ Hq),
    (snippet_similaritySearch_eq _ _ _ _ _ _ Hq).
  split.
  - do 2 eexists. split; [reflexivity|].
    pose proof (ranked_length (db w)
      (nearest normalized libraryName (db w) (limit * 3)) limit Hl). lia.
  - intros Hc. now rewrite !nearest_all by lia.
Qed.

Lemma crossProviderSearch_agrees_witness :
  VectorStore.normalizeEmbedding query_unit gemini
    = Ok (query_unit ++ repeat 0%float 2304) /\
  (0 <= 1)%Z /\
  (exists results w',
      SnippetStoreV2.crossProviderSearch "acme/docs" query_unit gemini 1
        (world_of no_env db_near_far) = (Ok results, w') /\
      (Z.of_nat (length results) <= 1)%Z) /\
  ((Z.of_nat (length (selected_rows (Some "acme/docs"%string)
                        (db (world_of no_env db_near_far)))) <= 1 * 2)%Z ->
   SnippetStoreV2.crossProviderSearch "acme/docs" query_unit gemini 1
     (world_of no_env db_near_far)
   = SnippetStoreV2.similaritySearch "acme/docs" query_unit gemini 1
       (world_of no_env db_near_far)).
Proof.
  assert (H : VectorStore.normalizeEmbedding query_unit gemini
              = Ok (query_unit ++ repeat 0%float 2304))
    by (apply normalizeEmbedding_gemini_768; reflexivity).
  split; [exact H|]. split; [lia|].
  apply (crossProviderSearch_agrees "acme/docs" query_unit
           (query_unit ++ repeat 0%float 2304) gemini 1
           (world_of no_env db_near_far) H).
  lia.
Defined.

(* ----------------------------------------------------------------- *)
(** ** Deleting and reading back the snippets of a library *)

Lemma getAllSnippets_eq (libraryName : string) (limit : Z) (w : World) :
  SnippetStoreV2.getAllSnippets libraryName limit w
  = (Ok (sql_limit limit (snippets_of libraryName (db w))), after_init w).
Proof.
  unfold SnippetStoreV2.getAllSnippets, SnippetStoreV2.init, bind.
  rewrite init_eq. unfold select_snippets. now rewrite after_init_db.
Qed.

Lemma filter_negb_none {A} (f : A -> bool) (l : list A) :
  filter f (filter (fun x => negb (f x)) l) = [].
Proof.
  apply filter_none. intros x Hx. apply filter_In in Hx.
  destruct Hx as [_ Hx]. now apply negb_true_iff in Hx.
Qed.

Lemma in_library_other (a b : string) (s : SnippetRow) :
  a <> b -> in_library a s = true -> negb (in_library b s) = true.
Proof.
  unfold in_library. intros Hne Ha. apply String.eqb_eq in Ha.
  apply negb_true_iff, String.eqb_neq. congruence.
Qed.

Lemma deleteLibrarySnippets_eq (libraryName : string) (w : World) :
  exists w',
    SnippetStoreV2.deleteLibrarySnippets libraryName w = (Ok tt, w') /\
    snippets (db w') =
      filter (fun s => negb (in_library libraryName s)) (snippets (db w)) /\
    vector_table w' = kept_vectors (library_ids libraryName (db w)) (db w) /\
    libraries (db w') = libraries (db w) /\
    foreign_keys (db w') = foreign_keys (db w) /\
    snippets_seq (db w') = snippets_seq (db w).
Proof.
  unfold SnippetStoreV2.deleteLibrarySnippets, SnippetStoreV2.init, bind at 1.
  rewrite init_eq. unfold bind.
  destruct (deleteVectorsByLibrary_eq libraryName (after_init w))
    as (w1 & E & T & (Ms & Mq & Ml & Mf) & _).
  rewrite E. unfold delete_snippets. eexists. split; [reflexivity|].
  unfold vector_table in *.
  cbn [db set_db with_snippets snippets snippets_vec_fallback libraries
       foreign_keys snippets_seq].
  rewrite Ms, T, Ml, Mf, Mq, !after_init_db. repeat split.
Qed.

Lemma slice_nil {A} (start end_ : Z) : slice (@nil A) start end_ = [].
Proof. unfold slice. now rewrite skipn_nil, firstn_nil. Qed.

Lemma selected_rows_without (libraryName : string) (d : Database) :
  libraryName <> EmptyString ->
  (forall s, In s (snippets d) -> library (meta s) <> libraryName) ->
  selected_rows (Some libraryName) d = [].
Proof.
  intros Hne H. unfold selected_rows. cbn [truthy].
  destruct (String.eqb_spec libraryName EmptyString); [contradiction|]. cbn [negb].
  apply filter_none. intros r _.
  destruct (existsb _ _) eqn:Ex; [|reflexivity].
  apply existsb_exists in Ex. destruct Ex as (s & Hs & Hb).
  apply andb_true_iff in Hb. destruct Hb as [_ Hl].
  apply String.eqb_eq in Hl. now apply H in Hs.
Qed.

(** X15: [deleteLibrarySnippets] returns, having deleted the snippets of
    the library and the vectors that carried their identifiers, and
    nothing else: [getAllSnippets] then finds nothing for that library and
    what it found before for every other one, and a similarity search in
    the library, if it has a name, comes back empty.  The identifier
    counter is not reset, so identifiers of deleted snippets are not given
    out again. *)
Theorem deleteLibrarySnippets_clears (libraryName : string) (w : World) :
  exists w',
    SnippetStoreV2.deleteLibrarySnippets libraryName w = (Ok tt, w') /\
    (forall s, In s (snippets (db w')) <->
               In s (snippets (db w)) /\ library (meta s) <> libraryName) /\
    (forall r, In r (vector_table w') <->
               In r (vector_table w) /\
               ~ exists s, In s (snippets (db w)) /\
                           library (meta s) = libraryName /\
                           id s = snippet_id r) /\
    libraries (db w') = libraries (db w) /\
    snippets_seq (db w') = snippets_seq (db w) /\
    (forall limit,
        fst (SnippetStoreV2.getAllSnippets libraryName limit w') = Ok []) /\
    (forall other limit, other <> libraryName ->
        fst (SnippetStoreV2.getAllSnippets other limit w')
        = fst (SnippetStoreV2.getAllSnippets other limit w)) /\
    (forall q p normalized limit,
        libraryName <> EmptyString ->
        VectorStore.normalizeEmbedding q p = Ok normalized ->
        fst (SnippetStoreV2.similaritySearch libraryName q p limit w') = Ok []).
Proof.
  destruct (deleteLibrarySnippets_eq libraryName w)
    as (w' & E & S & T & L & _ & Q).
  exists w'. split; [exact E|].
  split; [|split; [|split; [exact L|split; [exact Q|split; [|split]]]]].
  - intros s. rewrite S, filter_In, negb_true_iff. unfold in_library.
    rewrite String.eqb_neq. reflexivity.
  - intros r. unfold vector_table in *.
    rewrite T, kept_vectors_In, library_ids_In. reflexivity.
  - intros limit. rewrite getAllSnippets_eq. cbn [fst]. unfold snippets_of.
    rewrite S, filter_negb_none. unfold sql_limit.
    destruct (limit <? 0)%Z; [reflexivity|]. now rewrite firstn_nil.
  - intros other limit Hne. rewrite !getAllSnippets_eq. cbn [fst].
    unfold snippets_of. rewrite S. f_equal. f_equal.
    apply filter_filter_implies. intros s _. now apply in_library_other.
  - intros q p normalized limit Hne Hq.
    rewrite (snippet_similaritySearch_eq _ _ _ _ _ _ Hq). cbn [fst].
    unfold nearest. rewrite (selected_rows_without libraryName (db w') Hne).
    + cbn [map]. unfold array_sort. cbn [fold_left]. now rewrite slice_nil.
    + intros s Hs. rewrite S in Hs. apply filter_In in Hs.
      destruct Hs as [_ Hs]. apply negb_true_iff in Hs. unfold in_library in Hs.
      now apply String.eqb_neq in Hs.
Qed.

Lemma insert_all_rows (p : EmbeddingProvider) (records : list SnippetInput) :
  forall (w w' : World) (ids : list Z),
    SnippetStoreV2.insert_all p records w = (Ok ids, w') ->
    exists rows,
      snippets (db w') = snippets (db w) ++ rows /\
      Forall2 (row_of p) records rows /\ map id rows = ids.
Proof.
  unfold SnippetStoreV2.insert_all.
  induction records as [|s t IH]; intros w w' ids; cbn [for_each].
  - unfold ret. intros H. injection H as <- <-. exists [].
    rewrite app_nil_r. repeat split. constructor.
  - unfold bind at 1. unfold insert_snippet at 1.
    destruct (reference_ok (db w) (inputMeta s)); cbn [negb]; [|discriminate].
    set (row := {| id := (snippets_seq (db w) + 1)%Z; meta := inputMeta s;
                   provider := p; embedding_dims := length (inputEmbedding s) |}).
    set (w1 := set_db _ _).
    unfold bind at 1.
    destruct (for_each _ t w1) as [[ids'|e] w2] eqn:E; [|discriminate].
    unfold ret. intros H. injection H as <- <-.
    destruct (IH w1 w2 ids' E) as (rows & S & F & I).
    exists (row :: rows). split; [|split].
    + rewrite S. subst w1. cbn [db set_db emit snippets].
      now rewrite <- app_assoc.
    + constructor; [repeat split|exact F].
    + simpl. now rewrite I.
Qed.

Lemma storeVectors_snippets (vectors : list VectorInput) (w w' : World) (r : result unit) :
  VectorStore.storeVectors vectors w = (r, w') -> r = Ok tt ->
  snippets (db w') = snippets (db w).
Proof.
  intros E ->. now destruct (storeVectors_ok_inv _ _ _ E)
    as (rows & b & _ & _ & _ & _ & _ & _ & S).
Qed.

Lemma insertSnippets_ok_inv (records : list SnippetInput) (w w' : World)
    (ids : list Z) :
  SnippetStoreV2.insertSnippets records w = (Ok ids, w') ->
  exists rows,
    snippets (db w') = snippets (db w) ++ rows /\
    Forall2 (row_of (currentProvider (env w))) records rows /\
    map id rows = ids.
Proof.
  unfold SnippetStoreV2.insertSnippets, SnippetStoreV2.init, bind at 1.
  rewrite init_eq.
  destruct (length records =? 0) eqn:E0.
  - apply Nat.eqb_eq in E0. destruct records; [|discriminate].
    unfold ret. intros H. injection H as <- <-. exists [].
    rewrite app_nil_r, after_init_db. repeat split. constructor.
  - unfold bind at 1, getCurrentProvider. rewrite after_init_env.
    set (p := currentProvider (env w)).
    unfold bind at 1. unfold transaction.
    destruct (SnippetStoreV2.insert_all p records
                (emit (TxBegin (begin_mode (driver (after_init w)) deferred))
                 (after_init w)))
      as [[ids1|e1] w3] eqn:E; [|discriminate].
    destruct (insert_all_rows p records _ _ _ E) as (rows & S & F & I).
    cbn [db emit] in S. rewrite after_init_db in S.
    unfold bind at 1, log at 1. unfold bind at 1.
    destruct (VectorStore.storeVectors _ _) as [[[]|e2] w5] eqn:E2; [|discriminate].
    unfold bind, log, ret. intros H. injection H as <- <-.
    exists rows. split; [|split; [exact F|exact I]].
    cbn [db emit]. rewrite (storeVectors_snippets _ _ _ _ E2 eq_refl).
    cbn [db emit]. exact S.
Qed.

Lemma Forall2_filter_in_library (p : EmbeddingProvider) (libraryName : string)
    (records : list SnippetInput) (rows : list SnippetRow) :
  Forall2 (row_of p) records rows ->
  Forall2 (row_of p)
    (filter (fun s => String.eqb (library (inputMeta s)) libraryName) records)
    (filter (in_library libraryName) rows).
Proof.
  induction 1 as [|s row t t' (Hm & Hp & Hd) _ IH]; simpl; [constructor|].
  unfold in_library at 1. rewrite Hm.
  destruct (String.eqb _ _); [constructor; [repeat split; assumption|exact IH]|exact IH].
Qed.

(** X16: what [insertSnippets] returned can be read back.  When the call
    returns, [getAllSnippets] for any library, with a limit that does not
    cut, yields the rows the library had before followed by one row per
    inserted record of that library, in input order, each with the
    record's metadata, the current provider and the width of the record's
    embedding; the identifiers returned are the identifiers of the new
    rows. *)
Theorem insertSnippets_read_back (records : list SnippetInput) (w w' : World)
    (ids : list Z) :
  SnippetStoreV2.insertSnippets records w = (Ok ids, w') ->
  exists rows,
    Forall2 (row_of (currentProvider (env w))) records rows /\
    map id rows = ids /\
    forall libraryName limit,
      (Z.of_nat (length (snippets (db w'))) <= limit)%Z ->
      fst (SnippetStoreV2.getAllSnippets libraryName limit w')
        = Ok (snippets_of libraryName (db w)
              ++ filter (in_library libraryName) rows) /\
      Forall2 (row_of (currentProvider (env w)))
        (filter (fun s => String.eqb (library (inputMeta s)) libraryName) records)
        (filter (in_library libraryName) rows).
Proof.
  intros E. destruct (insertSnippets_ok_inv _ _ _ _ E) as (rows & S & F & I).
  exists rows. split; [exact F|]. split; [exact I|].
  intros libraryName limit Hl. split; [|now apply Forall2_filter_in_library].
  rewrite getAllSnippets_eq. cbn [fst]. unfold snippets_of.
  rewrite S, filter_app. f_equal. apply sql_limit_all.
  rewrite <- filter_app, <- S.
  pose proof (filter_length_le (in_library libraryName) (snippets (db w'))). lia.
Qed.

Lemma insertSnippets_read_back_witness :
  let w := world_of no_env empty_db in
  let w' := snd (SnippetStoreV2.insertSnippets records_two w) in
  SnippetStoreV2.insertSnippets records_two w = (Ok [1; 2]%Z, w') /\
  exists rows,
    Forall2 (row_of (currentProvider (env w))) records_two rows /\
    map id rows = [1; 2]%Z /\
    forall libraryName limit,
      (Z.of_nat (length (snippets (db w'))) <= limit)%Z ->
      fst (SnippetStoreV2.getAllSnippets libraryName limit w')
        = Ok (snippets_of libraryName (db w)
              ++ filter (in_library libraryName) rows) /\
      Forall2 (row_of (currentProvider (env w)))
        (filter (fun s => String.eqb (library (inputMeta s)) libraryName) records_two)
        (filter (in_library libraryName) rows).
Proof.
  cbv zeta.
  assert (H : SnippetStoreV2.insertSnippets records_two (world_of no_env empty_db)
              = (Ok [1; 2]%Z,
                 snd (SnippetStoreV2.insertSnippets records_two
                        (world_of no_env empty_db))))
    by (vm_compute; reflexivity).
  split; [exact H|].
  exact (insertSnippets_read_back records_two (world_of no_env empty_db) _ _ H).
Defined.

(* ----------------------------------------------------------------- *)
(** ** Statistics of a library *)

Lemma provider_eqb_refl (p : EmbeddingProvider) : provider_eqb p p = true.
Proof. now destruct p. Qed.

Lemma provider_eqb_eq (p q : EmbeddingProvider) : provider_eqb p q = true <-> p = q.
Proof. destruct p, q; simpl; split; congruence. Qed.

Lemma obj_get_set_same (acc : SnippetStoreV2.ProviderCounts)
    (k : EmbeddingProvider) (n : nat) :
  SnippetStoreV2.obj_get (SnippetStoreV2.obj_set acc k n) k = Some n.
Proof.
  induction acc as [|[k' n'] t IH]; simpl.
  - now rewrite provider_eqb_refl.
  - destruct (provider_eqb k' k) eqn:E; simpl.
    + now rewrite provider_eqb_refl.
    + now rewrite E.
Qed.

Lemma obj_get_set_other (acc : SnippetStoreV2.ProviderCounts)
    (k k' : EmbeddingProvider) (n : nat) :
  k <> k' ->
  SnippetStoreV2.obj_get (SnippetStoreV2.obj_set acc k n) k'
  = SnippetStoreV2.obj_get acc k'.
Proof.
  intros Hne. induction acc as [|[k0 n0] t IH]; simpl.
  - destruct (provider_eqb k k') eqn:E; [|reflexivity].
    apply provider_eqb_eq in E. contradiction.
  - destruct (provider_eqb k0 k) eqn:E; simpl.
    + apply provider_eqb_eq in E. subst k0.
      now destruct (provider_eqb k k') eqn:E'; [apply provider_eqb_eq in E'|].
    + now rewrite IH.
Qed.

Lemma count_provider_get (rows : list SnippetRow) (p : EmbeddingProvider) :
  forall acc,
    SnippetStoreV2.obj_get (fold_left SnippetStoreV2.count_provider rows acc) p =
    match SnippetStoreV2.obj_get acc p with
    | Some n => Some (n + count_of p rows)
    | None => if count_of p rows =? 0 then None else Some (count_of p rows)
    end.
Proof.
  unfold count_of.
  induction rows as [|s t IH]; intros acc; cbn [fold_left filter].
  - cbn [length]. destruct (SnippetStoreV2.obj_get acc p); [|reflexivity].
    now rewrite Nat.add_0_r.
  - rewrite IH. unfold SnippetStoreV2.count_provider.
    destruct (provider_eqb (provider s) p) eqn:E.
    + apply provider_eqb_eq in E. rewrite E, obj_get_set_same. cbn [length].
      destruct (SnippetStoreV2.obj_get acc p) as [n|]; cbn [Nat.eqb];
        f_equal; lia.
    + rewrite obj_get_set_other; [reflexivity|].
      intros H. rewrite H, provider_eqb_refl in E. discriminate.
Qed.

Lemma count_of_total (rows : list SnippetRow) :
  count_of openai rows + count_of gemini rows = length rows.
Proof.
  unfold count_of. induction rows as [|s t IH]; simpl; [reflexivity|].
  destruct (provider s); simpl; lia.
Qed.

Lemma getLibraryStats_eq (libraryName : string) (w : World) :
  let rows := snippets_of libraryName (db w) in
  SnippetStoreV2.getLibraryStats libraryName w =
  (Ok {| SnippetStoreV2.totalSnippets := length rows;
         SnippetStoreV2.byProvider :=
           fold_left SnippetStoreV2.count_provider rows [];
         SnippetStoreV2.avgEmbeddingDims :=
           if 0 <? length rows then
             (fold_left (fun sum s =>
                           sum + SnippetStoreV2.number_of_nat (embedding_dims s))
                        rows 0
              / SnippetStoreV2.number_of_nat (length rows))%float
           else 0%float;
         SnippetStoreV2.vectorCount := Z.of_nat (length (vector_table w)) |},
   after_init w).
Proof.
  cbv zeta. unfold SnippetStoreV2.getLibraryStats, SnippetStoreV2.init, bind at 1.
  rewrite init_eq. unfold bind at 1, select_snippets. rewrite after_init_db.
  fold (snippets_of libraryName (db w)). unfold bind.
  rewrite getVectorCount_eq, after_init_twice. unfold ret, vector_table.
  now rewrite after_init_db.
Qed.

(** X17: [getLibraryStats] counts the snippets of the library:
    [totalSnippets] is their number, [byProvider] has an entry for
    exactly the providers that occur among them, holding that provider's
    count, and the counts add up to [totalSnippets].  [vectorCount] is
    the size of the whole vector table, whatever the library; for a
    library without snippets the average width is [0] and [byProvider]
    is empty. *)
Theorem getLibraryStats_counts (libraryName : string) (w : World) :
  let rows := snippets_of libraryName (db w) in
  exists stats w',
    SnippetStoreV2.getLibraryStats libraryName w = (Ok stats, w') /\
    db w' = db w /\
    SnippetStoreV2.totalSnippets stats = length rows /\
    (forall p,
        SnippetStoreV2.obj_get (SnippetStoreV2.byProvider stats) p =
        if count_of p rows =? 0 then None else Some (count_of p rows)) /\
    count_of openai rows + count_of gemini rows
      = SnippetStoreV2.totalSnippets stats /\
    SnippetStoreV2.vectorCount stats = Z.of_nat (length (vector_table w)) /\
    (rows = [] ->
     SnippetStoreV2.byProvider stats = [] /\
     SnippetStoreV2.avgEmbeddingDims stats = 0%float).
Proof.
  cbv zeta. rewrite getLibraryStats_eq. do 2 eexists.
  split; [reflexivity|]. split; [apply after_init_db|].
  cbn [SnippetStoreV2.totalSnippets SnippetStoreV2.byProvider
       SnippetStoreV2.avgEmbeddingDims SnippetStoreV2.vectorCount].
  split; [reflexivity|]. split; [|split; [apply count_of_total|split; [reflexivity|]]].
  - intros p. now rewrite count_provider_get.
  - intros ->. split; reflexivity.
Qed.

(* ----------------------------------------------------------------- *)
(** ** Removing a library *)

Lemma filter_eqb_length (name : string) (l : list string) :
  NoDup l -> In name l ->
  length (filter (fun x => String.eqb x name) l) = 1.
Proof.
  induction l as [|x t IH]; intros Hnd Hin; [contradiction|].
  inversion Hnd as [|? ? Hx Ht]; subst. simpl.
  destruct (String.eqb_spec x name) as [->|Hne].
  - simpl. f_equal. rewrite filter_none; [reflexivity|].
    intros y Hy. apply String.eqb_neq. intros ->. contradiction.
  - destruct Hin as [E|Hin]; [contradiction|]. now apply IH.
Qed.

Lemma filter_eqb_empty (name : string) (l : list string) :
  length (filter (fun x => String.eqb x name) l) = 0 <-> ~ In name l.
Proof.
  induction l as [|x t IH]; simpl; [tauto|].
  destruct (String.eqb_spec x name) as [->|Hne]; simpl.
  - split; [discriminate|]. intros H. exfalso. apply H. now left.
  - rewrite IH. split; [intros H [E|Hin]; [contradiction|now apply H]|tauto].
Qed.

(** X18: [rm] deletes the library row and reports how many rows went:
    [0] exactly when the library was not there, and [1] when it was and
    names are unique; a second [rm] reports [0].  The vector table is
    never touched.  The snippets of the library go with it when the
    engine enforces foreign keys and the library was there; otherwise
    [snippets] stays as it is. *)
Theorem rm_removes_library (name : string) (w : World) :
  exists n w',
    Rm.rm name w = (Ok n, w') /\
    ~ In name (libraries (db w')) /\
    (forall l, l <> name ->
       (In l (libraries (db w')) <-> In l (libraries (db w)))) /\
    vector_table w' = vector_table w /\
    (n = 0%Z <-> ~ In name (libraries (db w))) /\
    (NoDup (libraries (db w)) -> In name (libraries (db w)) -> n = 1%Z) /\
    (foreign_keys (db w) = true -> In name (libraries (db w)) ->
     snippets (db w') =
       filter (fun s => negb (in_library name s)) (snippets (db w))) /\
    (foreign_keys (db w) = false \/ ~ In name (libraries (db w)) ->
     snippets (db w') = snippets (db w)) /\
    fst (Rm.rm name w') = Ok 0%Z.
Proof.
  unfold Rm.rm, delete_library. do 2 eexists. split; [reflexivity|].
  unfold vector_table.
  cbn [db set_db libraries snippets snippets_vec_fallback foreign_keys fst].
  set (gone := filter (fun l => String.eqb l name) (libraries (db w))).
  assert (Hkept : forall l,
    In l (filter (fun l0 => negb (String.eqb l0 name)) (libraries (db w)))
    <-> In l (libraries (db w)) /\ l <> name).
  { intros l. rewrite filter_In, negb_true_iff, String.eqb_neq. reflexivity. }
  split; [intros H; apply Hkept in H; now destruct H|].
  split; [intros l Hne; rewrite Hkept; tauto|].
  split; [reflexivity|].
  split.
  { rewrite <- filter_eqb_empty. fold gone. lia. }
  split.
  { intros Hnd Hin. unfold gone. now rewrite filter_eqb_length. }
  split.
  { intros Hfk Hin. rewrite Hfk. cbn [andb].
    destruct (length gone =? 0) eqn:E; [|reflexivity].
    apply Nat.eqb_eq in E. unfold gone in E. apply filter_eqb_empty in E.
    contradiction. }
  split.
  { intros [Hfk|Hin].
    - now rewrite Hfk.
    - apply filter_eqb_empty in Hin. fold gone in Hin. rewrite Hin.
      cbn [Nat.eqb negb]. now rewrite andb_false_r. }
  f_equal. rewrite filter_none; [reflexivity|].
  intros l Hl. apply Hkept in Hl. apply String.eqb_neq. tauto.
Qed.

(* ----------------------------------------------------------------- *)
(** ** Library names *)

Lemma split_nonempty (sep : N) (s : JsString) : split sep s <> [].
Proof.
  induction s as [|c t IH]; simpl; [discriminate|].
  destruct (N.eqb c sep); [discriminate|].
  destruct (split sep t); [contradiction|discriminate].
Qed.

Lemma split_length (sep : N) (s : JsString) :
  length (split sep s) = S (count_occ N.eq_dec s sep).
Proof.
  induction s as [|c t IH]; simpl; [reflexivity|].
  destruct (N.eqb_spec c sep) as [->|Hne].
  - destruct (N.eq_dec sep sep); [|contradiction]. simpl. now rewrite IH.
  - destruct (N.eq_dec c sep); [contradiction|].
    destruct (split sep t) eqn:E; [now apply split_nonempty in E|].
    simpl in *. exact IH.
Qed.

Lemma split_without (sep : N) (s : JsString) :
  ~ In sep s -> split sep s = [s].
Proof.
  induction s as [|c t IH]; simpl; intros H; [reflexivity|].
  destruct (N.eqb_spec c sep) as [->|Hne]; [exfalso; apply H; now left|].
  rewrite IH; [reflexivity|]. intros Hin. apply H. now right.
Qed.

Lemma split_app (sep : N) (a b : JsString) :
  ~ In sep a -> split sep (a ++ sep :: b) = a :: split sep b.
Proof.
  induction a as [|c t IH]; simpl; intros H.
  - now rewrite N.eqb_refl.
  - destruct (N.eqb_spec c sep) as [->|Hne]; [exfalso; apply H; now left|].
    rewrite IH; [reflexivity|]. intros Hin. apply H. now right.
Qed.

Lemma split_parts (sep : N) (s : JsString) :
  Forall (fun part => ~ In sep part) (split sep s).
Proof.
  induction s as [|c t IH]; simpl.
  - constructor; [tauto|constructor].
  - destruct (N.eqb_spec c sep) as [->|Hne].
    + constructor; [tauto|exact IH].
    + destruct (split sep t) as [|part parts]; [repeat constructor; simpl; intuition|].
      inversion IH; subst. constructor; [|assumption].
      simpl. intros [E|Hin]; [congruence|contradiction].
Qed.

Lemma split_two (sep : N) (s a b : JsString) :
  split sep s = [a; b] -> s = a ++ sep :: b.
Proof.
  revert a. induction s as [|c t IH]; simpl; intros a H; [discriminate|].
  destruct (N.eqb_spec c sep) as [->|Hne].
  - injection H as <- H.
    assert (Hb : ~ In sep b).
    { pose proof (split_parts sep t) as F. rewrite H in F. now inversion F. }
    destruct (split sep t) as [|x [|y l]] eqn:E; try discriminate.
    injection H as ->.
    assert (Ht : count_occ N.eq_dec t sep = 0).
    { pose proof (split_length sep t) as L. rewrite E in L. simpl in L. lia. }
    apply count_occ_not_In in Ht. rewrite (split_without sep t Ht) in E.
    now injection E as ->.
  - destruct (split sep t) as [|part parts] eqn:E; [discriminate|].
    injection H as <- ->. simpl. f_equal. now apply IH.
Qed.

Lemma trimStart_suffix (s : JsString) :
  exists ws, s = ws ++ trimStart s /\ forallb is_white_space ws = true.
Proof.
  induction s as [|c t (ws & E & W)]; simpl.
  - now exists [].
  - destruct (is_white_space c) eqn:Ec.
    + exists (c :: ws). simpl. rewrite Ec, W. split; [now f_equal|reflexivity].
    + now exists [].
Qed.

Lemma trimStart_idem (s : JsString) : trimStart (trimStart s) = trimStart s.
Proof.
  destruct (trimStart s) as [|c t] eqn:E; [reflexivity|].
  apply trimStart_head in E. simpl. now rewrite E.
Qed.

Lemma trimStart_fixed (c : N) (t : JsString) :
  is_white_space c = false -> trimStart (c :: t) = c :: t.
Proof. intros H. simpl. now rewrite H. Qed.

Lemma trim_idem (s : JsString) : trim (trim s) = trim s.
Proof.
  unfold trim, trimEnd.
  set (u := trimStart s).
  destruct (trimStart_suffix (rev u)) as (ws & E & _).
  assert (Hu : u = rev (trimStart (rev u)) ++ rev ws).
  { rewrite <- (rev_involutive u), E at 1. now rewrite rev_app_distr. }
  set (t := rev (trimStart (rev u))) in *.
  assert (Ht : trimStart t = t).
  { destruct t as [|c t'] eqn:Et; [reflexivity|].
    apply trimStart_fixed.
    assert (Hs : trimStart u = u) by apply trimStart_idem.
    rewrite Hu in Hs. simpl in Hs.
    destruct (is_white_space c) eqn:Ec; [|reflexivity].
    exfalso. rewrite Hu in *. simpl in *.
    assert (L : length (trimStart (t' ++ rev ws)) <= length (t' ++ rev ws)).
    { destruct (trimStart_suffix (t' ++ rev ws)) as (ws' & E' & _).
      rewrite E' at 2. rewrite length_app. lia. }
    rewrite Hs in L. simpl in L. lia. }
  rewrite Ht. unfold t. rewrite rev_involutive, trimStart_idem. reflexivity.
Qed.

Lemma trimStart_In (c : N) (s : JsString) : In c (trimStart s) -> In c s.
Proof.
  intros H. destruct (trimStart_suffix s) as (ws & E & _).
  rewrite E. apply in_or_app. now right.
Qed.

Lemma trim_In (c : N) (s : JsString) : In c (trim s) -> In c s.
Proof.
  unfold trim, trimEnd. intros H.
  apply in_rev, trimStart_In in H. apply in_rev in H.
  now apply trimStart_In.
Qed.

Lemma fromName_some (lib : JsString) (n : AddV2.LibraryName) :
  AddV2.fromName lib = Some n ->
  exists a b, lib = a ++ solidus :: b /\ ~ In solidus a /\ ~ In solidus b /\
              n = {| AddV2.owner := trim a; AddV2.repo := trim b |}.
Proof.
  unfold AddV2.fromName.
  destruct (length (split solidus lib) =? 2) eqn:E; cbn [negb]; [|discriminate].
  apply Nat.eqb_eq in E.
  destruct (split solidus lib) as [|a [|b [|c l]]] eqn:Es; try discriminate.
  cbn [nth]. intros H. injection H as <-.
  pose proof (split_parts solidus lib) as F. rewrite Es in F.
  inversion F as [|? ? Ha F']; subst. inversion F' as [|? ? Hb _]; subst.
  exists a, b. split; [now apply split_two|]. auto.
Qed.

(** X19: [fromName] accepts exactly the names with one solidus, and takes
    them apart at it: the owner and the repository are the two sides,
    trimmed.  It is a left inverse of [libraryId] on names whose parts are
    trimmed and free of solidi; the parts it returns are always of that
    kind, but may be empty, as for the name "/". *)
Theorem fromName_round_trip :
  (forall lib, AddV2.fromName lib = None <-> solidi lib <> 1) /\
  (forall a b, ~ In solidus a -> ~ In solidus b ->
     AddV2.fromName (a ++ solidus :: b)
     = Some {| AddV2.owner := trim a; AddV2.repo := trim b |}) /\
  (forall n, ~ In solidus (AddV2.owner n) -> ~ In solidus (AddV2.repo n) ->
     trimmed (AddV2.owner n) -> trimmed (AddV2.repo n) ->
     AddV2.fromName (AddV2.libraryId n) = Some n) /\
  (forall lib n, AddV2.fromName lib = Some n ->
     trimmed (AddV2.owner n) /\ trimmed (AddV2.repo n) /\
     ~ In solidus (AddV2.owner n) /\ ~ In solidus (AddV2.repo n)) /\
  AddV2.fromName [solidus] = Some {| AddV2.owner := []; AddV2.repo := [] |}.
Proof.
  assert (H2 : forall a b, ~ In solidus a -> ~ In solidus b ->
     AddV2.fromName (a ++ solidus :: b)
     = Some {| AddV2.owner := trim a; AddV2.repo := trim b |}).
  { intros a b Ha Hb. unfold AddV2.fromName.
    rewrite (split_app solidus a b Ha), (split_without solidus b Hb).
    reflexivity. }
  split; [|split; [exact H2|split; [|split]]].
  - intros lib. unfold AddV2.fromName, solidi. rewrite split_length.
    destruct (S (count_occ N.eq_dec lib solidus) =? 2) eqn:E; cbn [negb].
    + apply Nat.eqb_eq in E. split; [discriminate|lia].
    + apply Nat.eqb_neq in E. split; [lia|reflexivity].
  - intros [o r] Ho Hr To Tr. cbn [AddV2.owner AddV2.repo] in *.
    unfold AddV2.libraryId. cbn [AddV2.owner AddV2.repo].
    rewrite (H2 o r Ho Hr). unfold trimmed in *. now rewrite To, Tr.
  - intros lib n H. apply fromName_some in H.
    destruct H as (a & b & _ & Ha & Hb & ->). cbn [AddV2.owner AddV2.repo].
    split; [apply trim_idem|]. split; [apply trim_idem|].
    split; intros Hin; apply trim_In in Hin; contradiction.
  - reflexivity.
Qed.

(* ----------------------------------------------------------------- *)
(** ** Normalising twice *)

(** X20: both normalisers are idempotent on what they return: a vector
    that came out of one goes through it again unchanged.  The vector
    store's normaliser is the other one restricted: wherever it returns,
    [EmbeddingNormalizer.normalize] returns the same vector.  In the
    other direction, what [EmbeddingNormalizer.normalize] returns the
    vector store takes as it is, except for an OpenAI vector of 3072
    entries, which it rejects. *)
Theorem normalize_idempotent (v out : list number) (p : EmbeddingProvider) :
  (EmbeddingNormalizer.normalize v p = Ok out ->
   EmbeddingNormalizer.normalize out p = Ok out) /\
  (VectorStore.normalizeEmbedding v p = Ok out ->
   VectorStore.normalizeEmbedding out p = Ok out /\
   EmbeddingNormalizer.normalize v p = Ok out) /\
  (EmbeddingNormalizer.normalize v p = Ok out ->
   VectorStore.normalizeEmbedding out p = Ok out \/
   p = openai /\ length v = 3072 /\ out = v /\
   VectorStore.normalizeEmbedding out p
     = Throw (UnsupportedEmbedding openai 3072)).
Proof.
  split; [|split].
  - intros H. apply normalize_cases in H.
    destruct H as [[E ->]|[(-> & E & ->)|(-> & E & ->)]].
    + destruct p; cbn [EmbeddingNormalizer.normalize].
      * now apply normalizeOpenAI_3072.
      * now apply normalizeGemini_3072.
    + apply normalizeGemini_3072. now apply padded_length.
    + now apply normalizeOpenAI_1536.
  - intros H. apply normalizeEmbedding_cases in H.
    destruct H as [(-> & E & ->)|[(-> & E & ->)|(-> & E & ->)]].
    + split; [now apply normalizeEmbedding_gemini_3072|].
      now apply normalizeGemini_3072.
    + split; [apply normalizeEmbedding_gemini_3072; now apply padded_length|].
      now apply normalizeGemini_768.
    + split; [now apply normalizeEmbedding_openai_1536|].
      now apply normalizeOpenAI_1536.
  - intros H. apply normalize_cases in H.
    destruct H as [[E ->]|[(-> & E & ->)|(-> & E & ->)]].
    + destruct p.
      * right. repeat split; [exact E|].
        rewrite normalizeEmbedding_openai_other by (rewrite E; discriminate).
        now rewrite E.
      * left. now apply normalizeEmbedding_gemini_3072.
    + left. apply normalizeEmbedding_gemini_3072. now apply padded_length.
    + left. now apply normalizeEmbedding_openai_1536.
Qed.

(* ----------------------------------------------------------------- *)
(** ** Symmetry of the similarity *)

Lemma SFmul_comm (x y : spec_float) : SFmul prec emax x y = SFmul prec emax y x.
Proof.
  destruct x as [sx|sx| |sx mx ex], y as [sy|sy| |sy my ey]; simpl;
    try reflexivity; try (now rewrite xorb_comm).
  now rewrite xorb_comm, Pos.mul_comm, Z.add_comm.
Qed.

Lemma float_mul_comm (x y : float) : (x * y = y * x)%float.
Proof.
  apply Prim2SF_inj. rewrite !mul_spec. apply SFmul_comm.
Qed.

Lemma similarity_sums_swap (a b : list number) (l : list nat) :
  forall s s' : VectorStore.sums,
    VectorStore.dotProduct s' = VectorStore.dotProduct s ->
    VectorStore.queryMagnitude s' = VectorStore.embeddingMagnitude s ->
    VectorStore.embeddingMagnitude s' = VectorStore.queryMagnitude s ->
    let r := fold_left (VectorStore.similarity_step a b) l s in
    let r' := fold_left (VectorStore.similarity_step b a) l s' in
    VectorStore.dotProduct r' = VectorStore.dotProduct r /\
    VectorStore.queryMagnitude r' = VectorStore.embeddingMagnitude r /\
    VectorStore.embeddingMagnitude r' = VectorStore.queryMagnitude r.
Proof.
  induction l as [|i t IH]; intros s s' Hd Hq He; cbn [fold_left].
  - auto.
  - apply IH; unfold VectorStore.similarity_step;
      cbn [VectorStore.dotProduct VectorStore.queryMagnitude
           VectorStore.embeddingMagnitude].
    + now rewrite Hd, (float_mul_comm (array_get b i)).
    + now rewrite Hq.
    + now rewrite He.
Qed.

Lemma cosine_sums_swap (a b : list number) (l : list nat) :
  forall s s' : EmbeddingNormalizer.sums,
    EmbeddingNormalizer.dotProduct s' = EmbeddingNormalizer.dotProduct s ->
    EmbeddingNormalizer.sumA s' = EmbeddingNormalizer.sumB s ->
    EmbeddingNormalizer.sumB s' = EmbeddingNormalizer.sumA s ->
    let r := fold_left (EmbeddingNormalizer.cosine_step a b) l s in
    let r' := fold_left (EmbeddingNormalizer.cosine_step b a) l s' in
    EmbeddingNormalizer.dotProduct r' = EmbeddingNormalizer.dotProduct r /\
    EmbeddingNormalizer.sumA r' = EmbeddingNormalizer.sumB r /\
    EmbeddingNormalizer.sumB r' = EmbeddingNormalizer.sumA r.
Proof.
  induction l as [|i t IH]; intros s s' Hd Hq He; cbn [fold_left].
  - auto.
  - apply IH; unfold EmbeddingNormalizer.cosine_step;
      cbn [EmbeddingNormalizer.dotProduct EmbeddingNormalizer.sumA
           EmbeddingNormalizer.sumB].
    + now rewrite Hd, (float_mul_comm (array_get b i)).
    + now rewrite Hq.
    + now rewrite He.
Qed.

(** X21: similarity does not depend on the order of its arguments.  The
    similarity of the fallback scan is symmetric for vectors of any
    lengths, and [cosineSimilarity] is symmetric on vectors of equal
    length; on vectors of different lengths it throws either way, naming
    the two lengths in the order of the arguments. *)
Theorem similarity_symmetric (a b : list number) :
  VectorStore.similarity a b = VectorStore.similarity b a /\
  (length a = length b ->
   EmbeddingNormalizer.cosineSimilarity a b
   = EmbeddingNormalizer.cosineSimilarity b a) /\
  (length a <> length b ->
   EmbeddingNormalizer.cosineSimilarity a b
     = Throw (DimensionMismatch (length a) (length b)) /\
   EmbeddingNormalizer.cosineSimilarity b a
     = Throw (DimensionMismatch (length b) (length a))).
Proof.
  split; [|split].
  - unfold VectorStore.similarity, VectorStore.similarity_sums.
    rewrite (Nat.min_comm (length b) (length a)).
    destruct (similarity_sums_swap a b (seq 0 (Nat.min (length a) (length b)))
                {| VectorStore.dotProduct := 0; VectorStore.queryMagnitude := 0;
                   VectorStore.embeddingMagnitude := 0 |}
                {| VectorStore.dotProduct := 0; VectorStore.queryMagnitude := 0;
                   VectorStore.embeddingMagnitude := 0 |} eq_refl eq_refl eq_refl)
      as (Hd & Hq & He).
    cbv zeta in *. rewrite Hd, Hq, He.
    now rewrite (float_mul_comm (sqrt (VectorStore.embeddingMagnitude _))).
  - intros Hlen. unfold EmbeddingNormalizer.cosineSimilarity.
    rewrite <- Hlen, Nat.eqb_refl. cbn [negb].
    destruct (cosine_sums_swap a b (seq 0 (length a))
                {| EmbeddingNormalizer.dotProduct := 0;
                   EmbeddingNormalizer.sumA := 0; EmbeddingNormalizer.sumB := 0 |}
                {| EmbeddingNormalizer.dotProduct := 0;
                   EmbeddingNormalizer.sumA := 0; EmbeddingNormalizer.sumB := 0 |}
                eq_refl eq_refl eq_refl)
      as (Hd & Hq & He).
    unfold EmbeddingNormalizer.cosine_sums. cbv zeta in *.
    rewrite Hd, Hq, He, orb_comm.
    now rewrite (float_mul_comm (sqrt (EmbeddingNormalizer.sumB _))).
  - intros Hne. unfold EmbeddingNormalizer.cosineSimilarity.
    assert (E1 : (length a =? length b) = false) by now apply Nat.eqb_neq.
    assert (E2 : (length b =? length a) = false)
      by (apply Nat.eqb_neq; congruence).
    now rewrite E1, E2.
Qed.

(* ----------------------------------------------------------------- *)
(** ** A batch with a repeated identifier *)

Lemma firstn_add {A} (a b : nat) (l : list A) :
  firstn (a + b) l = firstn a l ++ firstn b (skipn a l).
Proof.
  revert l. induction a as [|a IH]; intros l; [reflexivity|].
  destruct l as [|x t]; simpl.
  - now rewrite firstn_nil.
  - now rewrite IH.
Qed.

Lemma insert_vectors_cases (rows : list VecRow) (w : World) :
  (exists w',
      insert_vectors rows w = (Ok tt, w') /\
      vector_table w' = vector_table w ++ rows /\
      same_metadata (db w) (db w') /\
      NoDup (map snippet_id rows) /\
      (forall r, In r rows ->
                 ~ In (snippet_id r) (map snippet_id (vector_table w)))) \/
  (exists w',
      insert_vectors rows w = (Throw ConstraintFailed, w') /\ db w' = db w).
Proof.
  unfold insert_vectors, vector_table.
  destruct (existsb _ rows) eqn:E1; cbn [orb].
  - right. eexists. split; reflexivity.
  - destruct (has_dup (map snippet_id rows)) eqn:E2.
    + right. eexists. split; reflexivity.
    + left. eexists. split; [reflexivity|].
      cbn [db set_db emit with_vectors snippets_vec_fallback].
      split; [reflexivity|]. split; [repeat split|].
      split; [now apply has_dup_NoDup|].
      intros r Hr Hin.
      assert (H : existsb (fun r0 => mem_Z (snippet_id r0)
                    (map snippet_id (snippets_vec_fallback (db w)))) rows = true).
      { apply existsb_exists. exists r. split; [exact Hr|now apply mem_Z_In]. }
      congruence.
Qed.

Lemma same_metadata_trans (a b c : Database) :
  same_metadata a b -> same_metadata b c -> same_metadata a c.
Proof. unfold same_metadata. intuition congruence. Qed.

(** The loop of [storeVectors] either runs to its end or stops at the
    first statement that fails; the sub-batches inserted before it
    stay. *)
Lemma insert_batches_outcome (fuel : nat) :
  forall (rows : list VecRow) (i : nat) (w : World),
  exists r w' n,
    VectorStore.insert_batches fuel rows i w = (r, w') /\
    vector_table w' =
      vector_table w ++ firstn (n * VectorStore.BATCH_SIZE) (skipn i rows) /\
    same_metadata (db w) (db w') /\
    (r = Ok tt \/
     r = Throw ConstraintFailed /\
     n * VectorStore.BATCH_SIZE < length (skipn i rows)).
Proof.
  induction fuel as [|fuel IH]; intros rows i w.
  - exists (Ok tt), w, 0. simpl. rewrite app_nil_r.
    repeat split; try reflexivity. now left.
  - cbn [VectorStore.insert_batches].
    destruct (i <? length rows) eqn:Ei.
    2:{ exists (Ok tt), w, 0. simpl. rewrite app_nil_r.
        repeat split; try reflexivity. now left. }
    apply Nat.ltb_lt in Ei. rewrite slice_chunk by lia.
    set (rest := skipn i rows) in *.
    assert (Hlen : length rest = length rows - i) by apply length_skipn.
    unfold bind.
    destruct (insert_vectors_cases (firstn VectorStore.BATCH_SIZE rest) w)
      as [(w1 & E1 & T1 & M1 & _)|(w1 & E1 & D1)]; rewrite E1.
    + destruct (IH rows (i + VectorStore.BATCH_SIZE) w1)
        as (r & w' & n & E & T & M & Hr).
      rewrite Nat.add_comm, <- skipn_skipn in T, Hr. fold rest in T, Hr.
      exists r, w', (S n). split; [exact E|].
      split.
      { rewrite T, T1, <- app_assoc. f_equal. cbn [Nat.mul].
        now rewrite firstn_add. }
      split; [exact (same_metadata_trans _ _ _ M1 M)|].
      destruct Hr as [Hr|[Hr Hn]]; [now left|right].
      split; [exact Hr|]. rewrite length_skipn in Hn. cbn [Nat.mul]. lia.
    + exists (Throw ConstraintFailed), w1, 0. split; [reflexivity|].
      unfold vector_table. rewrite D1. simpl. rewrite app_nil_r.
      split; [reflexivity|]. split; [repeat split|]. right.
      split; [reflexivity|]. lia.
Qed.

Lemma insert_batches_ok_distinct (fuel : nat) :
  forall (rows : list VecRow) (i : nat) (w w' : World),
    length rows - i <= fuel ->
    VectorStore.insert_batches fuel rows i w = (Ok tt, w') ->
    NoDup (map snippet_id (skipn i rows)) /\
    (forall r, In r (skipn i rows) ->
               ~ In (snippet_id r) (map snippet_id (vector_table w))).
Proof.
  induction fuel as [|fuel IH]; intros rows i w w' Hfuel E.
  - rewrite skipn_all2 by lia. split; [constructor|intros r []].
  - cbn [VectorStore.insert_batches] in E.
    destruct (i <? length rows) eqn:Ei.
    2:{ apply Nat.ltb_ge in Ei. rewrite skipn_all2 by lia.
        split; [constructor|intros r []]. }
    apply Nat.ltb_lt in Ei. rewrite slice_chunk in E by lia.
    set (rest := skipn i rows) in *.
    set (batch := firstn VectorStore.BATCH_SIZE rest) in *.
    assert (Hrest : rest = batch ++ skipn VectorStore.BATCH_SIZE rest)
      by (symmetry; apply firstn_skipn).
    unfold bind in E.
    destruct (insert_vectors_cases batch w)
      as [(w1 & E1 & T1 & _ & Nb & Fb)|(w1 & E1 & _)]; rewrite E1 in E;
      [|discriminate].
    apply IH in E; [|unfold VectorStore.BATCH_SIZE; lia].
    rewrite Nat.add_comm, <- skipn_skipn in E. fold rest in E.
    destruct E as [Nr Fr]. rewrite T1, map_app in Fr.
    rewrite Hrest, map_app. split.
    + apply NoDup_app; [exact Nb|exact Nr|].
      intros x Hx Hx'. apply in_map_iff in Hx'. destruct Hx' as (r & <- & Hr).
      apply (Fr r Hr). apply in_or_app. now right.
    + intros r Hr Hin. apply in_app_or in Hr as [Hr|Hr].
      * exact (Fb r Hr Hin).
      * apply (Fr r Hr). apply in_or_app. now left.
Qed.

(** X22: [storeVectors] does not tolerate a repeated identifier, and it
    does not roll back.  For a batch whose embeddings all normalise but in
    which an identifier occurs twice, the call throws the constraint
    error of the engine; by then the old rows of the batch's identifiers
    are deleted, and the sub-batches of 50 that were inserted before the
    failing statement stay in the table. *)
Theorem storeVectors_repeated_identifier (vectors : list VectorInput)
    (w : World) :
  has_dup (map snippetId vectors) = true ->
  forallb (fun v => is_ok (VectorStore.normalizeEmbedding
                             (rawEmbedding v) (inputProvider v))) vectors = true ->
  exists w' rows n,
    VectorStore.storeVectors vectors w = (Throw ConstraintFailed, w') /\
    map_result VectorStore.normalizedVector vectors = Ok rows /\
    vector_table w' =
      kept_vectors (map snippetId vectors) (db w)
      ++ firstn (n * VectorStore.BATCH_SIZE) rows /\
    n * VectorStore.BATCH_SIZE < length rows /\
    same_metadata (db w) (db w').
Proof.
  intros Hd Hn.
  assert (Hne : vectors <> []) by (intros ->; discriminate).
  destruct (map_result_ok VectorStore.normalizedVector vectors) as (rows & Hrows & HF).
  { intros v Hv. rewrite forallb_forall in Hn. specialize (Hn v Hv).
    unfold VectorStore.normalizedVector.
    now destruct (VectorStore.normalizeEmbedding _ _). }
  destruct (normalizedVector_ids vectors rows HF) as [Hids _].
  rewrite (storeVectors_unfold vectors w Hne). cbv zeta. rewrite Hrows.
  set (w1 := set_db _ _).
  destruct (insert_batches_outcome (length rows) rows 0 w1)
    as (r & w' & n & E & T & M & Hr).
  rewrite skipn_O in T, Hr.
  destruct Hr as [->|[-> Hlt]].
  - exfalso. apply insert_batches_ok_distinct in E; [|lia].
    rewrite skipn_O, Hids in E. destruct E as [Nd _].
    apply has_dup_NoDup in Nd. congruence.
  - exists w', rows, n. split; [exact E|]. split; [reflexivity|].
    split; [exact T|]. split; [exact Hlt|].
    apply (same_metadata_trans _ (db w1)); [|exact M].
    unfold w1. cbn [db set_db with_vectors]. rewrite after_init_db. repeat split.
Qed.

Lemma storeVectors_repeated_identifier_witness :
  has_dup (map snippetId vectors_repeat) = true /\
  forallb (fun v => is_ok (VectorStore.normalizeEmbedding
                             (rawEmbedding v) (inputProvider v))) vectors_repeat = true /\
  exists w' rows n,
    VectorStore.storeVectors vectors_repeat (world_of no_env db_old_vector)
      = (Throw ConstraintFailed, w') /\
    map_result VectorStore.normalizedVector vectors_repeat = Ok rows /\
    vector_table w' =
      kept_vectors (map snippetId vectors_repeat) db_old_vector
      ++ firstn (n * VectorStore.BATCH_SIZE) rows /\
    n * VectorStore.BATCH_SIZE < length rows /\
    same_metadata db_old_vector (db w').
Proof.
  split; [vm_compute; reflexivity|]. split; [vm_compute; reflexivity|].
  apply (storeVectors_repeated_identifier vectors_repeat
           (world_of no_env db_old_vector)); vm_compute; reflexivity.
Defined.

(** The fifty-one records: the first fifty rows stay, the old row of
    snippet 1 is gone. *)
Example storeVectors_repeat_51 :
  let r := VectorStore.storeVectors vectors_repeat (world_of no_env db_old_vector) in
  fst r = Throw ConstraintFailed /\
  map snippet_id (vector_table (snd r)) = map Z.of_nat (seq 1 50).
Proof. vm_compute. split; reflexivity. Qed.

(* ----------------------------------------------------------------- *)
(** ** Indexing a library again *)

Lemma deleteLibrarySnippets_env (libraryName : string) (w w' : World) :
  SnippetStoreV2.deleteLibrarySnippets libraryName w = (Ok tt, w') ->
  env w' = env w.
Proof.
  unfold SnippetStoreV2.deleteLibrarySnippets, SnippetStoreV2.init, bind at 1.
  rewrite init_eq. unfold bind.
  destruct (deleteVectorsByLibrary_eq libraryName (after_init w))
    as (w1 & E & _ & _ & En & _).
  rewrite E. unfold delete_snippets. intros H. injection H as <-.
  cbn [env set_db]. now rewrite En, after_init_env.
Qed.

(** The identifiers and the vector rows of a call of [insertSnippets]
    that returned. *)
Lemma insertSnippets_ok_vectors (records : list SnippetInput) (w w' : World)
    (ids : list Z) :
  SnippetStoreV2.insertSnippets records w = (Ok ids, w') ->
  ids = map (fun k => (snippets_seq (db w) + 1 + Z.of_nat k)%Z)
            (seq 0 (length records)) /\
  exists vrows,
    vector_table w' = kept_vectors ids (db w) ++ vrows /\
    map snippet_id vrows = ids.
Proof.
  unfold SnippetStoreV2.insertSnippets, SnippetStoreV2.init, bind at 1.
  rewrite init_eq.
  destruct (length records =? 0) eqn:E0.
  - apply Nat.eqb_eq in E0. destruct records; [|discriminate].
    unfold ret. intros H. injection H as <- <-. split; [reflexivity|].
    exists []. unfold vector_table.
    now rewrite kept_vectors_nil, app_nil_r, after_init_db.
  - unfold bind at 1, getCurrentProvider. rewrite after_init_env.
    set (p := currentProvider (env w)).
    unfold bind at 1. unfold transaction.
    destruct (insert_all_spec p records
              (emit (TxBegin (begin_mode (driver (after_init w)) deferred))
                    (after_init w)))
      as (rows & r1 & w3 & E & _ & _ & V & _ & _ & _ & _ & Hok & _).
    rewrite E. cbn [db emit] in V, Hok. rewrite after_init_db in V, Hok.
    destruct r1 as [ids1|e1]; [|discriminate].
    destruct (Hok ids1 eq_refl) as (_ & _ & H3).
    assert (Hlen : length ids1 = length records).
    { rewrite H3. now rewrite length_map, length_seq. }
    unfold bind at 1, log at 1. unfold bind at 1.
    destruct (VectorStore.storeVectors _ _) as [[[]|e2] w5] eqn:E2; [|discriminate].
    unfold bind, log, ret. intros H. injection H as <- <-.
    split; [exact H3|].
    destruct (storeVectors_ok_inv _ _ _ E2) as (vrows & b & Hr & T & _).
    destruct (normalizedVector_ids _ vrows (map_result_ok_inv _ _ _ Hr))
      as [Hv _].
    rewrite (vectorOperations_ids p records ids1 Hlen) in Hv, T.
    exists vrows. split; [|exact Hv].
    unfold vector_table. cbn [db emit]. rewrite T.
    unfold kept_vectors. cbn [db emit]. now rewrite V.
Qed.

Lemma filter_all {A} (f : A -> bool) (l : list A) :
  (forall x, In x l -> f x = true) -> filter f l = l.
Proof.
  induction l as [|x t IH]; intros H; simpl; [reflexivity|].
  rewrite H by now left. f_equal. apply IH. intros y Hy. apply H. now right.
Qed.

(** X23: indexing a library again replaces it.  After
    [deleteLibrarySnippets] for a library and an [insertSnippets] of
    records of that library that returned, the snippets of the library
    are exactly the new rows, in input order, and the snippets of every
    other library are what they were.  The new identifiers are all
    greater than any given out before, and the vector table holds one
    new row per identifier besides the rows it kept: those whose
    identifier is neither new nor that of a deleted snippet. *)
Theorem reindex_replaces (name : string) (records : list SnippetInput)
    (w w1 w2 : World) (ids : list Z) :
  SnippetStoreV2.deleteLibrarySnippets name w = (Ok tt, w1) ->
  SnippetStoreV2.insertSnippets records w1 = (Ok ids, w2) ->
  Forall (fun s => library (inputMeta s) = name) records ->
  exists rows vrows,
    Forall2 (row_of (currentProvider (env w))) records rows /\
    map id rows = ids /\
    snippets_of name (db w2) = rows /\
    (forall other, other <> name ->
       snippets_of other (db w2) = snippets_of other (db w)) /\
    Forall (fun i => (snippets_seq (db w) < i)%Z) ids /\
    map snippet_id vrows = ids /\
    (forall r, In r (vector_table w2) <->
               In r vrows \/
               (In r (vector_table w) /\
                ~ In (snippet_id r) (library_ids name (db w)) /\
                ~ In (snippet_id r) ids)).
Proof.
  intros Ed Ei Hlib.
  destruct (deleteLibrarySnippets_eq name w) as (w1' & Ed' & S1 & T1 & _ & _ & Q1).
  rewrite Ed in Ed'. injection Ed' as <-.
  pose proof (deleteLibrarySnippets_env _ _ _ Ed) as En.
  destruct (insertSnippets_ok_inv _ _ _ _ Ei) as (rows & S2 & F & I).
  destruct (insertSnippets_ok_vectors _ _ _ _ Ei) as (Hids & vrows & T2 & Hv).
  rewrite En in F.
  assert (Hrows : forall row, In row rows -> library (meta row) = name).
  { clear - F Hlib. induction F as [|s row t t' (Hm & _) _ IH];
      intros r Hr; [contradiction|].
    inversion Hlib; subst. destruct Hr as [<-|Hr]; [congruence|now apply IH]. }
  exists rows, vrows. split; [exact F|]. split; [exact I|].
  split; [|split; [|split; [|split; [exact Hv|]]]].
  - unfold snippets_of. rewrite S2, S1, filter_app, filter_negb_none.
    cbn [app]. apply filter_all. intros row Hr. unfold in_library.
    apply String.eqb_eq. now apply Hrows.
  - intros other Hne. unfold snippets_of. rewrite S2, S1, filter_app.
    rewrite (filter_none _ rows).
    + rewrite app_nil_r. apply filter_filter_implies.
      intros s _. now apply in_library_other.
    + intros row Hr. unfold in_library. apply String.eqb_neq.
      rewrite (Hrows row Hr). congruence.
  - rewrite Hids, Q1. apply Forall_forall. intros i Hi.
    apply in_map_iff in Hi. destruct Hi as (k & <- & _). lia.
  - intros r. rewrite T2, in_app_iff, kept_vectors_In.
    fold (vector_table w1). rewrite T1, kept_vectors_In.
    unfold vector_table. tauto.
Qed.

Lemma reindex_replaces_witness :
  let w := world_of no_env db_near_far in
  let w1 := snd (SnippetStoreV2.deleteLibrarySnippets "acme/docs" w) in
  let w2 := snd (SnippetStoreV2.insertSnippets records_two w1) in
  SnippetStoreV2.deleteLibrarySnippets "acme/docs" w = (Ok tt, w1) /\
  SnippetStoreV2.insertSnippets records_two w1 = (Ok [3; 4]%Z, w2) /\
  Forall (fun s => library (inputMeta s) = "acme/docs"%string) records_two /\
  exists rows vrows,
    Forall2 (row_of (currentProvider (env w))) records_two rows /\
    map id rows = [3; 4]%Z /\
    snippets_of "acme/docs" (db w2) = rows /\
    (forall other, other <> "acme/docs"%string ->
       snippets_of other (db w2) = snippets_of other (db w)) /\
    Forall (fun i => (snippets_seq (db w) < i)%Z) [3; 4]%Z /\
    map snippet_id vrows = [3; 4]%Z /\
    (forall r, In r (vector_table w2) <->
               In r vrows \/
               (In r (vector_table w) /\
                ~ In (snippet_id r) (library_ids "acme/docs" (db w)) /\
                ~ In (snippet_id r) [3; 4]%Z)).
Proof.
  cbv zeta.
  assert (H1 : SnippetStoreV2.deleteLibrarySnippets "acme/docs"
                 (world_of no_env db_near_far)
               = (Ok tt, snd (SnippetStoreV2.deleteLibrarySnippets "acme/docs"
                                (world_of no_env db_near_far))))
    by (vm_compute; reflexivity).
  assert (H2 : SnippetStoreV2.insertSnippets records_two
                 (snd (SnippetStoreV2.deleteLibrarySnippets "acme/docs"
                         (world_of no_env db_near_far)))
               = (Ok [3; 4]%Z,
                  snd (SnippetStoreV2.insertSnippets records_two
                         (snd (SnippetStoreV2.deleteLibrarySnippets "acme/docs"
                                 (world_of no_env db_near_far))))))
    by (vm_compute; reflexivity).
  assert (H3 : Forall (fun s => library (inputMeta s) = "acme/docs"%string)
                 records_two)
    by (repeat constructor).
  split; [exact H1|]. split; [exact H2|]. split; [exact H3|].
  exact (reindex_replaces "acme/docs" records_two _ _ _ _ H1 H2 H3).
Defined.

(* ----------------------------------------------------------------- *)
(** ** Metadata without vectors *)

Lemma vectorOperations_has (p : EmbeddingProvider) (records : list SnippetInput)
    (ids : list Z) (s : SnippetInput) :
  In s records ->
  exists v, In v (SnippetStoreV2.vectorOperations p records ids) /\
            rawEmbedding v = inputEmbedding s /\ inputProvider v = p.
Proof.
  unfold SnippetStoreV2.vectorOperations.
  generalize 0 as start.
  induction records as [|r t IH]; intros start Hs; [contradiction|].
  cbn [length seq combine map]. destruct Hs as [->|Hs].
  - eexists. split; [left; reflexivity|]. split; reflexivity.
  - destruct (IH (S start) Hs) as (v & Hv & H1 & H2).
    exists v. split; [right; exact Hv|]. split; assumption.
Qed.

(** X24: [insertSnippets] does not undo the metadata when the vectors
    fail.  For a non-empty input whose library references hold but one
    of whose embeddings does not normalise, the call throws after the
    transaction has committed: one new row per record is in [snippets]
    and stays, the vector table has lost the rows that carried the new
    identifiers and gained none, and [getAllSnippets] returns the new
    rows of a library although they have no vectors. *)
Theorem insertSnippets_keeps_metadata (records : list SnippetInput)
    (bad : SnippetInput) (w : World) :
  forallb (fun s => reference_ok (db w) (inputMeta s)) records = true ->
  In bad records ->
  is_ok (VectorStore.normalizeEmbedding (inputEmbedding bad)
           (currentProvider (env w))) = false ->
  exists e w' rows,
    SnippetStoreV2.insertSnippets records w = (Throw e, w') /\
    snippets (db w') = snippets (db w) ++ rows /\
    Forall2 (row_of (currentProvider (env w))) records rows /\
    vector_table w' = kept_vectors (map id rows) (db w) /\
    (forall row, In row rows ->
       ~ In (id row) (map snippet_id (vector_table w'))) /\
    (forall libraryName limit,
       (Z.of_nat (length (snippets (db w'))) <= limit)%Z ->
       fst (SnippetStoreV2.getAllSnippets libraryName limit w')
       = Ok (snippets_of libraryName (db w)
             ++ filter (in_library libraryName) rows)) /\
    (exists pre,
        trace w' = trace w ++ pre ++
                   TxBegin (begin_mode (driver w) deferred)
                   :: map InsertSnippet rows ++
                   [TxCommit; Console LogBuildingIndex;
                    DeleteVectors (map id rows)] /\
        Forall (fun ev => is_vector_write ev = false /\
                          is_metadata_event ev = false) pre).
Proof.
  intros Href Hin Hbad.
  assert (Hne : (length records =? 0) = false).
  { destruct records; [contradiction|reflexivity]. }
  unfold SnippetStoreV2.insertSnippets, SnippetStoreV2.init, bind at 1.
  rewrite init_eq, Hne.
  unfold bind at 1, getCurrentProvider. rewrite after_init_env.
  set (p := currentProvider (env w)) in *.
  unfold bind at 1. unfold transaction.
  destruct (insert_all_spec p records
              (emit (TxBegin (begin_mode (driver (after_init w)) deferred))
                    (after_init w)))
    as (rows0 & r1 & w3 & E & T0 & S0 & V & _ & _ & _ & I0 & Hok & Hall).
  cbn [db emit trace vecInitialized] in T0, S0, V, I0, Hok, Hall.
  rewrite after_init_db in S0, V, Hok, Hall.
  rewrite after_init_initialized in I0. rewrite after_init_driver in T0.
  destruct (Hall Href) as (ids & ->).
  destruct (Hok ids eq_refl) as (Hid & _ & H3).
  destruct (insert_all_rows p records _ _ _ E) as (rows & S & F & I).
  cbn [db emit] in S. rewrite after_init_db in S.
  rewrite E. unfold bind at 1, log at 1. unfold bind at 1.
  set (w4 := emit (Console LogBuildingIndex) (emit TxCommit w3)).
  set (ops := SnippetStoreV2.vectorOperations p records ids).
  assert (Hlen : length ids = length records).
  { rewrite H3. now rewrite length_map, length_seq. }
  assert (Hops : map snippetId ops = ids) by now apply vectorOperations_ids.
  destruct (vectorOperations_has p records ids bad Hin) as (v & Hv & Hv1 & Hv2).
  destruct (VectorStore.normalizeEmbedding (inputEmbedding bad) p) as [x|e0] eqn:En;
    [discriminate|].
  destruct (map_result_throw VectorStore.normalizedVector ops v e0 Hv) as (e & He).
  { unfold VectorStore.normalizedVector. now rewrite Hv1, Hv2, En. }
  rewrite (storeVectors_throws ops w4 e He), Hops.
  set (w5 := set_db _ _).
  assert (T : vector_table w5 = kept_vectors ids (db w)).
  { unfold w5, vector_table, w4, kept_vectors.
    cbn [db set_db emit with_vectors snippets_vec_fallback]. now rewrite V. }
  assert (S5 : snippets (db w5) = snippets (db w) ++ rows).
  { unfold w5, w4. cbn [db set_db emit with_vectors snippets].
    rewrite after_init_db. cbn [db emit]. exact S. }
  assert (R0 : rows0 = rows).
  { rewrite S in S0. now apply app_inv_head in S0. }
  assert (Htrace : exists pre,
      trace w5 = trace w ++ pre ++
                 TxBegin (begin_mode (driver w) deferred)
                 :: map InsertSnippet rows ++
                 [TxCommit; Console LogBuildingIndex; DeleteVectors ids] /\
      Forall (fun ev => is_vector_write ev = false /\
                        is_metadata_event ev = false) pre).
  { destruct (after_init_trace w) as (pre & Hpre & Fpre).
    exists pre. split; [|exact Fpre].
    unfold w5. cbn [trace set_db emit].
    rewrite (after_init_idem w4) by (unfold w4; cbn [vecInitialized emit]; exact I0).
    unfold w4. cbn [trace emit]. rewrite T0, Hpre, R0.
    now repeat (rewrite <- app_assoc; cbn [app]). }
  exists e, w5, rows. split; [reflexivity|]. split; [exact S5|].
  split; [exact F|]. rewrite I. split; [exact T|]. split; [|split; [|exact Htrace]].
  - intros row Hrow. rewrite T. apply kept_vectors_fresh.
    rewrite <- I. now apply in_map.
  - intros libraryName limit Hl. rewrite getAllSnippets_eq. cbn [fst].
    unfold snippets_of. rewrite S5, filter_app. f_equal. apply sql_limit_all.
    rewrite <- filter_app, <- S5.
    pose proof (filter_length_le (in_library libraryName) (snippets (db w5))). lia.
Qed.

Lemma insertSnippets_keeps_metadata_witness :
  let w := world_of no_env empty_db in
  forallb (fun s => reference_ok (db w) (inputMeta s)) records_bad = true /\
  In record_bad records_bad /\
  is_ok (VectorStore.normalizeEmbedding (inputEmbedding record_bad)
           (currentProvider (env w))) = false /\
  exists e w' rows,
    SnippetStoreV2.insertSnippets records_bad w = (Throw e, w') /\
    snippets (db w') = snippets (db w) ++ rows /\
    Forall2 (row_of (currentProvider (env w))) records_bad rows /\
    vector_table w' = kept_vectors (map id rows) (db w) /\
    (forall row, In row rows ->
       ~ In (id row) (map snippet_id (vector_table w'))) /\
    (forall libraryName limit,
       (Z.of_nat (length (snippets (db w'))) <= limit)%Z ->
       fst (SnippetStoreV2.getAllSnippets libraryName limit w')
       = Ok (snippets_of libraryName (db w)
             ++ filter (in_library libraryName) rows)) /\
    (exists pre,
        trace w' = trace w ++ pre ++
                   TxBegin (begin_mode (driver w) deferred)
                   :: map InsertSnippet rows ++
                   [TxCommit; Console LogBuildingIndex;
                    DeleteVectors (map id rows)] /\
        Forall (fun ev => is_vector_write ev = false /\
                          is_metadata_event ev = false) pre).
Proof.
  cbv zeta.
  assert (H2 : In record_bad records_bad) by (right; left; reflexivity).
  split; [reflexivity|]. split; [exact H2|]. split; [reflexivity|].
  apply (insertSnippets_keeps_metadata records_bad record_bad
           (world_of no_env empty_db)); [reflexivity|exact H2|reflexivity].
Defined.
